(** * Backup scheduler and backup reporter of the student-records service

    A shallow embedding of [backup-manager.js] (class [BackupManager]),
    [backup-reporter.js] (class [BackupReporter]), [file-utils.js]
    ([saveToJSON], [loadJSON]), [student.js] (the store of students and
    its manager) and the backup routes of [index.js], together with the
    parts of the JavaScript runtime these files call: string methods,
    [Date], [path], [JSON], timers and promises.

    Conventions.
    - A JavaScript string is a [string]; only code units below 256 occur.
    - A time value is a [Z], milliseconds since the epoch (UTC); a [Date]
      object is an [option Z], [None] being the invalid date (time value NaN).
    - A JavaScript number that is whole and that a double holds exactly
      is a [Z], [option Z] where NaN can occur; the quotient of the
      report is a double.
    - The reporter and the start route take the values of the engine,
      with [JSON.parse], truthiness, property access and the conversion
      to a string, from an [Engine]; [Json] is the engine of the values
      the model writes.
    - Asynchronous code is cut at its [await]s: every suspended call of
      [#performBackup] is an entry of the manager state and resumes on an
      explicit I/O completion event. *)

From Stdlib Require Import ZArith List String Ascii Bool Lia QArith.
From Stdlib Require Import Sorting.Permutation Sorting.Sorted.
From Stdlib Require Import Floats.SpecFloat.
Import ListNotations.

Local Open Scope string_scope.
Local Open Scope Z_scope.

(** ** String methods *)

Module JsString.

(** [s.endsWith(suffix)]: some tail of [s] is [suffix]. *)
Fixpoint endsWith (s suffix : string) : bool :=
  if String.eqb s suffix then true
  else match s with
       | EmptyString => false
       | String _ s' => endsWith s' suffix
       end.

(** [Some rest] when [s = p ++ rest]. *)
Fixpoint dropPrefix (p s : string) : option string :=
  match p with
  | EmptyString => Some s
  | String a p' =>
      match s with
      | EmptyString => None
      | String b s' => if Ascii.eqb a b then dropPrefix p' s' else None
      end
  end.

(** [s.replace(pattern, replacement)] with a string pattern, and with a
    one-character regular expression without the [g] flag: the first
    occurrence only. *)
Fixpoint replaceFirst (pattern replacement s : string) : string :=
  match dropPrefix pattern s with
  | Some rest => replacement ++ rest
  | None =>
      match s with
      | EmptyString => EmptyString
      | String c s' => String c (replaceFirst pattern replacement s')
      end
  end.

(** [s.replace(/c/g, replacement)]: every occurrence of the character. *)
Fixpoint replaceAllChar (c : ascii) (replacement s : string) : string :=
  match s with
  | EmptyString => EmptyString
  | String a s' =>
      if Ascii.eqb a c then replacement ++ replaceAllChar c replacement s'
      else String a (replaceAllChar c replacement s')
  end.

(** [s.split(sep)] for a one-character separator; never the empty array. *)
Fixpoint split (sep : ascii) (s : string) : list string :=
  match s with
  | EmptyString => [EmptyString]
  | String c s' =>
      if Ascii.eqb c sep then EmptyString :: split sep s'
      else match split sep s' with
           | [] => [String c EmptyString]
           | piece :: pieces => String c piece :: pieces
           end
  end.

(** [pieces.join(sep)]. *)
Fixpoint joinWith (sep : string) (pieces : list string) : string :=
  match pieces with
  | [] => EmptyString
  | [p] => p
  | p :: rest => p ++ sep ++ joinWith sep rest
  end.

(** [array[0]] of an array of strings; [undefined] is not needed because
    [split] never returns the empty array. *)
Definition first (pieces : list string) : string := hd EmptyString pieces.

(** [!s]: only the empty string is falsy. *)
Definition isFalsy (s : string) : bool :=
  match s with EmptyString => true | _ => false end.

Definition isDigit (c : ascii) : bool :=
  let n := nat_of_ascii c in (48 <=? n)%nat && (n <=? 57)%nat.

Definition digitValue (c : ascii) : Z := Z.of_nat (nat_of_ascii c) - 48.

(** The character of a decimal digit. *)
Definition digitChar (d : Z) : ascii :=
  ascii_of_nat (48 + Z.to_nat (d mod 10)).

Definition isWhiteSpace (c : ascii) : bool :=
  let n := nat_of_ascii c in
  (n =? 32)%nat || ((9 <=? n)%nat && (n <=? 13)%nat) || (n =? 160)%nat.

Fixpoint trimStart (s : string) : string :=
  match s with
  | String c s' => if isWhiteSpace c then trimStart s' else s
  | EmptyString => EmptyString
  end.

Definition hexValue (c : ascii) : option Z :=
  let n := nat_of_ascii c in
  if isDigit c then Some (Z.of_nat n - 48)
  else if (97 <=? n)%nat && (n <=? 102)%nat then Some (Z.of_nat n - 87)
  else if (65 <=? n)%nat && (n <=? 70)%nat then Some (Z.of_nat n - 55)
  else None.

(** The longest prefix of digits in the given radix, as a number; [None]
    when there is no digit. *)
Fixpoint readDigits (radix : Z) (acc : option Z) (s : string) : option Z :=
  match s with
  | EmptyString => acc
  | String c s' =>
      match hexValue c with
      | Some d =>
          if d <? radix
          then readDigits radix (Some (radix * match acc with Some a => a | None => 0 end + d)) s'
          else acc
      | None => acc
      end
  end.

(** [parseInt(s)] without a radix; [None] is NaN.  Values are exact
    integers (the doubles of JavaScript agree below 2^53). *)
Definition parseInt (s : string) : option Z :=
  let s1 := trimStart s in
  let '(sign, s2) :=
    match s1 with
    | String "-" r => (-1, r)
    | String "+" r => (1, r)
    | _ => (1, s1)
    end in
  let '(radix, s3) :=
    match s2 with
    | String "0" (String "x" r) => (16, r)
    | String "0" (String "X" r) => (16, r)
    | _ => (10, s2)
    end in
  option_map (Z.mul sign) (readDigits radix None s3).

(** Two, three, four and six decimal digits, zero padded. *)
Definition pad2 (n : Z) : string :=
  String (digitChar (n / 10)) (String (digitChar n) EmptyString).

Definition pad3 (n : Z) : string := String (digitChar (n / 100)) (pad2 n).

Definition pad4 (n : Z) : string := String (digitChar (n / 1000)) (pad3 n).

Definition pad6 (n : Z) : string :=
  String (digitChar (n / 100000)) (String (digitChar (n / 10000)) (pad4 n)).

(** [Number.prototype.toString] of an integer. *)
Fixpoint digitsOfPositive (fuel : nat) (n : Z) (acc : string) : string :=
  match fuel with
  | O => acc
  | S fuel' =>
      let acc' := String (digitChar n) acc in
      if n <? 10 then acc' else digitsOfPositive fuel' (n / 10) acc'
  end.

Definition numberToString (n : Z) : string :=
  if n <? 0 then String "-" (digitsOfPositive (S (Z.to_nat (Z.log2 (- n)))) (- n) EmptyString)
  else digitsOfPositive (S (Z.to_nat (Z.log2 n))) n EmptyString.

End JsString.

(** ** Dates *)

Module JsDate.

Import JsString.

Definition msPerSecond : Z := 1000.
Definition msPerMinute : Z := 60000.
Definition msPerHour : Z := 3600000.
Definition msPerDay : Z := 86400000.

(** The largest time value of a valid [Date]. *)
Definition maxTime : Z := 8640000000000000.

(** [TimeClip]. *)
Definition timeClip (t : Z) : option Z :=
  if Z.abs t <=? maxTime then Some t else None.

(** Day number of a proleptic Gregorian date, [month] in 1..12. *)
Definition daysFromCivil (year month day : Z) : Z :=
  let y := if month <=? 2 then year - 1 else year in
  let era := y / 400 in
  let yoe := y - era * 400 in
  let mp := if 2 <? month then month - 3 else month + 9 in
  let doy := (153 * mp + 2) / 5 + day - 1 in
  let doe := yoe * 365 + yoe / 4 - yoe / 100 + doy in
  era * 146097 + doe - 719468.

(** Year, month (1..12) and day of month of a day number. *)
Definition civilFromDays (days : Z) : Z * Z * Z :=
  let z := days + 719468 in
  let era := z / 146097 in
  let doe := z - era * 146097 in
  let yoe := (doe - doe / 1460 + doe / 36524 - doe / 146096) / 365 in
  let doy := doe - (365 * yoe + yoe / 4 - yoe / 100) in
  let mp := (5 * doy + 2) / 153 in
  let d := doy - (153 * mp + 2) / 5 + 1 in
  let m := if mp <? 10 then mp + 3 else mp - 9 in
  let y := yoe + era * 400 in
  (if m <=? 2 then y + 1 else y, m, d).

(** Calendar fields of a time value, read in UTC. *)
Record Fields := {
  year : Z; month : Z; day : Z;
  hours : Z; minutes : Z; seconds : Z; milliseconds : Z
}.

Definition utcFields (t : Z) : Fields :=
  let '(y, m, d) := civilFromDays (t / msPerDay) in
  let r := t mod msPerDay in
  {| year := y; month := m; day := d;
     hours := r / msPerHour;
     minutes := (r / msPerMinute) mod 60;
     seconds := (r / msPerSecond) mod 60;
     milliseconds := r mod 1000 |}.

(** Calendar fields in the local time zone, [tzOffset] milliseconds east of
    UTC. *)
Definition localFields (tzOffset t : Z) : Fields := utcFields (t + tzOffset).

(** The time value with the milliseconds dropped. *)
Definition truncateToSecond (t : Z) : Z := t - t mod msPerSecond.

Definition yearString (y : Z) : string :=
  if (0 <=? y) && (y <=? 9999) then pad4 y
  else if y <? 0 then String "-" (pad6 (- y))
  else String "+" (pad6 y).

(** [date.toISOString()] of a valid date: always UTC. *)
Definition toISOString (t : Z) : string :=
  let f := utcFields t in
  yearString (year f) ++ "-" ++ pad2 (month f) ++ "-" ++ pad2 (day f)
  ++ "T" ++ pad2 (hours f) ++ ":" ++ pad2 (minutes f) ++ ":" ++ pad2 (seconds f)
  ++ "." ++ pad3 (milliseconds f) ++ "Z".

(** [MakeDay(year, month, date)], [month] counted from 0 and of any size. *)
Definition makeDay (y m d : Z) : Z :=
  daysFromCivil (y + m / 12) (m mod 12 + 1) 1 + d - 1.

Definition makeTime (h mi s ms : Z) : Z :=
  h * msPerHour + mi * msPerMinute + s * msPerSecond + ms.

Definition makeDate (dayNumber time : Z) : Z := dayNumber * msPerDay + time.

(** Exactly [n] decimal digits at the head of [s]. *)
Fixpoint takeDigits (n : nat) (acc : Z) (s : string) : option (Z * string) :=
  match n with
  | O => Some (acc, s)
  | S n' =>
      match s with
      | String c s' =>
          if isDigit c then takeDigits n' (10 * acc + digitValue c) s' else None
      | EmptyString => None
      end
  end.

Section Engine.

(** Milliseconds the local time zone is east of UTC. *)
Variable tzOffset : Z.

(** What the engine makes of a string outside the Date Time String Format:
    ECMA-262 leaves it to the implementation. *)
Variable legacyDateParse : string -> option Z.

(** [new Date(year, monthIndex, day, hours, minutes, seconds)]: local time;
    a NaN argument gives the invalid date. *)
Definition newDateOfFields (y m d h mi s : option Z) : option Z :=
  match y, m, d, h, mi, s with
  | Some y, Some m, Some d, Some h, Some mi, Some s =>
      let y' := if (0 <=? y) && (y <=? 99) then 1900 + y else y in
      timeClip (makeDate (makeDay y' m d) (makeTime h mi s 0) - tzOffset)
  | _, _, _, _, _, _ => None
  end.

(** The offset part of the Date Time String Format: nothing (local time),
    [Z], or a sign with [HH:mm]. *)
Definition isoOffset (s : string) : option Z :=
  match s with
  | EmptyString => Some tzOffset
  | String "Z" EmptyString => Some 0
  | String sign r =>
      if Ascii.eqb sign "+" || Ascii.eqb sign "-" then
        match takeDigits 2 0 r with
        | Some (h, String ":" r1) =>
            match takeDigits 2 0 r1 with
            | Some (mi, EmptyString) =>
                if (h <=? 23) && (mi <=? 59)
                then Some ((if Ascii.eqb sign "-" then -1 else 1)
                           * (h * msPerHour + mi * msPerMinute))
                else None
            | _ => None
            end
        | _ => None
        end
      else None
  end.

(** The time part after [T]: [HH:mm], [HH:mm:ss] or [HH:mm:ss.sss], then the
    offset.  The result is the time within the day and the offset. *)
Definition isoTime (s : string) : option (Z * Z) :=
  match takeDigits 2 0 s with
  | Some (h, String ":" r1) =>
      match takeDigits 2 0 r1 with
      | Some (mi, r2) =>
          let '(sec, ms, r4) :=
            match r2 with
            | String ":" r3 =>
                match takeDigits 2 0 r3 with
                | Some (sec, String "." r5) =>
                    match takeDigits 3 0 r5 with
                    | Some (ms, r6) => (Some sec, Some ms, r6)
                    | None => (None, None, r5)
                    end
                | Some (sec, r5) => (Some sec, Some 0, r5)
                | None => (None, None, r3)
                end
            | _ => (Some 0, Some 0, r2)
            end in
          match sec, ms, isoOffset r4 with
          | Some sec, Some ms, Some off =>
              if ((h <=? 23) && (mi <=? 59) && (sec <=? 59))
                 || ((h =? 24) && (mi =? 0) && (sec =? 0) && (ms =? 0))
              then Some (makeTime h mi sec ms, off)
              else None
          | _, _, _ => None
          end
      | None => None
      end
  | _ => None
  end.

(** The date part is over: either the string ends (a date-only form is
    UTC) or a time part follows. *)
Definition isoAfterDate (y m d : Z) (s : string) : option Z :=
  match s with
  | EmptyString => timeClip (makeDate (makeDay y (m - 1) d) 0)
  | String "T" r =>
      match isoTime r with
      | Some (time, off) => timeClip (makeDate (makeDay y (m - 1) d) time - off)
      | None => None
      end
  | _ => None
  end.

(** The Date Time String Format of ECMA-262: [YYYY], [YYYY-MM] or
    [YYYY-MM-DD] (or an expanded year with a sign and six digits),
    optionally followed by [T] and a time.  [None]: the string is not in
    the format. *)
Definition isoDateParse (s : string) : option Z :=
  let yearPart :=
    match s with
    | String c r =>
        if Ascii.eqb c "+" then takeDigits 6 0 r
        else if Ascii.eqb c "-" then
          match takeDigits 6 0 r with
          | Some (y, r') => if y =? 0 then None else Some (- y, r')
          | None => None
          end
        else takeDigits 4 0 s
    | EmptyString => None
    end in
  match yearPart with
  | Some (y, String "-" r) =>
      match takeDigits 2 0 r with
      | Some (m, r1) =>
          if (1 <=? m) && (m <=? 12) then
            match r1 with
            | String "-" r2 =>
                match takeDigits 2 0 r2 with
                | Some (d, r3) =>
                    if (1 <=? d) && (d <=? 31) then isoAfterDate y m d r3 else None
                | None => None
                end
            | _ => isoAfterDate y m 1 r1
            end
          else None
      | None => None
      end
  | Some (y, r) => isoAfterDate y 1 1 r
  | None => None
  end.

(** [new Date(string)], that is [Date.parse]: the standard format first,
    the engine's own heuristics otherwise. *)
Definition newDateOfString (s : string) : option Z :=
  match isoDateParse s with
  | Some t => Some t
  | None => legacyDateParse s
  end.

End Engine.

(** An engine without heuristics: what is not in the standard format is an
    invalid date.  ECMA-262 allows it, and V8 (the engine of Node.js)
    answers the same on a string of six hyphen-separated numbers such as
    [2025-01-02-03-04-05]: its legacy parser stops at the sign that follows
    a complete date. *)
Definition strictEngine : string -> option Z := fun _ => None.

End JsDate.

(** ** Paths *)

Module Path.

Import JsString.

(** The part after the last [/]. *)
Fixpoint lastSegment (acc s : string) : string :=
  match s with
  | EmptyString => acc
  | String c s' =>
      if Ascii.eqb c "/" then lastSegment EmptyString s'
      else lastSegment (acc ++ String c EmptyString) s'
  end.

(** The prefix of [s] left when a proper suffix [suffix] is removed. *)
Fixpoint stripSuffix (s suffix : string) : option string :=
  match s with
  | EmptyString => None
  | String c s' =>
      if String.eqb s' suffix then Some (String c EmptyString)
      else option_map (String c) (stripSuffix s' suffix)
  end.

(** [path.basename(p, suffix)] for a path that does not end in [/]: the
    last segment, without [suffix] when it ends in it and is longer. *)
Definition basename (p suffix : string) : string :=
  let b := lastSegment EmptyString p in
  match stripSuffix b suffix with
  | Some stem => stem
  | None => b
  end.

(** [path.join(dir, name)] for a normalized [dir] and a plain file name. *)
Definition join (dir name : string) : string := dir ++ "/" ++ name.

End Path.

(** ** Errors and results *)

(** The error objects that occur: a failed file-system call carries its
    [code]; the others are [new Error(message)] and the runtime's
    [SyntaxError], [RangeError] and [TypeError]. *)
Inductive JsError : Type :=
| SystemError (code : string)
| PlainError (message : string)
| SyntaxError
| RangeError (message : string)
| JsTypeError (message : string).

(** A call either returns or throws (an [async] call: resolves or
    rejects). *)
Inductive Result (A : Type) : Type :=
| Ok (a : A)
| Throw (e : JsError).

Arguments Ok {A} a.
Arguments Throw {A} e.

Definition isENOENT (e : JsError) : bool :=
  match e with
  | SystemError code => String.eqb code "ENOENT"
  | _ => false
  end.

(** ** Numbers *)

Module JsNumber.

(** A number is a double.  Where the code only counts, the whole numbers
    that occur are far below 2^53, doubles hold them exactly and they are
    written as [Z]; where it divides, the quotient is rounded as the
    engine rounds it. *)
Definition ofZ (n : Z) : spec_float := binary_normalize 53 1024 n 0 false.

(** [a / b], rounded to the nearest double, to the even one of two. *)
Definition divide (a b : spec_float) : spec_float := SFdiv 53 1024 a b.

(** [x.toFixed(2)] for a finite [x] below 10^21, in hundredths: the whole
    number [n] for which [n / 100 - x] is as close to zero as possible,
    the larger one of two; the sign is that of [x]. *)
Definition toFixed2 (x : spec_float) : Z :=
  match x with
  | S754_finite negative m e =>
      let n :=
        if 0 <=? e then 100 * Z.pos m * 2 ^ e
        else (200 * Z.pos m + 2 ^ (- e)) / (2 * 2 ^ (- e)) in
      if negative then - n else n
  | _ => 0
  end.

End JsNumber.

(** ** The values of the engine *)

Module JsValue.

(** What a program sees of the values the engine hands it, such as those
    [JSON.parse] returns: [parse text] is [JSON.parse(text)]; [elements v]
    is [Some] of the elements of [v] when [Array.isArray(v)]; [truthy v]
    tells whether [v] is truthy; [property v key] is [v[key]] for a [v]
    that is neither [null] nor [undefined], [None] being [undefined]; and
    [toString v] is the string [v] is converted to where a string or a
    property key is needed, a conversion that throws a [TypeError] for an
    object that has neither a usable [toString] nor a usable [valueOf].
    The code that follows takes these answers from an [Engine], whatever
    its values are. *)
Record Engine : Type := {
  Value : Type;
  parse : string -> Result Value;
  elements : Value -> option (list Value);
  truthy : Value -> bool;
  property : Value -> string -> option Value;
  toString : Value -> Result string
}.

End JsValue.

(** ** JSON *)

Module Json.

Import JsString.

(** The values [JSON.parse] returns and [JSON.stringify] prints, as far as
    they are modelled: a number is a whole number that a double holds
    exactly (below 2^53 in absolute value), a string has code units below
    256, and an object is the sequence of its members in order. *)
#[local] Unset Elimination Schemes.
Inductive value : Type :=
| JNull
| JBool (b : bool)
| JNumber (n : Z)
| JString (s : string)
| JArray (items : list value)
| JObject (members : list (string * value)).
#[local] Set Elimination Schemes.

(** [Array.isArray(v)]. *)
Definition isArray (v : value) : bool :=
  match v with JArray _ => true | _ => false end.

(** [v.key] of a parsed value: the last member with that key wins, and a
    value without that member gives [undefined] ([None]). *)
Fixpoint lookupMember (key : string) (members : list (string * value)) : option value :=
  match members with
  | [] => None
  | (k, v) :: rest =>
      match lookupMember key rest with
      | Some v' => Some v'
      | None => if String.eqb k key then Some v else None
      end
  end.

Definition getProperty (v : value) (key : string) : option value :=
  match v with
  | JObject members => lookupMember key members
  | _ => None
  end.

Definition quoteChar : ascii := "034"%char.
Definition backslash : ascii := "092"%char.
Definition newline : string := String "010"%char EmptyString.

Definition hexDigitChar (d : nat) : ascii :=
  if (d <? 10)%nat then ascii_of_nat (48 + d) else ascii_of_nat (87 + d).

(** One character of a string, as [JSON.stringify] writes it. *)
Definition escapeChar (c : ascii) : string :=
  let n := nat_of_ascii c in
  if Ascii.eqb c quoteChar then String backslash (String quoteChar EmptyString)
  else if Ascii.eqb c backslash then String backslash (String backslash EmptyString)
  else if (n =? 8)%nat then String backslash "b"
  else if (n =? 12)%nat then String backslash "f"
  else if (n =? 10)%nat then String backslash "n"
  else if (n =? 13)%nat then String backslash "r"
  else if (n =? 9)%nat then String backslash "t"
  else if (n <? 32)%nat then
    String backslash
      (String "u" (String "0" (String "0"
        (String (hexDigitChar (n / 16)) (String (hexDigitChar (n mod 16)) EmptyString)))))
  else String c EmptyString.

Fixpoint escapeChars (s : string) : string :=
  match s with
  | EmptyString => EmptyString
  | String c s' => escapeChar c ++ escapeChars s'
  end.

Definition quote (s : string) : string :=
  String quoteChar (escapeChars s ++ String quoteChar EmptyString).

(** [JSON.stringify(v, null, 2)] below the indentation [indent]. *)
Fixpoint serialize (indent : string) (v : value) {struct v} : string :=
  let inner := indent ++ "  " in
  let separator := "," ++ newline ++ inner in
  match v with
  | JNull => "null"
  | JBool true => "true"
  | JBool false => "false"
  | JNumber n => numberToString n
  | JString s => quote s
  | JArray [] => "[]"
  | JArray items =>
      "[" ++ newline ++ inner
      ++ joinWith separator (map (serialize inner) items)
      ++ newline ++ indent ++ "]"
  | JObject [] => "{}"
  | JObject members =>
      "{" ++ newline ++ inner
      ++ joinWith separator
           (map (fun member : string * value =>
                   let (key, item) := member in
                   quote key ++ ": " ++ serialize inner item) members)
      ++ newline ++ indent ++ "}"
  end.

(** [JSON.stringify(v, null, 2)]. *)
Definition stringify (v : value) : string := serialize EmptyString v.

Definition isJsonSpace (c : ascii) : bool :=
  let n := nat_of_ascii c in
  (n =? 32)%nat || (n =? 9)%nat || (n =? 10)%nat || (n =? 13)%nat.

Fixpoint skipSpaces (s : string) : string :=
  match s with
  | String c s' => if isJsonSpace c then skipSpaces s' else s
  | EmptyString => EmptyString
  end.

(** The characters of a string literal after its opening quote, up to the
    closing quote.  An escape [\uXXXX] above 255 is outside the model. *)
Fixpoint parseChars (s : string) : option (string * string) :=
  match s with
  | EmptyString => None
  | String c r =>
      if Ascii.eqb c quoteChar then Some (EmptyString, r)
      else if Ascii.eqb c backslash then
        match r with
        | String e r1 =>
            let simple (d : nat) (k : string) :=
              match parseChars k with
              | Some (t, rest) => Some (String (ascii_of_nat d) t, rest)
              | None => None
              end in
            if Ascii.eqb e quoteChar then simple 34%nat r1
            else if Ascii.eqb e backslash then simple 92%nat r1
            else if Ascii.eqb e "/" then simple 47%nat r1
            else if Ascii.eqb e "b" then simple 8%nat r1
            else if Ascii.eqb e "f" then simple 12%nat r1
            else if Ascii.eqb e "n" then simple 10%nat r1
            else if Ascii.eqb e "r" then simple 13%nat r1
            else if Ascii.eqb e "t" then simple 9%nat r1
            else if Ascii.eqb e "u" then
              match r1 with
              | String h1 (String h2 (String h3 (String h4 r2))) =>
                  match hexValue h1, hexValue h2, hexValue h3, hexValue h4 with
                  | Some 0, Some 0, Some a, Some b => simple (Z.to_nat (16 * a + b)) r2
                  | _, _, _, _ => None
                  end
              | _ => None
              end
            else None
        | EmptyString => None
        end
      else if (nat_of_ascii c <? 32)%nat then None
      else
        match parseChars r with
        | Some (t, rest) => Some (String c t, rest)
        | None => None
        end
  end.

Fixpoint readNat (acc : Z) (s : string) : Z * string :=
  match s with
  | String c r => if isDigit c then readNat (10 * acc + digitValue c) r else (acc, s)
  | EmptyString => (acc, s)
  end.

(** An integer literal; a fraction or an exponent is outside the model. *)
Definition parseNumber (s : string) : option (Z * string) :=
  let '(sign, s1) :=
    match dropPrefix "-" s with
    | Some r => (-1, r)
    | None => (1, s)
    end in
  match s1 with
  | String c r =>
      if isDigit c then
        let '(n, rest) := if Ascii.eqb c "0" then (0, r) else readNat 0 s1 in
        match rest with
        | String c2 _ =>
            if isDigit c2 || Ascii.eqb c2 "." || Ascii.eqb c2 "e" || Ascii.eqb c2 "E"
            then None else Some (sign * n, rest)
        | EmptyString => Some (sign * n, rest)
        end
      else None
  | EmptyString => None
  end.

Definition expect (word : string) (v : value) (s : string) : option (value * string) :=
  match dropPrefix word s with
  | Some rest => Some (v, rest)
  | None => None
  end.

Section Loops.

(** The parser of one item. *)
Variable parseItem : string -> option (value * string).

(** The items of an array after its opening bracket, at most [n] of
    them. *)
Fixpoint parseElements (n : nat) (s : string) {struct n} : option (list value * string) :=
  match n with
  | O => None
  | S n' =>
      match parseItem s with
      | Some (v, r) =>
          match skipSpaces r with
          | String c r' =>
              if Ascii.eqb c "," then
                match parseElements n' r' with
                | Some (vs, r'') => Some (v :: vs, r'')
                | None => None
                end
              else if Ascii.eqb c "]" then Some ([v], r')
              else None
          | EmptyString => None
          end
      | None => None
      end
  end.

(** The members of an object after its opening brace, at most [n] of
    them. *)
Fixpoint parseMembers (n : nat) (s : string) {struct n}
  : option (list (string * value) * string) :=
  match n with
  | O => None
  | S n' =>
      match dropPrefix (String quoteChar EmptyString) (skipSpaces s) with
      | Some r0 =>
          match parseChars r0 with
          | Some (key, r1) =>
              match dropPrefix ":" (skipSpaces r1) with
              | Some r2 =>
                  match parseItem r2 with
                  | Some (v, r3) =>
                      match skipSpaces r3 with
                      | String c r4 =>
                          if Ascii.eqb c "," then
                            match parseMembers n' r4 with
                            | Some (ms, r5) => Some ((key, v) :: ms, r5)
                            | None => None
                            end
                          else if Ascii.eqb c "}" then Some ([(key, v)], r4)
                          else None
                      | EmptyString => None
                      end
                  | None => None
                  end
              | None => None
              end
          | None => None
          end
      | None => None
      end
  end.

End Loops.

(** One JSON value at the head of [s], after optional white space.  [fuel]
    bounds the nesting depth and the number of items of an array or
    object. *)
Fixpoint parseValue (fuel : nat) (s : string) {struct fuel} : option (value * string) :=
  match fuel with
  | O => None
  | S fuel' =>
      match skipSpaces s with
      | EmptyString => None
      | String c r =>
          if Ascii.eqb c "n" then expect "ull" JNull r
          else if Ascii.eqb c "t" then expect "rue" (JBool true) r
          else if Ascii.eqb c "f" then expect "alse" (JBool false) r
          else if Ascii.eqb c quoteChar then
            match parseChars r with
            | Some (t, rest) => Some (JString t, rest)
            | None => None
            end
          else if Ascii.eqb c "[" then
            match dropPrefix "]" (skipSpaces r) with
            | Some r' => Some (JArray [], r')
            | None =>
                match parseElements (parseValue fuel') fuel' r with
                | Some (vs, rest) => Some (JArray vs, rest)
                | None => None
                end
            end
          else if Ascii.eqb c "{" then
            match dropPrefix "}" (skipSpaces r) with
            | Some r' => Some (JObject [], r')
            | None =>
                match parseMembers (parseValue fuel') fuel' r with
                | Some (ms, rest) => Some (JObject ms, rest)
                | None => None
                end
            end
          else
            match parseNumber (String c r) with
            | Some (n, rest) => Some (JNumber n, rest)
            | None => None
            end
      end
  end.

(** [JSON.parse(text)] for the texts of the model: one value, then only
    white space; [SyntaxError] otherwise.  A text with a fraction, an
    exponent or an escape above [00FF] has no value in the model. *)
Definition parse (text : string) : Result value :=
  match parseValue (S (String.length text)) text with
  | Some (v, rest) =>
      match skipSpaces rest with
      | EmptyString => Ok v
      | _ => Throw SyntaxError
      end
  | None => Throw SyntaxError
  end.

(** Whether a value is truthy. *)
Definition truthy (v : value) : bool :=
  match v with
  | JNull => false
  | JBool b => b
  | JNumber n => negb (n =? 0)
  | JString s => negb (isFalsy s)
  | JArray _ | JObject _ => true
  end.

(** Whether an object has an own member [key]. *)
Definition hasMember (key : string) (members : list (string * value)) : bool :=
  existsb (fun member => String.eqb (fst member) key) members.

Definition notPrimitive : JsError := JsTypeError "Cannot convert object to primitive value".

(** [String(v)], which is also the property key [v] is turned into.  An
    array is joined with commas, [null] elements giving the empty string.
    An object is converted by its [toString] and else by its [valueOf]:
    [Object.prototype.toString] answers [[object Object]]; an own member
    [toString], which in a parsed value is never a function, hides it,
    [valueOf] (own or inherited) returns no primitive, and the conversion
    throws a [TypeError]. *)
Fixpoint toPropertyKey (v : value) : Result string :=
  match v with
  | JNull => Ok "null"
  | JBool true => Ok "true"
  | JBool false => Ok "false"
  | JNumber n => Ok (numberToString n)
  | JString s => Ok s
  | JArray items =>
      match
        (fix each (l : list value) : Result (list string) :=
           match l with
           | [] => Ok []
           | x :: l' =>
               match (match x with JNull => Ok EmptyString | _ => toPropertyKey x end) with
               | Ok s =>
                   match each l' with
                   | Ok rest => Ok (s :: rest)
                   | Throw e => Throw e
                   end
               | Throw e => Throw e
               end
           end) items
      with
      | Ok parts => Ok (joinWith "," parts)
      | Throw e => Throw e
      end
  | JObject members =>
      if hasMember "toString" members then Throw notPrimitive else Ok "[object Object]"
  end.

(** The values of the model as an engine has them.  [getProperty] answers
    for the keys that [Object.prototype] does not define. *)
Definition engine : JsValue.Engine :=
  {| JsValue.Value := value;
     JsValue.parse := parse;
     JsValue.elements := fun v => match v with JArray items => Some items | _ => None end;
     JsValue.truthy := truthy;
     JsValue.property := getProperty;
     JsValue.toString := toPropertyKey |}.

End Json.

(** ** file-utils.js *)

Module FileUtils.

(** The files on disk: the content at each absolute path. *)
Definition FileSystem : Type := string -> option string.

Definition emptyDisk : FileSystem := fun _ => None.

(** [path.resolve(p)] in the working directory [cwd]. *)
Definition resolve (cwd p : string) : string :=
  match p with
  | String "/" _ => p
  | _ => cwd ++ "/" ++ p
  end.

(** The disk after [fs.writeFile(path, content)] succeeded. *)
Definition writeFile (disk : FileSystem) (path content : string) : FileSystem :=
  fun p => if String.eqb p path then Some content else disk p.

(** The disk after [fs.writeFile(path, content)] failed.  The call opens
    the file for writing, which creates or truncates it, and then writes:
    [progress] is [None] when the file was not opened, and [Some n] when
    it was and the first [n] code units of the text got written (all of
    them when [n] is the length of the text or more). *)
Definition interruptWrite (disk : FileSystem) (path content : string)
    (progress : option nat) : FileSystem :=
  match progress with
  | None => disk
  | Some n => writeFile disk path (substring 0 n content)
  end.

(** How a call of [fs.writeFile] settles: it is fulfilled, or it is
    rejected with an error after it got as far as [progress]. *)
Inductive WriteOutcome : Type :=
| Written
| WriteFailed (error : JsError) (progress : option nat).

(** [fs.readFile(path, "utf-8")]. *)
Definition readFile (disk : FileSystem) (path : string) : Result string :=
  match disk path with
  | Some content => Ok content
  | None => Throw (SystemError "ENOENT")
  end.

(** [saveToJSON(data, filePath)] up to its [await]: the absolute path and
    the text handed to [fs.writeFile]. *)
Definition saveToJSON (cwd : string) (data : Json.value) (filePath : string) : string * string :=
  let absolutePath := resolve cwd filePath in
  let json := Json.stringify data in
  (absolutePath, json).

(** [loadJSON(filePath)], given what [fs.readFile] answers, on the values
    of the model. *)
Definition loadJSON (cwd : string) (read : string -> Result string) (filePath : string)
  : Result Json.value :=
  let absolutePath := resolve cwd filePath in
  match read absolutePath with
  | Ok json => Json.parse json
  | Throw e => Throw e
  end.

(** [loadJSON(filePath)] on the values of an engine. *)
Definition loadJSONIn (engine : JsValue.Engine) (cwd : string)
    (read : string -> Result string) (filePath : string)
  : Result (JsValue.Value engine) :=
  let absolutePath := resolve cwd filePath in
  match read absolutePath with
  | Ok json => JsValue.parse engine json
  | Throw e => Throw e
  end.

End FileUtils.

(** ** backup-manager.js *)

Module BackupManager.

Import JsString JsDate.

(** The notifications of the manager, one constructor per event name:
    [backup:started], [backup:already-running], [backup:completed],
    [backup:failed], [backup:error], [backup:timeout], [backup:stopped] and
    [backup:not-running], with their arguments. *)
Inductive Notification : Type :=
| BackupStarted (intervalSeconds : Q)
| BackupAlreadyRunning
| BackupCompleted (backupFileName : string)
| BackupFailed (error : JsError) (backupFileName : option string)
| BackupError (error : JsError)
| BackupTimeout (error : JsError)
| BackupStopped
| BackupNotRunning.

(** Where a call of [#performBackup] is suspended: at the [fs.access] or
    the [fs.mkdir] of [#ensureBackupDirectory] ([backupFileName] is still
    [null]), or at the [fs.writeFile] of [saveToJSON]. *)
Inductive Suspended : Type :=
| AwaitAccess
| AwaitMkdir
| AwaitWrite (backupFileName absolutePath json : string).

(** What the rest of the process answers when a suspended call goes on:
    the clock, the collection accessor and the working directory; and, in
    case the awaited call is an [fs.writeFile] that fails, how far it got
    (see [FileUtils.interruptWrite]). *)
Record World : Type := {
  now : Z;
  getStudentsCallback : Result Json.value;
  cwd : string;
  writtenBeforeFailure : option nat
}.

(** The private fields of a [BackupManager], followed by the pieces of the
    runtime it acts on: the live [setInterval] handles, the suspended calls
    of [#performBackup], the callbacks queued by [setImmediate], the
    exception that killed the process, the notifications emitted so far and
    the disk as the calls that have settled left it.  The file of a write
    that is still under way may already be truncated or written in part
    (see [ManagerShape.mayHold]), and the disk is what the settled calls
    left as long as no two writes to one file are under way at once (see
    [ManagerShape.writesInTurn]). *)
Record State : Type := {
  intervalId : option nat;
  backupInterval : Z;
  isBackupInProgress : bool;
  pendingIntervalsCount : Z;
  timers : list nat;
  nextTimer : nat;
  operations : list (nat * Suspended);
  nextOperation : nat;
  immediates : list JsError;
  uncaught : option JsError;
  emitted : list Notification;
  disk : FileUtils.FileSystem
}.

Definition backupDirectory : string := "backups".

(** [new BackupManager(getStudentsCallback, intervalMs)] in a process whose
    disk is [d]. *)
Definition create (intervalMs : Z) (d : FileUtils.FileSystem) : State :=
  {| intervalId := None;
     backupInterval := intervalMs;
     isBackupInProgress := false;
     pendingIntervalsCount := 0;
     timers := [];
     nextTimer := O;
     operations := [];
     nextOperation := O;
     immediates := [];
     uncaught := None;
     emitted := [];
     disk := d |}.

Definition defaultIntervalMs : Z := 30000.

Definition emit (n : Notification) (s : State) : State :=
  {| intervalId := intervalId s;
     backupInterval := backupInterval s;
     isBackupInProgress := isBackupInProgress s;
     pendingIntervalsCount := pendingIntervalsCount s;
     timers := timers s;
     nextTimer := nextTimer s;
     operations := operations s;
     nextOperation := nextOperation s;
     immediates := immediates s;
     uncaught := uncaught s;
     emitted := (emitted s ++ [n])%list;
     disk := disk s |}.

(** The assignments to [#isBackupInProgress] and [#pendingIntervalsCount]. *)
Definition setProgress (inProgress : bool) (count : Z) (s : State) : State :=
  {| intervalId := intervalId s;
     backupInterval := backupInterval s;
     isBackupInProgress := inProgress;
     pendingIntervalsCount := count;
     timers := timers s;
     nextTimer := nextTimer s;
     operations := operations s;
     nextOperation := nextOperation s;
     immediates := immediates s;
     uncaught := uncaught s;
     emitted := emitted s;
     disk := disk s |}.

Definition setOperations (ops : list (nat * Suspended)) (next : nat) (s : State) : State :=
  {| intervalId := intervalId s;
     backupInterval := backupInterval s;
     isBackupInProgress := isBackupInProgress s;
     pendingIntervalsCount := pendingIntervalsCount s;
     timers := timers s;
     nextTimer := nextTimer s;
     operations := ops;
     nextOperation := next;
     immediates := immediates s;
     uncaught := uncaught s;
     emitted := emitted s;
     disk := disk s |}.

(** [this.#intervalId = setInterval(callback, this.#backupInterval)]. *)
Definition setInterval (s : State) : State :=
  {| intervalId := Some (nextTimer s);
     backupInterval := backupInterval s;
     isBackupInProgress := isBackupInProgress s;
     pendingIntervalsCount := pendingIntervalsCount s;
     timers := (timers s ++ [nextTimer s])%list;
     nextTimer := S (nextTimer s);
     operations := operations s;
     nextOperation := nextOperation s;
     immediates := immediates s;
     uncaught := uncaught s;
     emitted := emitted s;
     disk := disk s |}.

(** [clearInterval(this.#intervalId); this.#intervalId = null]. *)
Definition clearInterval (s : State) : State :=
  {| intervalId := None;
     backupInterval := backupInterval s;
     isBackupInProgress := isBackupInProgress s;
     pendingIntervalsCount := pendingIntervalsCount s;
     timers :=
       match intervalId s with
       | Some h => filter (fun h' => negb (Nat.eqb h' h)) (timers s)
       | None => timers s
       end;
     nextTimer := nextTimer s;
     operations := operations s;
     nextOperation := nextOperation s;
     immediates := immediates s;
     uncaught := uncaught s;
     emitted := emitted s;
     disk := disk s |}.

(** [setImmediate(() => { throw error; })]. *)
Definition setImmediate (error : JsError) (s : State) : State :=
  {| intervalId := intervalId s;
     backupInterval := backupInterval s;
     isBackupInProgress := isBackupInProgress s;
     pendingIntervalsCount := pendingIntervalsCount s;
     timers := timers s;
     nextTimer := nextTimer s;
     operations := operations s;
     nextOperation := nextOperation s;
     immediates := (immediates s ++ [error])%list;
     uncaught := uncaught s;
     emitted := emitted s;
     disk := disk s |}.

Definition setDisk (d : FileUtils.FileSystem) (s : State) : State :=
  {| intervalId := intervalId s;
     backupInterval := backupInterval s;
     isBackupInProgress := isBackupInProgress s;
     pendingIntervalsCount := pendingIntervalsCount s;
     timers := timers s;
     nextTimer := nextTimer s;
     operations := operations s;
     nextOperation := nextOperation s;
     immediates := immediates s;
     uncaught := uncaught s;
     emitted := emitted s;
     disk := d |}.

(** [#generateBackupFileName()] when [new Date()] is [now]. *)
Definition generateBackupFileName (now : Z) : string :=
  let timestamp :=
    first (split "." (replaceAllChar ":" "-" (replaceFirst "T" "-" (toISOString now)))) in
  "backup-" ++ timestamp ++ ".backup.json".

(** How the body of [#performBackup] leaves a resumption: suspended at the
    next [await], past [emit("backup:completed")], or in the [catch] clause
    with the error and the [backupFileName] of that moment. *)
Inductive Body : Type :=
| Suspend (k : Suspended)
| Completes (backupFileName absolutePath json : string)
| Raises (error : JsError) (backupFileName : option string).

(** The [try] block after [await this.#ensureBackupDirectory()], up to the
    [await] of [saveToJSON]. *)
Definition afterEnsureBackupDirectory (w : World) : Body :=
  match getStudentsCallback w with
  | Throw e => Raises e None
  | Ok students =>
      if negb (Json.isArray students)
      then Raises (PlainError "Students data is not an array") None
      else
        let backupFileName := generateBackupFileName (now w) in
        let backupFilePath := Path.join backupDirectory backupFileName in
        let '(absolutePath, json) := FileUtils.saveToJSON (cwd w) students backupFilePath in
        Suspend (AwaitWrite backupFileName absolutePath json)
  end.

(** The body of [#performBackup] from a suspension point on, when the
    awaited call settles with [r]. *)
Definition resumeBody (k : Suspended) (r : Result unit) (w : World) : Body :=
  match k, r with
  | AwaitAccess, Ok _ => afterEnsureBackupDirectory w
  | AwaitAccess, Throw e => if isENOENT e then Suspend AwaitMkdir else Raises e None
  | AwaitMkdir, Ok _ => afterEnsureBackupDirectory w
  | AwaitMkdir, Throw e => Raises e None
  | AwaitWrite backupFileName absolutePath json, Ok _ =>
      Completes backupFileName absolutePath json
  | AwaitWrite backupFileName _ _, Throw e => Raises e (Some backupFileName)
  end.

(** [#performBackup()] up to its first [await]: the flags are set and
    [fs.access] is under way. *)
Definition performBackup (s : State) : State :=
  let s1 := setProgress true 0 s in
  setOperations ((operations s1 ++ [(nextOperation s1, AwaitAccess)])%list)
                (S (nextOperation s1)) s1.

(** The [finally] clause. *)
Definition finallyClause (s : State) : State := setProgress false 0 s.

Fixpoint findOperation (id : nat) (ops : list (nat * Suspended)) : option Suspended :=
  match ops with
  | [] => None
  | (i, k) :: rest => if Nat.eqb i id then Some k else findOperation id rest
  end.

Definition removeOperation (id : nat) (ops : list (nat * Suspended)) : list (nat * Suspended) :=
  filter (fun o => negb (Nat.eqb (fst o) id)) ops.

Definition updateOperation (id : nat) (k : Suspended) (ops : list (nat * Suspended))
  : list (nat * Suspended) :=
  map (fun o => if Nat.eqb (fst o) id then (id, k) else o) ops.

(** What is on the disk when the awaited call of a suspended operation
    has failed: only an [fs.writeFile] leaves something behind. *)
Definition leftOnDisk (k : Suspended) (w : World) (d : FileUtils.FileSystem)
  : FileUtils.FileSystem :=
  match k with
  | AwaitWrite _ absolutePath json =>
      FileUtils.interruptWrite d absolutePath json (writtenBeforeFailure w)
  | _ => d
  end.

(** The promise of a call of [#performBackup] after a resumption. *)
Inductive Promise : Type :=
| StillPending
| Fulfilled
| Rejected (error : JsError).

(** A suspended call of [#performBackup] goes on: the rest of the [try]
    block, then [catch] and [finally] as the body leaves it. *)
Definition continuePerformBackup (id : nat) (k : Suspended) (r : Result unit) (w : World)
    (s : State) : State * Promise :=
  match resumeBody k r w with
  | Suspend k' =>
      (setOperations (updateOperation id k' (operations s)) (nextOperation s) s, StillPending)
  | Completes backupFileName absolutePath json =>
      let s1 := setDisk (FileUtils.writeFile (disk s) absolutePath json) s in
      let s2 := emit (BackupCompleted backupFileName) s1 in
      let s3 := finallyClause s2 in
      (setOperations (removeOperation id (operations s3)) (nextOperation s3) s3, Fulfilled)
  | Raises error backupFileName =>
      let s1 := emit (BackupFailed error backupFileName) (setDisk (leftOnDisk k w (disk s)) s) in
      let s2 := finallyClause s1 in
      (setOperations (removeOperation id (operations s2)) (nextOperation s2) s2, Rejected error)
  end.

(** The handler both call sites attach:
    [.catch((error) => { this.emit("backup:error", error); })]. *)
Definition catchHandler (p : Promise) (s : State) : State :=
  match p with
  | Rejected error => emit (BackupError error) s
  | _ => s
  end.

(** The awaited call of operation [id] settles with [r]: the operation
    goes on, and the reaction of its promise runs right after. *)
Definition settle (id : nat) (r : Result unit) (w : World) (s : State) : State :=
  match findOperation id (operations s) with
  | None => s
  | Some k =>
      let '(s1, p) := continuePerformBackup id k r w s in
      catchHandler p s1
  end.

Definition timeoutError : JsError :=
  PlainError "Backup operation has been pending for 3 intervals in a row".

(** The callback given to [setInterval]. *)
Definition intervalCallback (s : State) : State :=
  if isBackupInProgress s then
    let s1 := setProgress (isBackupInProgress s) (pendingIntervalsCount s + 1) s in
    if 3 <=? pendingIntervalsCount s1 then
      let s2 := clearInterval s1 in
      let s3 := setProgress false (pendingIntervalsCount s2) s2 in
      let s4 := emit (BackupTimeout timeoutError) s3 in
      setImmediate timeoutError s4
    else s1
  else performBackup s.

(** [start()]. *)
Definition start (s : State) : State :=
  match intervalId s with
  | Some _ => emit BackupAlreadyRunning s
  | None =>
      let s1 := emit (BackupStarted (backupInterval s # 1000)) s in
      let s2 := setInterval s1 in
      performBackup s2
  end.

(** [stop()]. *)
Definition stop (s : State) : State :=
  match intervalId s with
  | None => emit BackupNotRunning s
  | Some _ => emit BackupStopped (clearInterval s)
  end.

(** [isRunning()]. *)
Definition isRunning (s : State) : bool :=
  match intervalId s with
  | Some _ => true
  | None => false
  end.

(** The first callback queued by [setImmediate] runs: it throws, nothing
    catches, and the process is over. *)
Definition runImmediate (s : State) : State :=
  match immediates s with
  | [] => s
  | error :: rest =>
      {| intervalId := intervalId s;
         backupInterval := backupInterval s;
         isBackupInProgress := isBackupInProgress s;
         pendingIntervalsCount := pendingIntervalsCount s;
         timers := timers s;
         nextTimer := nextTimer s;
         operations := operations s;
         nextOperation := nextOperation s;
         immediates := rest;
         uncaught := Some error;
         emitted := emitted s;
         disk := disk s |}
  end.

(** What can happen to a manager: a call of [start()] or [stop()], a timer
    that fires, the awaited call of a suspended operation that settles, and
    the turn of the [setImmediate] queue. *)
Inductive Event : Type :=
| CallStart
| CallStop
| TimerFires (handle : nat)
| Settles (operation : nat) (r : Result unit) (w : World)
| RunImmediate.

(** One turn of the event loop.  A cleared timer does not fire, and a dead
    process does nothing. *)
Definition step (s : State) (e : Event) : State :=
  match uncaught s with
  | Some _ => s
  | None =>
      match e with
      | CallStart => start s
      | CallStop => stop s
      | TimerFires handle =>
          if existsb (Nat.eqb handle) (timers s) then intervalCallback s else s
      | Settles id r w => settle id r w s
      | RunImmediate => runImmediate s
      end
  end.

Definition run (s : State) (events : list Event) : State := fold_left step events s.

(** The notifications a step adds. *)
Definition newlyEmitted (before after : State) : list Notification :=
  skipn (List.length (emitted before)) (emitted after).



End BackupManager.

(** ** backup-reporter.js *)

Module BackupReporter.

Import JsString JsDate.

(** What the reporter finds around it: the working directory, the time
    zone, the engine's date heuristics, the collation of
    [String.prototype.localeCompare], the answers of [fs.readdir] and
    [fs.readFile], and the engine's values with its [JSON.parse]. *)
Record Env : Type := {
  cwd : string;
  tzOffset : Z;
  legacyDateParse : string -> option Z;
  localeCompare : string -> string -> comparison;
  readdir : string -> Result (list string);
  readFile : string -> Result string;
  engine : JsValue.Engine
}.

(** The values of the engine of [env]. *)
Definition Value (env : Env) : Type := JsValue.Value (engine env).

Definition backupDirectory : string := "backups".

(** [#getBackupFiles()]. *)
Definition getBackupFiles (env : Env) : Result (list string) :=
  let backupPath := FileUtils.resolve (cwd env) backupDirectory in
  match readdir env backupPath with
  | Ok files =>
      Ok (map (fun file => Path.join backupPath file)
              (filter (fun file => endsWith file ".backup.json") files))
  | Throw error => if isENOENT error then Ok [] else Throw error
  end.

(** [#parseTimestampFromFilename(filename)]: a [Date], [None] when
    invalid. *)
Definition parseTimestampFromFilename (env : Env) (filename : string) : option Z :=
  let basename := Path.basename filename ".backup.json" in
  let timestampStr := replaceFirst "backup-" EmptyString basename in
  let timePart := first (split "T" timestampStr) in
  let viaString := newDateOfString (tzOffset env) (legacyDateParse env) timestampStr in
  if isFalsy timePart then
    let parts := split "-" timestampStr in
    match parts with
    | year :: month :: day :: hour :: minute :: second :: _ =>
        newDateOfFields (tzOffset env)
          (parseInt year)
          (option_map (fun m => m - 1) (parseInt month))
          (parseInt day)
          (parseInt hour)
          (parseInt minute)
          (parseInt second)
    | _ => viaString
    end
  else viaString.

(** A value kept in the object [studentIdCounts]: a number, or the string
    an addition ends in when its left operand is not a number. *)
Inductive CountValue : Type :=
| CountNumber (n : Z)
| CountString (s : string).

(** The names every plain object inherits from [Object.prototype]. *)
Definition objectPrototypeFunctions : list string :=
  [ "constructor"; "toString"; "toLocaleString"; "valueOf"; "hasOwnProperty";
    "isPrototypeOf"; "propertyIsEnumerable"; "__defineGetter__";
    "__defineSetter__"; "__lookupGetter__"; "__lookupSetter__" ].

Definition isInherited (key : string) : bool :=
  String.eqb key "__proto__" || existsb (String.eqb key) objectPrototypeFunctions.

Fixpoint ownProperty (key : string) (o : list (string * CountValue)) : option CountValue :=
  match o with
  | [] => None
  | (k, v) :: rest => if String.eqb k key then Some v else ownProperty key rest
  end.

(** [(studentIdCounts[key] || 0) + 1]: an own number is incremented, a
    missing key gives 1; an inherited function or the inherited
    [__proto__] object is truthy and turns the sum into a string. *)
Definition incremented (key : string) (o : list (string * CountValue)) : CountValue :=
  match ownProperty key o with
  | Some (CountNumber n) => CountNumber (n + 1)
  | Some (CountString s) =>
      match s with
      | EmptyString => CountNumber 1
      | _ => CountString (s ++ "1")
      end
  | None =>
      if String.eqb key "__proto__" then CountString "[object Object]1"
      else if existsb (String.eqb key) objectPrototypeFunctions then
        CountString ("function "
                     ++ (if String.eqb key "constructor" then "Object" else key)
                     ++ "() { [native code] }1")
      else CountNumber 1
  end.

(** [studentIdCounts[key] = v]: an own property is updated in place or
    added at the end; assigning a primitive to [__proto__] does nothing. *)
Fixpoint assign (key : string) (v : CountValue) (o : list (string * CountValue))
  : list (string * CountValue) :=
  match o with
  | [] => [(key, v)]
  | (k, old) :: rest =>
      if String.eqb k key then (k, v) :: rest else (k, old) :: assign key v rest
  end.

Definition setProperty (key : string) (v : CountValue) (o : list (string * CountValue))
  : list (string * CountValue) :=
  if String.eqb key "__proto__" then o else assign key v o.

(** The key under which a record is counted, [None] when it is not
    counted: [student && student.id] must be truthy.  Turning the id into
    a property key can throw. *)
Definition countedKey (env : Env) (student : Value env) : Result (option string) :=
  if JsValue.truthy (engine env) student then
    match JsValue.property (engine env) student "id" with
    | Some id =>
        if JsValue.truthy (engine env) id then
          match JsValue.toString (engine env) id with
          | Ok key => Ok (Some key)
          | Throw error => Throw error
          end
        else Ok None
    | None => Ok None
    end
  else Ok None.

(** The body of [students.forEach]: the object after it, or what it
    throws. *)
Definition countStudent (env : Env) (counts : list (string * CountValue))
    (student : Value env) : Result (list (string * CountValue)) :=
  match countedKey env student with
  | Ok (Some key) => Ok (setProperty key (incremented key counts) counts)
  | Ok None => Ok counts
  | Throw error => Throw error
  end.

(** [students.forEach(...)]: the object when the call is over, and the
    error that ended it before the last record, if any. *)
Fixpoint forEachStudent (env : Env) (students : list (Value env))
    (counts : list (string * CountValue)) : list (string * CountValue) * option JsError :=
  match students with
  | [] => (counts, None)
  | student :: rest =>
      match countStudent env counts student with
      | Ok counts' => forEachStudent env rest counts'
      | Throw error => (counts, Some error)
      end
  end.

(** The variables of the loop of [generateReport]; [latestDate] is [None]
    for [null] and [Some d] for the [Date] object [d]. *)
Record Accumulator : Type := {
  latestFile : option string;
  latestDate : option (option Z);
  studentIdCounts : list (string * CountValue);
  totalStudents : Z;
  totalFilesWithStudents : Z
}.

Definition initialAccumulator : Accumulator :=
  {| latestFile := None;
     latestDate := None;
     studentIdCounts := [];
     totalStudents := 0;
     totalFilesWithStudents := 0 |}.

(** [!latestDate || fileDate > latestDate]: a comparison with an invalid
    date is false. *)
Definition isLater (fileDate : option Z) (latest : option (option Z)) : bool :=
  match latest with
  | None => true
  | Some latestDate =>
      match fileDate, latestDate with
      | Some a, Some b => b <? a
      | _, _ => false
      end
  end.

(** The [try] block of a turn of the loop from the line after the
    [Array.isArray] test on: the date and the name are kept first, then
    the records are counted, and the two totals are added to only when
    [forEach] has returned. *)
Definition countFile (env : Env) (acc : Accumulator) (filePath : string)
    (students : list (Value env)) : Accumulator :=
  let fileDate := parseTimestampFromFilename env filePath in
  let later := isLater fileDate (latestDate acc) in
  let '(counts, thrown) := forEachStudent env students (studentIdCounts acc) in
  {| latestFile :=
       if later then Some (Path.basename filePath EmptyString) else latestFile acc;
     latestDate := if later then Some fileDate else latestDate acc;
     studentIdCounts := counts;
     totalStudents :=
       match thrown with
       | None => totalStudents acc + Z.of_nat (List.length students)
       | Some _ => totalStudents acc
       end;
     totalFilesWithStudents :=
       match thrown with
       | None =>
           if 0 <? Z.of_nat (List.length students)
           then totalFilesWithStudents acc + 1
           else totalFilesWithStudents acc
       | Some _ => totalFilesWithStudents acc
       end |}.

(** One turn of [for (const filePath of backupFiles)]: whatever the [try]
    block throws is caught and logged. *)
Definition visitFile (env : Env) (acc : Accumulator) (filePath : string) : Accumulator :=
  match FileUtils.loadJSONIn (engine env) (cwd env) (readFile env) filePath with
  | Throw _ => acc
  | Ok students =>
      match JsValue.elements (engine env) students with
      | Some items => countFile env acc filePath items
      | None => acc
      end
  end.

(** A canonical array index: decimal digits without a leading zero, below
    2^32 - 1.  [Object.entries] lists such keys first. *)
Definition arrayIndex (key : string) : option Z :=
  match key with
  | EmptyString => None
  | String c rest =>
      if isDigit c && (negb (Ascii.eqb c "0") || isFalsy rest) then
        match Json.readNat 0 key with
        | (n, EmptyString) => if n <? 4294967295 then Some n else None
        | _ => None
        end
      else None
  end.

Section Sorting.

Context {A : Type}.
Variable compare : A -> A -> comparison.

Fixpoint insertSorted (x : A) (l : list A) : list A :=
  match l with
  | [] => [x]
  | y :: l' =>
      match compare x y with
      | Lt => x :: l
      | _ => y :: insertSorted x l'
      end
  end.

(** [array.sort(compare)]: a stable sort. *)
Definition sortBy (l : list A) : list A :=
  fold_left (fun sorted x => insertSorted x sorted) l [].

End Sorting.

(** [Object.entries(o)]: the array indices in ascending order, then the
    other keys in the order they were added. *)
Definition objectEntries (o : list (string * CountValue)) : list (string * CountValue) :=
  let indexOf (p : string * CountValue) := arrayIndex (fst p) in
  let indexed := filter (fun p => match indexOf p with Some _ => true | None => false end) o in
  let others := filter (fun p => match indexOf p with Some _ => false | None => true end) o in
  let byIndex (p q : string * CountValue) :=
    match indexOf p, indexOf q with
    | Some a, Some b => Z.compare a b
    | _, _ => Eq
    end in
  (sortBy byIndex indexed ++ others)%list.

(** [averageAmount.toFixed(2)] of [total / files], in hundredths. *)
Definition toFixed2 (total files : Z) : Z :=
  JsNumber.toFixed2 (JsNumber.divide (JsNumber.ofZ total) (JsNumber.ofZ files)).

(** The two shapes of the object [generateReport] returns.
    [averageAmountOfStudents] is the decimal fraction that [toFixed(2)]
    prints, which [parseFloat] reads as the double nearest to it. *)
Record FullReport : Type := {
  amountOfBackupFiles : Z;
  latestBackupFile : option string;
  latestBackupDatetime : option string;
  studentsGroupedById : list (string * CountValue);
  averageAmountOfStudents : Q
}.

Inductive Report : Type :=
| NoBackupFiles (amountOfBackupFiles : Z) (message : string)
| Summary (report : FullReport).

(** The loop of [generateReport]. *)
Definition aggregate (env : Env) (backupFiles : list string) : Accumulator :=
  fold_left (visitFile env) backupFiles initialAccumulator.

(** [Object.entries(studentIdCounts).map(...).sort(...)]. *)
Definition sortedEntries (env : Env) (counts : list (string * CountValue))
  : list (string * CountValue) :=
  sortBy (fun a b => localeCompare env (fst a) (fst b)) (objectEntries counts).

(** [generateReport()]. *)
Definition generateReport (env : Env) : Result Report :=
  match getBackupFiles env with
  | Throw error => Throw error
  | Ok backupFiles =>
      let amount := Z.of_nat (List.length backupFiles) in
      if amount =? 0 then Ok (NoBackupFiles 0 "No backup files found.")
      else
        let acc := aggregate env backupFiles in
        let averageHundredths :=
          if 0 <? totalFilesWithStudents acc
          then toFixed2 (totalStudents acc) (totalFilesWithStudents acc)
          else 0 in
        let studentsById := sortedEntries env (studentIdCounts acc) in
        let finish (datetime : option string) :=
          Ok (Summary {| amountOfBackupFiles := amount;
                         latestBackupFile := latestFile acc;
                         latestBackupDatetime := datetime;
                         studentsGroupedById := studentsById;
                         averageAmountOfStudents := averageHundredths # 100 |}) in
        match latestDate acc with
        | None => finish None
        | Some (Some t) => finish (Some (toISOString t))
        | Some None => Throw (RangeError "Invalid time value")
        end
  end.

End BackupReporter.

(** ** The file-name contract, in the words of the specification *)

Module NamePattern.

Import JsString JsDate.

(** [{YYYY}-{MM}-{DD}-{HH}-{mm}-{ss}] of calendar fields. *)
Definition stampOf (f : Fields) : string :=
  pad4 (year f) ++ "-" ++ pad2 (month f) ++ "-" ++ pad2 (day f) ++ "-"
  ++ pad2 (hours f) ++ "-" ++ pad2 (minutes f) ++ "-" ++ pad2 (seconds f).

(** [backup-{YYYY}-{MM}-{DD}-{HH}-{mm}-{ss}.backup.json]. *)
Definition canonicalName (f : Fields) : string :=
  "backup-" ++ stampOf f ++ ".backup.json".

(** The character [c] does not occur in [s]. *)
Fixpoint lacks (c : ascii) (s : string) : bool :=
  match s with
  | EmptyString => true
  | String a s' => negb (Ascii.eqb a c) && lacks c s'
  end.

Inductive PatternItem : Type :=
| Literal (c : ascii)
| Digit.

Fixpoint literal (s : string) : list PatternItem :=
  match s with
  | EmptyString => []
  | String c s' => Literal c :: literal s'
  end.

Fixpoint matchItems (p : list PatternItem) (s : string) : bool :=
  match p, s with
  | [], EmptyString => true
  | Literal c :: p', String a s' => Ascii.eqb a c && matchItems p' s'
  | Digit :: p', String a s' => isDigit a && matchItems p' s'
  | _, _ => false
  end.

Definition stampPattern : list PatternItem :=
  [Digit; Digit; Digit; Digit; Literal "-"; Digit; Digit; Literal "-"; Digit; Digit;
   Literal "-"; Digit; Digit; Literal "-"; Digit; Digit; Literal "-"; Digit; Digit].

(** A name of the shape [backup-dddd-dd-dd-dd-dd-dd.backup.json]. *)
Definition matchesPattern (name : string) : bool :=
  matchItems (literal "backup-" ++ stampPattern ++ literal ".backup.json")%list name.

End NamePattern.

(** ** Measures of JSON values and texts *)

Module JsonMeasure.

Import JsString Json.

(** The number of nodes of a value: enough fuel to parse its text. *)
Fixpoint size (v : value) : nat :=
  match v with
  | JArray items => S (list_sum (map size items))
  | JObject members => S (list_sum (map (fun member => size (snd member)) members))
  | _ => 1%nat
  end.

(** Only JSON white space. *)
Fixpoint allSpaces (s : string) : bool :=
  match s with
  | EmptyString => true
  | String c s' => isJsonSpace c && allSpaces s'
  end.

(** The text does not go on with a digit, a fraction or an exponent. *)
Definition endsNumber (rest : string) : bool :=
  match rest with
  | EmptyString => true
  | String c _ =>
      negb (isDigit c || Ascii.eqb c "." || Ascii.eqb c "e" || Ascii.eqb c "E")
  end.

(** The characters a JSON text can begin with. *)
Definition startsValue (c : ascii) : bool :=
  isDigit c || Ascii.eqb c "-" || Ascii.eqb c "n" || Ascii.eqb c "t" || Ascii.eqb c "f"
  || Ascii.eqb c quoteChar || Ascii.eqb c "[" || Ascii.eqb c "{".

(** A parser that skips leading white space. *)
Definition skipsSpaces (parseItem : string -> option (value * string)) : Prop :=
  forall w s, allSpaces w = true -> parseItem (w ++ s) = parseItem s.

End JsonMeasure.

(** ** What the report is about, in the words of the specification *)

Module ReportSpec.

Import BackupReporter.

(** The array a file loads as, if it loads and is one. *)
Definition loadedArray (env : Env) (filePath : string) : option (list (Value env)) :=
  match FileUtils.loadJSONIn (engine env) (cwd env) (readFile env) filePath with
  | Ok v => JsValue.elements (engine env) v
  | Throw _ => None
  end.

(** The key a record is counted under; [None] for a record that is not
    counted, be it that the test [student && student.id] fails or that
    its id cannot be turned into a property key. *)
Definition keyOf (env : Env) (record : Value env) : option string :=
  match countedKey env record with
  | Ok key => key
  | Throw _ => None
  end.

(** Whether the id of a record cannot be turned into a property key. *)
Definition throwsAt (env : Env) (record : Value env) : bool :=
  match countedKey env record with
  | Ok _ => false
  | Throw _ => true
  end.

(** The records of an array that [forEach] comes to: those before the
    first one whose id cannot be turned into a property key. *)
Fixpoint visited (env : Env) (students : list (Value env)) : list (Value env) :=
  match students with
  | [] => []
  | student :: rest => if throwsAt env student then [] else student :: visited env rest
  end.

(** Whether [forEach] comes to the end of the array. *)
Definition readThrough (env : Env) (students : list (Value env)) : bool :=
  forallb (fun student => negb (throwsAt env student)) students.

(** The snapshots that survive: the arrays of the files that load as an
    array and are read to the end. *)
Definition survivingSnapshots (env : Env) (backupFiles : list string)
  : list (list (Value env)) :=
  flat_map
    (fun filePath =>
       match loadedArray env filePath with
       | Some students => if readThrough env students then [students] else []
       | None => []
       end)
    backupFiles.

(** The records of all surviving snapshots. *)
Definition survivingRecords (env : Env) (backupFiles : list string) : list (Value env) :=
  List.concat (survivingSnapshots env backupFiles).

(** The records the loop comes to: of every file that loads as an array,
    those that [forEach] comes to. *)
Definition countedRecords (env : Env) (backupFiles : list string) : list (Value env) :=
  flat_map
    (fun filePath =>
       match loadedArray env filePath with
       | Some students => visited env students
       | None => []
       end)
    backupFiles.

(** The object after a record the loop comes to was counted. *)
Definition countRecord (env : Env) (counts : list (string * CountValue))
    (record : Value env) : list (string * CountValue) :=
  match keyOf env record with
  | Some key => setProperty key (incremented key counts) counts
  | None => counts
  end.

(** How many records carry the key. *)
Definition occurrences (env : Env) (key : string) (records : list (Value env)) : Z :=
  Z.of_nat
    (List.length
       (filter (fun record =>
                  match keyOf env record with
                  | Some k => String.eqb k key
                  | None => false
                  end) records)).

(** How many snapshots hold at least one record. *)
Definition populated {A : Type} (snapshots : list (list A)) : Z :=
  Z.of_nat
    (List.length (filter (fun snapshot => 0 <? Z.of_nat (List.length snapshot)) snapshots)).

(** The first file that loads as an array, if any. *)
Fixpoint firstSurvivor (env : Env) (backupFiles : list string) : option string :=
  match backupFiles with
  | [] => None
  | filePath :: rest =>
      match loadedArray env filePath with
      | Some _ => Some filePath
      | None => firstSurvivor env rest
      end
  end.

(** The ids seen in the records: the values of their [id] members. *)
Definition idsSeen (env : Env) (records : list (Value env)) : list (Value env) :=
  flat_map (fun record => match JsValue.property (engine env) record "id" with
                          | Some id => [id]
                          | None => []
                          end) records.

(** Ascending in the collation: no neighbour is greater than the next. *)
Definition ascending (compare : string -> string -> comparison)
    (entries : list (string * CountValue)) : Prop :=
  Sorted (fun a b => compare (fst a) (fst b) <> Gt) entries.

(** The value a count [n] has in the object: absent when [n] is 0. *)
Definition counted (n : Z) : option CountValue :=
  if n =? 0 then None else Some (CountNumber n).

End ReportSpec.

(** ** States, traces and environments of the properties *)

Module Scenario.

Import BackupManager.

(** The states a manager can be in: those a fresh manager reaches. *)
Definition reachable (s : State) : Prop :=
  exists intervalMs d events, s = run (create intervalMs d) events.


(** The world of the examples: 2025-01-02T03:04:05.678Z, one student. *)
Definition exampleWorld : World :=
  {| now := 1735787045678;
     getStudentsCallback :=
       Ok (Json.JArray [Json.JObject [("id", Json.JString "1")]]);
     cwd := "/srv";
     writtenBeforeFailure := None |}.

(** The same world with a file system that fails a write after the first
    ten code units. *)
Definition fullDiskWorld : World :=
  {| now := 1735787045678;
     getStudentsCallback :=
       Ok (Json.JArray [Json.JObject [("id", Json.JString "1")]]);
     cwd := "/srv";
     writtenBeforeFailure := Some 10%nat |}.

(** The only live timer is the one [#intervalId] holds. *)
Definition coherent (s : State) : Prop :=
  timers s = match intervalId s with Some h => [h] | None => [] end.

(** A fresh manager with the default interval. *)
Definition fresh : State := create defaultIntervalMs FileUtils.emptyDisk.


(** A manager that was started and stopped while its first operation is
    still suspended. *)
Definition stoppedEarly : State := run fresh [CallStart; CallStop].


(** A started manager whose first operation is suspended at its write. *)
Definition writing : State :=
  run (create defaultIntervalMs FileUtils.emptyDisk)
      [CallStart; Settles 0 (Ok tt) exampleWorld].

(** A reporter environment: working directory [/srv], one hour east of
    UTC, an engine without date heuristics and with the values of the
    model, the collation of code units (which is the collation of
    [localeCompare] on strings of decimal digits, and on all strings in an
    engine built without internationalization), a backup directory that
    lists [names], and the disk [files]. *)
Definition reporterEnv (names : list string) (files : FileUtils.FileSystem)
  : BackupReporter.Env :=
  {| BackupReporter.cwd := "/srv";
     BackupReporter.tzOffset := 3600000;
     BackupReporter.legacyDateParse := JsDate.strictEngine;
     BackupReporter.localeCompare := String.compare;
     BackupReporter.readdir :=
       fun p => if String.eqb p "/srv/backups" then Ok names
                else Throw (SystemError "ENOENT");
     BackupReporter.readFile := FileUtils.readFile files;
     BackupReporter.engine := Json.engine |}.

(** The snapshot text of records that only have an [id]. *)
Definition snapshotOfIds (ids : list Z) : string :=
  Json.stringify
    (Json.JArray (map (fun i => Json.JObject [("id", Json.JNumber i)]) ids)).

(** A backup directory that does not exist. *)
Definition missingDirectoryEnv : BackupReporter.Env :=
  {| BackupReporter.cwd := "/srv";
     BackupReporter.tzOffset := 3600000;
     BackupReporter.legacyDateParse := JsDate.strictEngine;
     BackupReporter.localeCompare := String.compare;
     BackupReporter.readdir := fun _ => Throw (SystemError "ENOENT");
     BackupReporter.readFile := FileUtils.readFile FileUtils.emptyDisk;
     BackupReporter.engine := Json.engine |}.

(** Two snapshots with the ids [1,2,2,3] and [2,3,3], under names with a
    [T] and colons, which are in the Date Time String Format. *)
Definition twoSnapshotsEnv : BackupReporter.Env :=
  reporterEnv
    ["backup-2025-01-02T03:04:05.backup.json"; "backup-2025-01-02T03:04:35.backup.json"]
    (FileUtils.writeFile
       (FileUtils.writeFile FileUtils.emptyDisk
          "/srv/backups/backup-2025-01-02T03:04:05.backup.json" (snapshotOfIds [1; 2; 2; 3]))
       "/srv/backups/backup-2025-01-02T03:04:35.backup.json" (snapshotOfIds [2; 3; 3])).

(** One snapshot with the ids [0, 10, 2]. *)
Definition zeroAndTenEnv : BackupReporter.Env :=
  reporterEnv
    ["backup-2025-01-02T03:04:05.backup.json"]
    (FileUtils.writeFile FileUtils.emptyDisk
       "/srv/backups/backup-2025-01-02T03:04:05.backup.json" (snapshotOfIds [0; 10; 2])).

(** Two files under names the manager generates: a snapshot of two records
    and a file that is not JSON. *)
Definition oneCorruptEnv : BackupReporter.Env :=
  reporterEnv
    ["backup-2025-01-02-03-04-05.backup.json"; "backup-2025-01-02-03-04-35.backup.json"]
    (FileUtils.writeFile
       (FileUtils.writeFile FileUtils.emptyDisk
          "/srv/backups/backup-2025-01-02-03-04-05.backup.json" (snapshotOfIds [1; 2]))
       "/srv/backups/backup-2025-01-02-03-04-35.backup.json" "{ not json").

(** A student record, as [new Student(id, name, age, group)] is written. *)
Definition student (id name : string) (age group : Z) : Json.value :=
  Json.JObject
    [("id", Json.JString id); ("name", Json.JString name);
     ("age", Json.JNumber age); ("group", Json.JNumber group)].

(** A collection of five records. *)
Definition fiveStudents : list Json.value :=
  [student "1" "Ann" 20 1; student "2" "Bob" 21 1; student "3" "Cid" 19 2;
   student "4" "Dee" 22 2; student "5" "Eve" 23 3].

(** The world in which the accessor returns the five records. *)
Definition fiveWorld : World :=
  {| now := 1735787045678;
     getStudentsCallback := Ok (Json.JArray fiveStudents);
     cwd := "/srv";
     writtenBeforeFailure := None |}.

(** A started manager whose first operation waits for [fs.access]. *)
Definition started : State :=
  run (create defaultIntervalMs FileUtils.emptyDisk) [CallStart].

End Scenario.

(** ** What a manager leaves on the disk *)

Module ManagerShape.

Import BackupManager.

(** The name, the path and the text of the snapshot an operation takes
    when it resumes in the world [w]. *)
Definition snapshotOf (w : World) (backupFileName path json : string) : Prop :=
  exists students,
    getStudentsCallback w = Ok (Json.JArray students)
    /\ backupFileName = generateBackupFileName (now w)
    /\ path = FileUtils.resolve (cwd w) (Path.join backupDirectory backupFileName)
    /\ json = Json.stringify (Json.JArray students).


(** The worlds in which the operations of a trace resumed. *)
Definition worldsOf (events : list Event) : list World :=
  flat_map (fun e => match e with Settles _ _ w => [w] | _ => [] end) events.

(** An initial part of a text: what a write has put into its file when it
    is cut short, the whole text included. *)
Definition initialPart (text part : string) : Prop :=
  exists n, part = substring 0 n text.

(** What one may find at [path] in the state [s]: the content the settled
    calls left there or, while a write to that path is under way, an
    initial part of its text. *)
Definition mayHold (s : State) (path : string) (content : option string) : Prop :=
  content = disk s path
  \/ exists id backupFileName json part,
       In (id, AwaitWrite backupFileName path json) (operations s)
       /\ initialPart json part /\ content = Some part.

(** Every suspended write of the state is a snapshot taken in one of the
    worlds. *)
Definition writesSnapshots (worlds : list World) (s : State) : Prop :=
  forall id backupFileName path json,
    In (id, AwaitWrite backupFileName path json) (operations s) ->
    exists w, In w worlds /\ snapshotOf w backupFileName path json.

(** Every file that differs from the disk [d] lies where a snapshot taken
    in one of the worlds goes, and holds an initial part of its text. *)
Definition holdsSnapshots (worlds : list World) (d : FileUtils.FileSystem) (s : State) : Prop :=
  forall path,
    disk s path = d path
    \/ exists w backupFileName json part,
         In w worlds /\ snapshotOf w backupFileName path json
         /\ initialPart json part /\ disk s path = Some part.

Definition keepsSnapshots (worlds : list World) (d : FileUtils.FileSystem) (s : State) : Prop :=
  writesSnapshots worlds s /\ holdsSnapshots worlds d s.


(** No two suspended writes of the state go to the same file. *)
Definition oneWriterPerFile (s : State) : Prop :=
  forall id id' backupFileName backupFileName' path json json',
    In (id, AwaitWrite backupFileName path json) (operations s) ->
    In (id', AwaitWrite backupFileName' path json') (operations s) ->
    id = id'.

(** Along the trace that starts in [s], no two writes to one file are
    ever under way at once. *)
Definition writesInTurn (s : State) (events : list Event) : Prop :=
  forall n, oneWriterPerFile (run s (firstn n events)).


Definition isStarted (n : Notification) : bool :=
  match n with BackupStarted _ => true | _ => false end.

(** The notifications after which the manager does not run: [backup:stopped]
    and [backup:timeout]. *)
Definition isHalted (n : Notification) : bool :=
  match n with BackupStopped | BackupTimeout _ => true | _ => false end.

Definition isCompleted (n : Notification) : bool :=
  match n with BackupCompleted _ => true | _ => false end.

Definition isFailed (n : Notification) : bool :=
  match n with BackupFailed _ _ => true | _ => false end.

Definition isError (n : Notification) : bool :=
  match n with BackupError _ => true | _ => false end.

(** How many of the notifications emitted so far satisfy [p]. *)
Definition emittedCount (p : Notification -> bool) (s : State) : nat :=
  List.length (filter p (emitted s)).

(** The books of a manager: the notifications tell whether it runs, every
    operation entered is either suspended or has reported its end once,
    every failure was followed by its [backup:error], and the suspended
    operations are told apart by their numbers. *)
Definition accountsBalance (s : State) : Prop :=
  emittedCount isStarted s
  = (emittedCount isHalted s + if isRunning s then 1 else 0)%nat
  /\ nextOperation s
     = (List.length (operations s) + emittedCount isCompleted s + emittedCount isFailed s)%nat
  /\ emittedCount isError s = emittedCount isFailed s
  /\ NoDup (map fst (operations s))
  /\ (forall id, In id (map fst (operations s)) -> (id < nextOperation s)%nat).

(** The bounds of the overlap counter. *)
Definition counterInBounds (s : State) : Prop :=
  0 <= pendingIntervalsCount s <= 3
  /\ (pendingIntervalsCount s = 3 -> intervalId s = None /\ isBackupInProgress s = false)
  /\ (isBackupInProgress s = true -> operations s <> []).

End ManagerShape.

(** ** student.js *)

Module Students.

Import JsString Json.

(** An instance of [class Student]: the four properties the constructor
    assigns, each a JSON value or [undefined] ([None]). *)
Record Student : Type := {
  id : option value;
  name : option value;
  age : option value;
  group : option value
}.

(** What a call throws: an error object of the kinds above, or the
    [TypeError] of a property read on [null]. *)
Inductive Thrown : Type :=
| OfError (e : JsError)
| TypeError.

(** A call returns or throws (an [async] call: resolves or rejects). *)
Inductive Outcome (A : Type) : Type :=
| Returned (a : A)
| Raised (t : Thrown).

Arguments Returned {A} a.
Arguments Raised {A} t.

(** The events of [studentEvents], one constructor per event name, with
    the arguments as they are at the time of the call. *)
Inductive StudentEvent : Type :=
| StudentsLoaded (students : list Student)
| StudentsLoadError (error : Thrown)
| StudentsSaved (students : list Student)
| StudentsSaveError (error : JsError)
| StudentAdded (student : Student)
| StudentRemoved (student : option Student)
| StudentRemoveNotFound (id : string)
| StudentRetrieved (student : option Student) (id : string)
| StudentsFiltered (students : list Student) (group : Z)
| StudentsRetrieved (students : list Student)
| StudentUpdated (student : option Student)
| StudentUpdateNotFound (id : string)
| StudentsReplaced (students : list Student).

(** The variables of the module, [students] and [backupManager], followed
    by the events emitted so far and the part of the disk the module
    writes, the file [students.json]; the manager keeps the disk it acts
    on, the backup directory, in its own state.  An [async] function is
    given the way its one awaited call settles and runs to its end: a
    call is made when the calls before it have settled, the call of
    [loadStudents()] in the last line of the module included. *)
Record Store : Type := {
  students : list Student;
  backupManager : option BackupManager.State;
  events : list StudentEvent;
  disk : FileUtils.FileSystem
}.

Definition STUDENTS_FILE_PATH : string := "students.json".

(** The variables as the module declares them, in a process whose disk is
    [d]: no students and no manager.  This is the store the call of
    [loadStudents()] in the last line of the module starts from; see
    [loaded] for the store it leaves. *)
Definition initial (d : FileUtils.FileSystem) : Store :=
  {| students := []; backupManager := None; events := []; disk := d |}.

Definition emitEvent (e : StudentEvent) (st : Store) : Store :=
  {| students := students st;
     backupManager := backupManager st;
     events := (events st ++ [e])%list;
     disk := disk st |}.

Definition setStudents (l : list Student) (st : Store) : Store :=
  {| students := l;
     backupManager := backupManager st;
     events := events st;
     disk := disk st |}.

Definition setBackupManager (m : option BackupManager.State) (st : Store) : Store :=
  {| students := students st;
     backupManager := m;
     events := events st;
     disk := disk st |}.

Definition setStoreDisk (d : FileUtils.FileSystem) (st : Store) : Store :=
  {| students := students st;
     backupManager := backupManager st;
     events := events st;
     disk := d |}.

(** [new Student(s.id, s.name, s.age, s.group)] for a parsed value [s]:
    reading a property of [null] throws, a value without the property
    gives [undefined]. *)
Definition newStudent (s : value) : option Student :=
  match s with
  | JNull => None
  | _ =>
      Some {| id := getProperty s "id";
              name := getProperty s "name";
              age := getProperty s "age";
              group := getProperty s "group" |}
  end.

(** [items.map((s) => new Student(...))]; [None] when a call throws. *)
Fixpoint newStudents (items : list value) : option (list Student) :=
  match items with
  | [] => Some []
  | s :: rest =>
      match newStudent s with
      | None => None
      | Some student =>
          match newStudents rest with
          | None => None
          | Some l => Some (student :: l)
          end
      end
  end.

(** The members [JSON.stringify] writes for a property: none for
    [undefined]. *)
Definition present (key : string) (v : option value) : list (string * value) :=
  match v with
  | Some x => [(key, x)]
  | None => []
  end.

(** A [Student] as [JSON.stringify] sees it: its own properties in the
    order of their creation. *)
Definition studentToJson (s : Student) : value :=
  JObject (present "id" (id s) ++ present "name" (name s)
           ++ present "age" (age s) ++ present "group" (group s))%list.

(** The array [students] as [JSON.stringify] sees it. *)
Definition studentsToJson (l : list Student) : value := JArray (map studentToJson l).

(** [loadStudents()], given what [fs.readFile] answers. *)
Definition loadStudents (cwd : string) (read : string -> Result string) (st : Store)
  : Store * Outcome unit :=
  match FileUtils.loadJSON cwd read STUDENTS_FILE_PATH with
  | Ok (JArray items) =>
      match newStudents items with
      | Some l => (emitEvent (StudentsLoaded l) (setStudents l st), Returned tt)
      | None => (emitEvent (StudentsLoadError TypeError) st, Raised TypeError)
      end
  | Ok _ => (emitEvent (StudentsLoaded []) (setStudents [] st), Returned tt)
  | Throw error =>
      if isENOENT error
      then (emitEvent (StudentsLoaded []) (setStudents [] st), Returned tt)
      else (emitEvent (StudentsLoadError (OfError error)) st, Raised (OfError error))
  end.

(** The module once the call of [loadStudents()] in its last line has
    settled. *)
Definition loaded (cwd : string) (d : FileUtils.FileSystem) : Store :=
  fst (loadStudents cwd (FileUtils.readFile d) (initial d)).

(** [saveStudents()], given how [fs.writeFile] settles. *)
Definition saveStudents (cwd : string) (written : FileUtils.WriteOutcome) (st : Store)
  : Store * Outcome unit :=
  let '(absolutePath, json) :=
    FileUtils.saveToJSON cwd (studentsToJson (students st)) STUDENTS_FILE_PATH in
  match written with
  | FileUtils.Written =>
      (emitEvent (StudentsSaved (students st))
         (setStoreDisk (FileUtils.writeFile (disk st) absolutePath json) st),
       Returned tt)
  | FileUtils.WriteFailed error progress =>
      (emitEvent (StudentsSaveError error)
         (setStoreDisk (FileUtils.interruptWrite (disk st) absolutePath json progress) st),
       Raised (OfError error))
  end.

(** [addStudent(name, age, group)]. *)
Definition addStudent (cwd : string) (written : FileUtils.WriteOutcome)
    (name age group : option value) (st : Store) : Store * Outcome Student :=
  let id := numberToString (Z.of_nat (List.length (students st)) + 1) in
  let student := {| id := Some (JString id); name := name; age := age; group := group |} in
  let st1 := setStudents (students st ++ [student]) st in
  match saveStudents cwd written st1 with
  | (st2, Returned _) => (emitEvent (StudentAdded student) st2, Returned student)
  | (st2, Raised t) => (st2, Raised t)
  end.

(** [s.id === id] for a string [id]. *)
Definition hasId (id : string) (s : Student) : bool :=
  match Students.id s with
  | Some (JString x) => String.eqb x id
  | _ => false
  end.

(** [s.group === group] for a number [group]. *)
Definition inGroup (group : Z) (s : Student) : bool :=
  match Students.group s with
  | Some (JNumber n) => n =? group
  | _ => false
  end.

(** [array.findIndex(p)]; [None] is -1. *)
Fixpoint findIndex {A : Type} (p : A -> bool) (l : list A) : option nat :=
  match l with
  | [] => None
  | x :: rest => if p x then Some O else option_map S (findIndex p rest)
  end.

(** [removeStudent(id)] for a string [id]; the result [None] is [null]
    (or the [undefined] of an empty [splice]). *)
Definition removeStudent (cwd : string) (written : FileUtils.WriteOutcome) (id : string) (st : Store)
  : Store * Outcome (option Student) :=
  match findIndex (hasId id) (students st) with
  | Some index =>
      let removed := nth_error (students st) index in
      let st1 :=
        setStudents (firstn index (students st) ++ skipn (S index) (students st)) st in
      match saveStudents cwd written st1 with
      | (st2, Returned _) => (emitEvent (StudentRemoved removed) st2, Returned removed)
      | (st2, Raised t) => (st2, Raised t)
      end
  | None => (emitEvent (StudentRemoveNotFound id) st, Returned None)
  end.

(** [getStudentById(id)] for a string [id]; [None] is [undefined]. *)
Definition getStudentById (id : string) (st : Store) : Store * option Student :=
  let student := find (hasId id) (students st) in
  (emitEvent (StudentRetrieved student id) st, student).

(** [getStudentsByGroup(group)] for a number [group]. *)
Definition getStudentsByGroup (group : Z) (st : Store) : Store * list Student :=
  let filteredStudents := filter (inGroup group) (students st) in
  (emitEvent (StudentsFiltered filteredStudents group) st, filteredStudents).

(** [getAllStudents()]. *)
Definition getAllStudents (st : Store) : Store * list Student :=
  (emitEvent (StudentsRetrieved (students st)) st, students st).

(** [startBackupManager(intervalMs)]; [None] is a missing argument. *)
Definition startBackupManager (intervalMs : option Z) (st : Store)
  : Store * BackupManager.State :=
  match backupManager st with
  | None =>
      let interval := match intervalMs with Some ms => ms | None => 30000 end in
      let manager := BackupManager.start (BackupManager.create interval (disk st)) in
      (setBackupManager (Some manager) st, manager)
  | Some manager => (st, manager)
  end.

(** [getBackupManager()]. *)
Definition getBackupManager (st : Store) : option BackupManager.State := backupManager st.

(** [stopBackupManager()]. *)
Definition stopBackupManager (st : Store) : Store :=
  match backupManager st with
  | Some manager => setBackupManager (Some (BackupManager.stop manager)) st
  | None => st
  end.

(** The student at [index] after the three assignments of
    [updateStudent]. *)
Fixpoint updateAt (index : nat) (name age group : option value) (l : list Student)
  : list Student :=
  match l, index with
  | [], _ => []
  | s :: rest, O =>
      {| id := id s; name := name; age := age; group := group |} :: rest
  | s :: rest, S index' => s :: updateAt index' name age group rest
  end.

(** [updateStudent(id, name, age, group)] for a string [id]. *)
Definition updateStudent (cwd : string) (written : FileUtils.WriteOutcome) (id : string)
    (name age group : option value) (st : Store) : Store * Outcome (option Student) :=
  match findIndex (hasId id) (students st) with
  | Some index =>
      let st1 := setStudents (updateAt index name age group (students st)) st in
      let student := nth_error (students st1) index in
      match saveStudents cwd written st1 with
      | (st2, Returned _) => (emitEvent (StudentUpdated student) st2, Returned student)
      | (st2, Raised t) => (st2, Raised t)
      end
  | None => (emitEvent (StudentUpdateNotFound id) st, Returned None)
  end.

Definition isTruthy (v : option value) : bool :=
  match v with
  | Some x => Json.truthy x
  | None => false
  end.

Definition isUndefined (v : option value) : bool :=
  match v with
  | Some _ => false
  | None => true
  end.

Definition notAnArray : JsError := PlainError "Students must be an array".

Definition missingFields : JsError :=
  PlainError "All students must have id, name, age, and group".

(** The loop that validates the elements of [newStudents]: what it throws,
    if anything. *)
Fixpoint validateStudents (items : list value) : option Thrown :=
  match items with
  | [] => None
  | student :: rest =>
      match student with
      | JNull => Some TypeError
      | _ =>
          if negb (isTruthy (getProperty student "id"))
             || negb (isTruthy (getProperty student "name"))
             || isUndefined (getProperty student "age")
             || isUndefined (getProperty student "group")
          then Some (OfError missingFields)
          else validateStudents rest
      end
  end.

(** [replaceAllStudents(newStudents)]; [None] is [undefined]. *)
Definition replaceAllStudents (cwd : string) (written : FileUtils.WriteOutcome)
    (newStudentsValue : option value) (st : Store) : Store * Outcome (list Student) :=
  match newStudentsValue with
  | Some (JArray items) =>
      match validateStudents items with
      | Some t => (st, Raised t)
      | None =>
          match newStudents items with
          | None => (st, Raised TypeError)
          | Some l =>
              let st1 := setStudents l st in
              match saveStudents cwd written st1 with
              | (st2, Returned _) => (emitEvent (StudentsReplaced l) st2, Returned l)
              | (st2, Raised t) => (st2, Raised t)
              end
          end
      end
  | _ => (st, Raised (OfError notAnArray))
  end.

(** What the manager of the module finds when one of its operations goes
    on at the time [now]: its accessor is [getAllStudents].  (No write
    fails in this world.) *)
Definition worldOf (now : Z) (cwd : string) (st : Store) : BackupManager.World :=
  {| BackupManager.now := now;
     BackupManager.getStudentsCallback := Ok (studentsToJson (snd (getAllStudents st)));
     BackupManager.cwd := cwd;
     BackupManager.writtenBeforeFailure := None |}.

(** A student with the fields [replaceAllStudents] asks for: a truthy id
    and name, and an age and a group that are not [undefined]. *)
Definition complete (s : Student) : Prop :=
  isTruthy (id s) = true /\ isTruthy (name s) = true
  /\ age s <> None /\ group s <> None.

(** The store after the students of [entries] (name, age and group of
    each) were added in turn, every write succeeding. *)
Definition addAll (cwd : string) (entries : list (option value * option value * option value))
    (st : Store) : Store :=
  fold_left
    (fun store entry =>
       let '(name, age, group) := entry in
       fst (addStudent cwd FileUtils.Written name age group store))
    entries st.

(** The ids ["1"], ..., ["n"]. *)
Definition idsUpTo (n : nat) : list (option value) :=
  map (fun k => Some (JString (numberToString (Z.of_nat k)))) (seq 1 n).

End Students.

(** ** The backup routes of index.js *)

Module BackupRoutes.

Import JsString Json Students.

(** The body of an answer: a JSON value or, from the [catch] clause of a
    handler, the object with [success: false] and the message of the
    error that was caught. *)
Inductive Body : Type :=
| JsonBody (v : value)
| FailureBody (error : JsError).

(** [res.status(code).json(body)]. *)
Record Response : Type := {
  status : Z;
  body : Body
}.

Definition intervalError : string := "Interval must be a number >= 1 (in seconds)".

Definition badInterval : Response :=
  {| status := 400;
     body := JsonBody (JObject [("success", JBool false); ("error", JString intervalError)]) |}.

(** The answer of the [catch] clause. *)
Definition serverError (error : JsError) : Response :=
  {| status := 500; body := FailureBody error |}.

Definition managerIsRunning (st : Store) : bool :=
  match getBackupManager st with
  | Some manager => BackupManager.isRunning manager
  | None => false
  end.

(** The handler of [POST /api/backup/start] once [intervalMs] has passed
    the validation. *)
Definition startOrReport (intervalMs : Z) (st : Store) : Store * Response :=
  if managerIsRunning st then
    (st, {| status := 200;
            body := JsonBody
                      (JObject [("success", JBool true);
                                ("message", JString "Backup manager is already running");
                                ("status", JString "running")]) |})
  else
    let '(st1, _) := startBackupManager (Some intervalMs) st in
    (st1, {| status := 200;
             body := JsonBody
                       (JObject [("success", JBool true);
                                 ("message", JString "Backup manager started");
                                 ("status", JString "running");
                                 ("interval", JNumber (intervalMs / 1000))]) |}).

(** The greatest number of seconds whose milliseconds a double holds
    exactly: up to it [parseInt(interval) * 1000] and [intervalMs / 1000]
    are the exact product and quotient. *)
Definition maxSeconds : Z := 9007199254740.

(** The handler of [POST /api/backup/start], given what
    [const { interval } = req.body] gives: it throws when [req.body] is
    [undefined] or [null], and else [interval] is a value of the engine or
    [undefined] ([None]).  Then [interval ? parseInt(interval) * 1000 :
    30000], where [parseInt] first turns its argument into a string, which
    can throw; the answer is 400 when [interval] is truthy and the product
    is NaN or below 1000, and 500 with the message of the error when
    something was thrown.  The result is [None] when [parseInt] gives more
    than [maxSeconds], where the model has no exact numbers. *)
Definition postBackupStart (engine : JsValue.Engine)
    (destructured : Result (option (JsValue.Value engine))) (st : Store)
  : option (Store * Response) :=
  match destructured with
  | Throw error => Some (st, serverError error)
  | Ok None => Some (startOrReport 30000 st)
  | Ok (Some interval) =>
      if JsValue.truthy engine interval then
        match JsValue.toString engine interval with
        | Throw error => Some (st, serverError error)
        | Ok text =>
            match parseInt text with
            | None => Some (st, badInterval)
            | Some seconds =>
                let intervalMs := seconds * 1000 in
                if intervalMs <? 1000 then Some (st, badInterval)
                else if seconds <=? maxSeconds then Some (startOrReport intervalMs st)
                else None
            end
        end
      else Some (startOrReport 30000 st)
  end.

(** The handler of [POST /api/backup/stop]; nothing in its [try] block
    throws. *)
Definition postBackupStop (st : Store) : Store * Response :=
  if negb (managerIsRunning st) then
    (st, {| status := 200;
            body := JsonBody
                      (JObject [("success", JBool true);
                                ("message", JString "Backup manager is not running");
                                ("status", JString "stopped")]) |})
  else
    (stopBackupManager st,
     {| status := 200;
        body := JsonBody
                  (JObject [("success", JBool true);
                            ("message", JString "Backup manager stopped");
                            ("status", JString "stopped")]) |}).

(** The handler of [GET /api/backup/status]; nothing in its [try] block
    throws. *)
Definition getBackupStatus (st : Store) : Response :=
  {| status := 200;
     body := JsonBody
               (JObject [("success", JBool true);
                         ("status",
                          JString (if managerIsRunning st then "running" else "stopped"))]) |}.

End BackupRoutes.

(** ** The loop of the reporter, seen from outside *)

Module ReportShape.

Import BackupReporter ReportSpec.

(** The files that load as an array, in the order of the listing. *)
Definition survivingFiles (env : Env) (backupFiles : list string) : list string :=
  filter (fun filePath =>
            match loadedArray env filePath with
            | Some _ => true
            | None => false
            end) backupFiles.

(** [n] times the character [1]. *)
Fixpoint ones (n : nat) : string :=
  match n with
  | O => EmptyString
  | S n' => ones n' ++ "1"
  end.

(** [String(Object.prototype[key])] for the name of an inherited
    function. *)
Definition nativeFunctionText (key : string) : string :=
  "function " ++ (if String.eqb key "constructor" then "Object" else key)
  ++ "() { [native code] }".

(** The amount listed for the name of an inherited function that [n]
    records carry as their id: nothing for 0, and else the text of the
    function followed by [n] times [1]. *)
Definition inheritedAmount (key : string) (n : Z) : option CountValue :=
  if n =? 0 then None
  else Some (CountString (nativeFunctionText key ++ ones (Z.to_nat n))).

(** The stamp of a file name: what is left of the base name without
    [.backup.json] and without the first [backup-]. *)
Definition timestampStr (filename : string) : string :=
  JsString.replaceFirst "backup-" EmptyString (Path.basename filename ".backup.json").

(** The file [f], dated [t], leads the files around it: every dated file
    before it is older, and no file after it is younger. *)
Definition leads (env : Env) (before : list string) (f : string) (t : Z)
    (after : list string) : Prop :=
  parseTimestampFromFilename env f = Some t
  /\ (forall g tg, In g before -> parseTimestampFromFilename env g = Some tg -> tg < t)
  /\ (forall g tg, In g after -> parseTimestampFromFilename env g = Some tg -> tg <= t).

(** A collation: comparing the other way round gives the opposite, and
    not coming after is transitive.  Two different strings may compare
    equal. *)
Definition collates (compare : string -> string -> comparison) : Prop :=
  (forall a b, compare b a = CompOpp (compare a b))
  /\ (forall a b c, compare a b <> Gt -> compare b c <> Gt -> compare a c <> Gt).

(** The collation tells the keys apart: no two different ones compare
    equal. *)
Definition tellsApart (compare : string -> string -> comparison) (keys : list string)
  : Prop :=
  forall a b, In a keys -> In b keys -> compare a b = Eq -> a = b.

End ReportShape.

(** ** Stores, worlds and environments of the further properties *)

Module Examples.

Import Json Students BackupRoutes.

(** A world in which the accessor returns an object, not an array. *)
Definition objectWorld : BackupManager.World :=
  {| BackupManager.now := 1735787045678;
     BackupManager.getStudentsCallback := Ok (JObject [("students", JArray [])]);
     BackupManager.cwd := "/srv";
     BackupManager.writtenBeforeFailure := None |}.

(** One snapshot whose records carry the ids [constructor] (twice),
    [__proto__] and [7]. *)
Definition prototypeIdsEnv : BackupReporter.Env :=
  Scenario.reporterEnv
    ["backup-2025-01-02T03:04:05.backup.json"]
    (FileUtils.writeFile FileUtils.emptyDisk
       "/srv/backups/backup-2025-01-02T03:04:05.backup.json"
       (stringify
          (JArray [JObject [("id", JString "constructor")];
                   JObject [("id", JString "constructor")];
                   JObject [("id", JString "__proto__")];
                   JObject [("id", JString "7")]]))).

(** A backup directory with two matching names, a text that is not JSON
    and an object. *)
Definition unreadableEnv : BackupReporter.Env :=
  Scenario.reporterEnv
    ["a.backup.json"; "b.backup.json"; "notes.txt"]
    (FileUtils.writeFile
       (FileUtils.writeFile FileUtils.emptyDisk "/srv/backups/a.backup.json" "{ not json")
       "/srv/backups/b.backup.json" "{}").

(** The listing of [Scenario.twoSnapshotsEnv] the other way round. *)
Definition twoSnapshotsReversed : list string :=
  ["/srv/backups/backup-2025-01-02T03:04:35.backup.json";
   "/srv/backups/backup-2025-01-02T03:04:05.backup.json"].

Definition entry (name : string) (age group : Z)
  : option value * option value * option value :=
  (Some (JString name), Some (JNumber age), Some (JNumber group)).

(** A module loaded on an empty disk, to which three students were then
    added. *)
Definition threeAdded : Store :=
  addAll "/srv" [entry "Ann" 20 1; entry "Bob" 21 1; entry "Cid" 19 2]
         (loaded "/srv" FileUtils.emptyDisk).

(** The same store after the student with the id [1] was removed. *)
Definition afterRemoval : Store :=
  fst (removeStudent "/srv" FileUtils.Written "1" threeAdded).

(** A module whose manager was started, with the default interval, and
    stopped through the routes. *)
Definition stoppedStore : Store :=
  fst (postBackupStop (fst (startOrReport 30000 (loaded "/srv" FileUtils.emptyDisk)))).

End Examples.

(** * Properties *)

(** ** Strings, dates and file names *)

Module NameFacts.

Import JsString JsDate NamePattern.

Lemma append_assoc : forall a b c : string, ((a ++ b) ++ c)%string = (a ++ (b ++ c))%string.
Proof. induction a as [|x a IH]; intros b c; simpl; [reflexivity|now rewrite IH]. Qed.

Lemma append_empty_r : forall a : string, (a ++ EmptyString)%string = a.
Proof. induction a as [|x a IH]; simpl; [reflexivity|now rewrite IH]. Qed.

Lemma length_append : forall a b : string,
  String.length (a ++ b) = (String.length a + String.length b)%nat.
Proof. induction a as [|x a IH]; intros b; simpl; [reflexivity|now rewrite IH]. Qed.

Lemma isDigit_digitChar : forall d, isDigit (digitChar d) = true.
Proof.
  intros d. unfold digitChar.
  assert (H : (Z.to_nat (d mod 10) < 10)%nat).
  { pose proof (Z.mod_pos_bound d 10 eq_refl). lia. }
  destruct (Z.to_nat (d mod 10)) as [|k]; [reflexivity|].
  do 9 (destruct k as [|k]; [reflexivity|]). lia.
Qed.

Lemma digit_differs : forall c x,
  isDigit c = true -> isDigit x = false -> Ascii.eqb c x = false /\ Ascii.eqb x c = false.
Proof.
  intros c x Hc Hx. split; apply Ascii.eqb_neq; intros E; subst; congruence.
Qed.

Lemma lacks_append : forall c a b, lacks c (a ++ b) = lacks c a && lacks c b.
Proof.
  intros c a b. induction a as [|x a IH]; simpl; [reflexivity|].
  now rewrite IH, andb_assoc.
Qed.

Lemma lacks_digit : forall c d, isDigit c = false -> negb (Ascii.eqb (digitChar d) c) = true.
Proof.
  intros c d Hc. destruct (digit_differs (digitChar d) c (isDigit_digitChar d) Hc) as [H _].
  now rewrite H.
Qed.

Lemma lacks_pad2 : forall c n, isDigit c = false -> lacks c (pad2 n) = true.
Proof. intros c n Hc. unfold pad2. cbn [lacks]. now rewrite !lacks_digit. Qed.

Lemma lacks_pad3 : forall c n, isDigit c = false -> lacks c (pad3 n) = true.
Proof. intros c n Hc. unfold pad3, pad2. cbn [lacks]. now rewrite !lacks_digit. Qed.

Lemma lacks_pad4 : forall c n, isDigit c = false -> lacks c (pad4 n) = true.
Proof. intros c n Hc. unfold pad4, pad3, pad2. cbn [lacks]. now rewrite !lacks_digit. Qed.

Create HintDb names.

#[local] Hint Resolve lacks_pad2 lacks_pad3 lacks_pad4 : names.

(** *** [replace], [split] and friends on concatenations *)

Lemma dropPrefix_append : forall p r, dropPrefix p (p ++ r) = Some r.
Proof.
  induction p as [|x p IH]; intros r; simpl; [reflexivity|].
  now rewrite Ascii.eqb_refl.
Qed.

Lemma replaceFirst_skip : forall c r a s,
  lacks c a = true ->
  replaceFirst (String c EmptyString) r (a ++ s) = (a ++ replaceFirst (String c EmptyString) r s)%string.
Proof.
  intros c r a s. induction a as [|x a IH]; intros H; [reflexivity|].
  simpl in H. apply andb_prop in H as [Hx Ha].
  simpl. rewrite Ascii.eqb_sym. destruct (Ascii.eqb x c); [discriminate|].
  simpl. now rewrite <- IH.
Qed.

Lemma replaceFirst_hit : forall c r s,
  replaceFirst (String c EmptyString) r (String c EmptyString ++ s) = (r ++ s)%string.
Proof.
  intros c r s. destruct s; simpl; now rewrite Ascii.eqb_refl.
Qed.

Lemma replaceAllChar_skip : forall c r a s,
  lacks c a = true -> replaceAllChar c r (a ++ s) = (a ++ replaceAllChar c r s)%string.
Proof.
  intros c r a s. induction a as [|x a IH]; intros H; [reflexivity|].
  simpl in H. apply andb_prop in H as [Hx Ha].
  simpl. destruct (Ascii.eqb x c); [discriminate|]. now rewrite IH.
Qed.

Lemma replaceAllChar_hit : forall c r s,
  replaceAllChar c r (String c EmptyString ++ s) = (r ++ replaceAllChar c r s)%string.
Proof. intros c r s. simpl. now rewrite Ascii.eqb_refl. Qed.

Lemma split_nonempty : forall c s, split c s <> [].
Proof.
  intros c s. induction s as [|x s IH]; simpl; [discriminate|].
  destruct (Ascii.eqb x c); [discriminate|]. destruct (split c s); discriminate.
Qed.

Lemma first_split_skip : forall c a s,
  lacks c a = true -> first (split c (a ++ s)) = (a ++ first (split c s))%string.
Proof.
  intros c a s. induction a as [|x a IH]; intros H; [reflexivity|].
  simpl in H. apply andb_prop in H as [Hx Ha].
  simpl. destruct (Ascii.eqb x c); [discriminate|].
  specialize (IH Ha). destruct (split c (a ++ s)) eqn:E.
  - now apply split_nonempty in E.
  - simpl in *. now rewrite IH.
Qed.

Lemma first_split_hit : forall c s, first (split c (String c EmptyString ++ s)) = EmptyString.
Proof. intros c s. simpl. now rewrite Ascii.eqb_refl. Qed.

Lemma split_lacking : forall c s, lacks c s = true -> split c s = [s].
Proof.
  intros c s. induction s as [|x s IH]; intros H; [reflexivity|].
  simpl in H. apply andb_prop in H as [Hx Hs].
  simpl. destruct (Ascii.eqb x c); [discriminate|]. now rewrite (IH Hs).
Qed.

Lemma endsWith_refl : forall s, endsWith s s = true.
Proof. intros s. destruct s; cbn [endsWith]; now rewrite String.eqb_refl. Qed.

Lemma endsWith_append : forall a suffix, endsWith (a ++ suffix) suffix = true.
Proof.
  intros a suffix. induction a as [|x a IH].
  - apply endsWith_refl.
  - change (String x a ++ suffix)%string with (String x (a ++ suffix)).
    cbn [endsWith]. rewrite IH.
    now destruct (String.eqb (String x (a ++ suffix)) suffix).
Qed.

(** *** The name the manager generates *)

Lemma yearString_four_digits : forall y, 0 <= y <= 9999 -> yearString y = pad4 y.
Proof.
  intros y [H0 H1]. unfold yearString.
  apply Z.leb_le in H0, H1. now rewrite H0, H1.
Qed.

Lemma generated_name_is_canonical : forall t,
  0 <= year (utcFields t) <= 9999 ->
  BackupManager.generateBackupFileName t = canonicalName (utcFields t).
Proof.
  intros t Hy. unfold BackupManager.generateBackupFileName, canonicalName, stampOf, toISOString.
  rewrite (yearString_four_digits _ Hy).
  do 3 f_equal.
  repeat (rewrite replaceFirst_skip by (auto with names)).
  rewrite replaceFirst_hit.
  repeat first [ rewrite replaceAllChar_skip by (auto with names)
               | rewrite replaceAllChar_hit ].
  repeat (rewrite first_split_skip by (auto with names)).
  rewrite first_split_hit.
  now rewrite append_empty_r.
Qed.

Lemma generated_name_has_suffix : forall t,
  endsWith (BackupManager.generateBackupFileName t) ".backup.json" = true.
Proof.
  intros t. unfold BackupManager.generateBackupFileName.
  rewrite <- append_assoc. apply endsWith_append.
Qed.

Lemma matchItems_pad2 : forall p n s,
  matchItems (Digit :: Digit :: p) (pad2 n ++ s) = matchItems p s.
Proof.
  intros p n s. unfold pad2. cbn [matchItems append]. now rewrite !isDigit_digitChar.
Qed.

Lemma matchItems_pad4 : forall p n s,
  matchItems (Digit :: Digit :: Digit :: Digit :: p) (pad4 n ++ s) = matchItems p s.
Proof.
  intros p n s. unfold pad4, pad3, pad2. cbn [matchItems append].
  now rewrite !isDigit_digitChar.
Qed.

Lemma matchItems_literal : forall l p s,
  matchItems (literal l ++ p)%list (l ++ s) = matchItems p s.
Proof.
  induction l as [|c l IH]; intros p s; [reflexivity|].
  cbn [literal app matchItems append]. now rewrite Ascii.eqb_refl, IH.
Qed.

Lemma matchItems_char : forall c p s,
  matchItems (Literal c :: p) (String c EmptyString ++ s) = matchItems p s.
Proof. intros c p s. apply (matchItems_literal (String c EmptyString)). Qed.

Lemma matchItems_exact : forall l s, matchItems (literal l) s = true -> s = l.
Proof.
  induction l as [|c l IH]; intros s H.
  - destruct s; [reflexivity|discriminate].
  - destruct s as [|a s]; [discriminate|]. cbn [literal matchItems] in H.
    apply andb_prop in H as [Ha Hs]. apply Ascii.eqb_eq in Ha. subst.
    now rewrite (IH s Hs).
Qed.

Lemma matchItems_endsWith : forall p suffix s,
  matchItems (p ++ literal suffix)%list s = true -> endsWith s suffix = true.
Proof.
  induction p as [|item p IH]; intros suffix s H.
  - cbn [app] in H. apply matchItems_exact in H. subst. apply endsWith_refl.
  - destruct s as [|a s]; [destruct item; discriminate|].
    assert (Hs : matchItems (p ++ literal suffix)%list s = true).
    { destruct item; cbn [app matchItems] in H; now apply andb_prop in H. }
    cbn [endsWith]. rewrite (IH _ _ Hs).
    now destruct (String.eqb (String a s) suffix).
Qed.

Lemma canonical_name_matches : forall f, matchesPattern (canonicalName f) = true.
Proof.
  intros f. unfold matchesPattern, canonicalName, stampOf, stampPattern.
  rewrite matchItems_literal. cbn [app]. rewrite !append_assoc.
  rewrite matchItems_pad4.
  repeat (rewrite matchItems_char, matchItems_pad2).
  reflexivity.
Qed.

Lemma pattern_has_suffix : forall name,
  matchesPattern name = true -> endsWith name ".backup.json" = true.
Proof.
  intros name H. unfold matchesPattern in H. rewrite app_assoc in H.
  now apply matchItems_endsWith in H.
Qed.

Lemma div_ignores_milliseconds : forall r k,
  0 < k -> (r - r mod 1000) / (1000 * k) = r / (1000 * k).
Proof.
  intros r k Hk.
  replace (r - r mod 1000) with (1000 * (r / 1000))
    by (pose proof (Z.div_mod r 1000); lia).
  rewrite Z.div_mul_cancel_l by lia.
  now rewrite Z.div_div by lia.
Qed.

(** Dropping the milliseconds changes no field down to the second. *)
Lemma stamp_ignores_milliseconds : forall t,
  year (utcFields (truncateToSecond t)) = year (utcFields t)
  /\ stampOf (utcFields (truncateToSecond t)) = stampOf (utcFields t).
Proof.
  intros t. unfold utcFields, truncateToSecond.
  assert (Hd : (t - t mod msPerSecond) / msPerDay = t / msPerDay).
  { unfold msPerSecond, msPerDay. Z.div_mod_to_equations. lia. }
  assert (Hr : (t - t mod msPerSecond) mod msPerDay
               = t mod msPerDay - (t mod msPerDay) mod 1000).
  { unfold msPerSecond, msPerDay. Z.div_mod_to_equations. lia. }
  rewrite Hd, Hr. destruct (civilFromDays (t / msPerDay)) as [[y m] d].
  unfold stampOf. cbn [year month day hours minutes seconds].
  change msPerHour with (1000 * 3600). change msPerMinute with (1000 * 60).
  change msPerSecond with (1000 * 1).
  now rewrite !div_ignores_milliseconds by lia.
Qed.

(** *** The timestamp the reporter derives *)

Lemma lastSegment_plain : forall s acc,
  lacks "/" s = true -> Path.lastSegment acc s = (acc ++ s)%string.
Proof.
  induction s as [|x s IH]; intros acc H.
  - now rewrite append_empty_r.
  - cbn [lacks] in H. apply andb_prop in H as [Hx Hs].
    cbn [Path.lastSegment]. destruct (Ascii.eqb x "/"); [discriminate|].
    rewrite (IH _ Hs), append_assoc. reflexivity.
Qed.

Lemma lastSegment_join : forall dir acc name,
  lacks "/" name = true -> Path.lastSegment acc (Path.join dir name) = name.
Proof.
  unfold Path.join. induction dir as [|x dir IH]; intros acc name H.
  - cbn [append Path.lastSegment]. change (Ascii.eqb "/" "/") with true.
    cbn iota. now rewrite lastSegment_plain.
  - change (String x dir ++ "/" ++ name)%string with (String x (dir ++ "/" ++ name)).
    cbn [Path.lastSegment]. destruct (Ascii.eqb x "/"); now apply IH.
Qed.

Lemma append_longer : forall a s, a <> EmptyString -> (a ++ s)%string <> s.
Proof.
  intros a s Ha E. apply (f_equal String.length) in E. rewrite length_append in E.
  destruct a; [now apply Ha|]. simpl in E. lia.
Qed.

Lemma stripSuffix_append : forall a suffix,
  a <> EmptyString -> Path.stripSuffix (a ++ suffix) suffix = Some a.
Proof.
  induction a as [|x a IH]; intros suffix Ha; [now contradiction Ha|].
  change (String x a ++ suffix)%string with (String x (a ++ suffix)).
  cbn [Path.stripSuffix]. destruct a as [|y a].
  - cbn [append]. now rewrite String.eqb_refl.
  - replace (String.eqb (String y a ++ suffix) suffix) with false.
    + rewrite IH by discriminate. reflexivity.
    + symmetry. apply String.eqb_neq. now apply append_longer.
Qed.

Lemma replaceFirst_prefix : forall p r s, replaceFirst p r (p ++ s) = (r ++ s)%string.
Proof.
  intros p r s. destruct (p ++ s)%string eqn:E; cbn [replaceFirst]; rewrite <- E;
    now rewrite dropPrefix_append.
Qed.

Lemma lacks_stamp : forall c f, isDigit c = false -> Ascii.eqb c "-" = false ->
  lacks c (stampOf f) = true.
Proof.
  intros c f Hd Hh. unfold stampOf. rewrite !lacks_append.
  rewrite lacks_pad4, !lacks_pad2 by assumption.
  cbn [lacks]. rewrite Ascii.eqb_sym, Hh. reflexivity.
Qed.

Lemma lacks_slash_canonical : forall f, lacks "/" (canonicalName f) = true.
Proof.
  intros f. unfold canonicalName. rewrite !lacks_append.
  now rewrite lacks_stamp.
Qed.

(** The base name the reporter cuts out of the path of a generated file. *)
Lemma basename_of_canonical : forall dir f,
  Path.basename (Path.join dir (canonicalName f)) ".backup.json"
  = ("backup-" ++ stampOf f)%string.
Proof.
  intros dir f. unfold Path.basename.
  rewrite lastSegment_join by apply lacks_slash_canonical.
  unfold canonicalName. rewrite <- append_assoc.
  now rewrite stripSuffix_append by discriminate.
Qed.

(** After a complete date, a hyphen is neither the end of the string nor
    the [T] of a time: the stamp is not in the Date Time String Format. *)
Lemma hyphen_after_date_is_not_iso :
  forall tz c1 c2 c3 c4 m1 m2 d1 d2 rest,
  isDigit c1 = true -> isDigit c2 = true -> isDigit c3 = true -> isDigit c4 = true ->
  isDigit m1 = true -> isDigit m2 = true -> isDigit d1 = true -> isDigit d2 = true ->
  isoDateParse tz
    (String c1 (String c2 (String c3 (String c4 (String "-"
    (String m1 (String m2 (String "-" (String d1 (String d2 (String "-" rest)))))))))))
  = None.
Proof.
  intros tz c1 c2 c3 c4 m1 m2 d1 d2 rest H1 H2 H3 H4 H5 H6 H7 H8.
  unfold isoDateParse.
  destruct (digit_differs c1 "+" H1 eq_refl) as [-> _].
  destruct (digit_differs c1 "-" H1 eq_refl) as [-> _].
  cbn [takeDigits]. rewrite H1, H2, H3, H4.
  cbn [takeDigits]. rewrite H5, H6.
  match goal with |- context [if ?b then _ else None] => destruct b end; [|reflexivity].
  cbn [takeDigits]. rewrite H7, H8.
  match goal with |- context [if ?b then _ else None] => destruct b end; reflexivity.
Qed.

Lemma stamp_is_not_iso : forall tz f, isoDateParse tz (stampOf f) = None.
Proof.
  intros tz f. unfold stampOf, pad4, pad3, pad2. cbn [append].
  apply hyphen_after_date_is_not_iso; apply isDigit_digitChar.
Qed.

(** On the name of a generated file the reporter never reaches its field
    parser: the whole stamp goes to [new Date(string)], and there to the
    engine's heuristics. *)
Lemma timestamp_of_canonical_name : forall env dir f,
  BackupReporter.parseTimestampFromFilename env (Path.join dir (canonicalName f))
  = BackupReporter.legacyDateParse env (stampOf f).
Proof.
  intros env dir f. unfold BackupReporter.parseTimestampFromFilename.
  rewrite basename_of_canonical, replaceFirst_prefix.
  change (EmptyString ++ stampOf f)%string with (stampOf f).
  rewrite split_lacking by (now apply lacks_stamp).
  cbn [first hd].
  replace (isFalsy (stampOf f)) with false by reflexivity.
  unfold newDateOfString. now rewrite stamp_is_not_iso.
Qed.


End NameFacts.

(** ** C1 and C5: the file-name contract *)

Module ContractFacts.

Import JsString JsDate NamePattern Scenario NameFacts.
Import BackupReporter.

(** C5, as the code has it.  With a four-digit year, the name the manager
    generates is [backup-{YYYY}-{MM}-{DD}-{HH}-{mm}-{ss}.backup.json] of
    the UTC fields of the time ([toISOString] is UTC; the time zone plays
    no part), the milliseconds dropped.  The directory scan keeps exactly
    the names that end in [.backup.json]: every name of the pattern and
    every generated name among them, and any other name with that
    suffix. *)
Theorem generated_names_are_utc_and_scan_filters_by_suffix :
  (forall t, 0 <= year (utcFields t) <= 9999 ->
     BackupManager.generateBackupFileName t = canonicalName (utcFields t)
     /\ matchesPattern (BackupManager.generateBackupFileName t) = true
     /\ BackupManager.generateBackupFileName (truncateToSecond t)
        = BackupManager.generateBackupFileName t)
  /\ (forall env files,
        readdir env (FileUtils.resolve (cwd env) backupDirectory) = Ok files ->
        exists accepted,
          getBackupFiles env = Ok accepted
          /\ forall path,
               In path accepted <->
               exists file, In file files /\ endsWith file ".backup.json" = true
                            /\ path = Path.join (FileUtils.resolve (cwd env) backupDirectory) file)
  /\ (forall name, matchesPattern name = true -> endsWith name ".backup.json" = true)
  /\ (forall t, endsWith (BackupManager.generateBackupFileName t) ".backup.json" = true).
Proof.
  split; [|split; [|split]].
  - intros t Hy. split; [now apply generated_name_is_canonical|].
    split.
    + rewrite generated_name_is_canonical by exact Hy. apply canonical_name_matches.
    + destruct (stamp_ignores_milliseconds t) as [Hyear Hstamp].
      rewrite !generated_name_is_canonical; [|exact Hy|now rewrite Hyear].
      unfold canonicalName. now rewrite Hstamp.
  - intros env files Hdir. unfold getBackupFiles. rewrite Hdir.
    eexists. split; [reflexivity|].
    intros path. rewrite in_map_iff. split.
    + intros (file & Hpath & Hin). apply filter_In in Hin as [Hin Hsuffix].
      exists file. now repeat split.
    + intros (file & Hin & Hsuffix & ->). exists file. split; [reflexivity|].
      apply filter_In. now split.
  - exact pattern_has_suffix.
  - exact generated_name_has_suffix.
Qed.

Lemma generated_names_are_utc_and_scan_filters_by_suffix_witness :
  0 <= year (utcFields 1735787045678) <= 9999
  /\ BackupManager.generateBackupFileName 1735787045678
     = canonicalName (utcFields 1735787045678)
  /\ matchesPattern (BackupManager.generateBackupFileName 1735787045678) = true.
Proof.
  assert (Hy : 0 <= year (utcFields 1735787045678) <= 9999)
    by (vm_compute; split; discriminate).
  destruct generated_names_are_utc_and_scan_filters_by_suffix as (Hname & _).
  destruct (Hname 1735787045678 Hy) as (Hcanonical & Hpattern & _).
  split; [exact Hy|]. split; [exact Hcanonical|exact Hpattern].
Defined.

(** C5, as stated, fails twice: one hour east of UTC the name of the
    epoch carries hour 00, not the local hour 01; and the scan accepts
    [notes.backup.json], which is not of the pattern. *)
Lemma name_is_not_local_time_and_scan_is_wider :
  BackupManager.generateBackupFileName 0 = "backup-1970-01-01-00-00-00.backup.json"
  /\ canonicalName (localFields 3600000 0) = "backup-1970-01-01-01-00-00.backup.json"
  /\ BackupManager.generateBackupFileName 0 <> canonicalName (localFields 3600000 0)
  /\ getBackupFiles (reporterEnv ["notes.backup.json"] FileUtils.emptyDisk)
     = Ok ["/srv/backups/notes.backup.json"]
  /\ matchesPattern "notes.backup.json" = false.
Proof.
  split; [vm_compute; reflexivity|]. split; [vm_compute; reflexivity|].
  split; [vm_compute; discriminate|]. split; vm_compute; reflexivity.
Qed.

(** C1 fails on the code.  For the path of any generated file, the
    reporter's derivation is the engine's answer to the whole hyphenated
    stamp: the stamp holds no [T], so the field parser is skipped, and the
    stamp is not in the Date Time String Format.  Where the engine has no
    reading of six hyphen-separated numbers (V8 has none), the derived
    date is invalid and is not the creation time truncated to the
    second. *)
Theorem generated_name_is_left_to_engine_heuristics : forall env dir t,
  0 <= year (utcFields t) <= 9999 ->
  parseTimestampFromFilename env (Path.join dir (BackupManager.generateBackupFileName t))
  = legacyDateParse env (stampOf (utcFields t))
  /\ isoDateParse (tzOffset env) (stampOf (utcFields t)) = None
  /\ (legacyDateParse env (stampOf (utcFields t)) = None ->
      parseTimestampFromFilename env (Path.join dir (BackupManager.generateBackupFileName t))
      <> Some (truncateToSecond t)).
Proof.
  intros env dir t Hy. rewrite generated_name_is_canonical by exact Hy.
  rewrite timestamp_of_canonical_name.
  split; [reflexivity|]. split; [apply stamp_is_not_iso|].
  intros ->. discriminate.
Qed.

Lemma generated_name_is_left_to_engine_heuristics_witness :
  0 <= year (utcFields 1735787045678) <= 9999
  /\ BackupManager.generateBackupFileName 1735787045678
     = "backup-2025-01-02-03-04-05.backup.json"
  /\ parseTimestampFromFilename (reporterEnv [] FileUtils.emptyDisk)
       (Path.join "/srv/backups" (BackupManager.generateBackupFileName 1735787045678))
     = None
  /\ parseTimestampFromFilename (reporterEnv [] FileUtils.emptyDisk)
       (Path.join "/srv/backups" (BackupManager.generateBackupFileName 1735787045678))
     <> Some (truncateToSecond 1735787045678).
Proof.
  assert (Hy : 0 <= year (utcFields 1735787045678) <= 9999)
    by (vm_compute; split; discriminate).
  destruct (generated_name_is_left_to_engine_heuristics
              (reporterEnv [] FileUtils.emptyDisk) "/srv/backups" 1735787045678 Hy)
    as (Hparse & _ & Hwrong).
  split; [exact Hy|]. split; [vm_compute; reflexivity|].
  split; [rewrite Hparse; reflexivity|].
  apply Hwrong. reflexivity.
Defined.

End ContractFacts.

(** ** The scheduler *)

Module ManagerFacts.

Import BackupManager Scenario.

Lemma run_snoc : forall s events e, run s (events ++ [e]) = step (run s events) e.
Proof. intros s events e. unfold run. now rewrite fold_left_app. Qed.

Lemma newlyEmitted_app : forall s s' l,
  emitted s' = (emitted s ++ l)%list -> newlyEmitted s s' = l.
Proof.
  intros s s' l H. unfold newlyEmitted. rewrite H.
  rewrite skipn_app, skipn_all, Nat.sub_diag. reflexivity.
Qed.

Lemma step_coherent : forall s e, coherent s -> coherent (step s e).
Proof.
  intros s e H. unfold step. destruct (uncaught s); [exact H|].
  unfold coherent in *.
  destruct e as [ | | h | id r w | ].
  - unfold start. destruct (intervalId s) eqn:E; simpl.
    + now rewrite E.
    + now rewrite H.
  - unfold stop. destruct (intervalId s) eqn:E; simpl.
    + rewrite E, H. simpl. now rewrite Nat.eqb_refl.
    + now rewrite E.
  - destruct (existsb (Nat.eqb h) (timers s)); [|exact H].
    unfold intervalCallback. destruct (isBackupInProgress s); [|exact H].
    simpl. destruct (3 <=? pendingIntervalsCount s + 1); [|exact H].
    simpl. rewrite H. destruct (intervalId s); simpl;
      [now rewrite Nat.eqb_refl | reflexivity].
  - unfold settle. destruct (findOperation id (operations s)); [|exact H].
    unfold continuePerformBackup.
    destruct (resumeBody s0 r w); simpl; exact H.
  - unfold runImmediate. destruct (immediates s); exact H.
Qed.

Lemma reachable_coherent : forall s, reachable s -> coherent s.
Proof.
  intros s (intervalMs & d & events & ->).
  induction events as [|e events IH] using rev_ind.
  - reflexivity.
  - rewrite run_snoc. now apply step_coherent.
Qed.

Lemma findOperation_removed : forall id ops,
  findOperation id (removeOperation id ops) = None.
Proof.
  intros id ops. induction ops as [|[i k] ops IH]; [reflexivity|].
  unfold removeOperation in *. cbn. destruct (Nat.eqb i id) eqn:E; cbn.
  - exact IH.
  - now rewrite E.
Qed.

Lemma tick_without_timer : forall s h, timers s = [] -> step s (TimerFires h) = s.
Proof. intros s h H. unfold step. rewrite H. now destruct (uncaught s). Qed.

Lemma live_timer_fires : forall s h,
  uncaught s = None -> In h (timers s) -> step s (TimerFires h) = intervalCallback s.
Proof.
  intros s h Hu Hin. unfold step. rewrite Hu.
  replace (existsb (Nat.eqb h) (timers s)) with true; [reflexivity|].
  symmetry. apply existsb_exists. exists h. split; [exact Hin|apply Nat.eqb_refl].
Qed.




(** C3 fails on the code.  Whenever the manager is not running, [start()]
    launches a snapshot operation without looking at [#isBackupInProgress]
    or at the operations still suspended; only the timer callback has the
    guard.  So [start(); stop(); start()] leaves two operations in flight,
    and when the older one then fails, its [finally] clause clears the
    flag and the next tick launches a third beside the second. *)
Theorem restart_launches_second_operation :
  (forall s, uncaught s = None -> intervalId s = None ->
     operations (step s CallStart)
     = (operations s ++ [(nextOperation s, AwaitAccess)])%list)
  /\ (forall s h, uncaught s = None -> In h (timers s) -> isBackupInProgress s = true ->
        operations (step s (TimerFires h)) = operations s)
  /\ (forall intervalMs d,
        operations (run (create intervalMs d) [CallStart; CallStop; CallStart])
        = [(0%nat, AwaitAccess); (1%nat, AwaitAccess)])
  /\ (forall intervalMs d w,
        operations
          (run (create intervalMs d)
               [CallStart; CallStop; CallStart;
                Settles 0 (Throw (SystemError "EACCES")) w; TimerFires 1])
        = [(1%nat, AwaitAccess); (2%nat, AwaitAccess)]).
Proof.
  split; [|split; [|split]].
  - intros s Hu Hi. unfold step, start. now rewrite Hu, Hi.
  - intros s h Hu Hin Hp. rewrite live_timer_fires by assumption.
    unfold intervalCallback. rewrite Hp. cbn [pendingIntervalsCount setProgress].
    now destruct (3 <=? pendingIntervalsCount s + 1).
  - intros intervalMs d. reflexivity.
  - intros intervalMs d w. reflexivity.
Qed.

Lemma restart_launches_second_operation_witness :
  uncaught stoppedEarly = None /\ intervalId stoppedEarly = None
  /\ operations stoppedEarly = [(0%nat, AwaitAccess)]
  /\ operations (step stoppedEarly CallStart) = [(0%nat, AwaitAccess); (1%nat, AwaitAccess)].
Proof.
  destruct restart_launches_second_operation as (Hstart & _).
  split; [reflexivity|]. split; [reflexivity|]. split; [reflexivity|].
  exact (Hstart stoppedEarly eq_refl eq_refl).
Defined.

(** C7: on a manager that is not running, [start()] emits [backup:started]
    with the interval in seconds, arms one timer and enters the first
    snapshot operation at once; a second [start()] only emits
    [backup:already-running].  Whenever the manager is running, [start()]
    changes nothing but the list of notifications. *)
Theorem start_twice_arms_one_timer : forall s,
  uncaught s = None -> intervalId s = None -> timers s = [] ->
  let s1 := step s CallStart in
  let s2 := step s1 CallStart in
  newlyEmitted s s2 = [BackupStarted (backupInterval s # 1000); BackupAlreadyRunning]
  /\ timers s2 = [nextTimer s] /\ nextTimer s2 = S (nextTimer s)
  /\ operations s1 = (operations s ++ [(nextOperation s, AwaitAccess)])%list
  /\ isBackupInProgress s1 = true /\ isRunning s1 = true
  /\ s2 = emit BackupAlreadyRunning s1
  /\ (forall x, isRunning x = true -> start x = emit BackupAlreadyRunning x).
Proof.
  intros s Hu Hi Ht s1 s2.
  assert (H1 : s1 = performBackup (setInterval (emit (BackupStarted (backupInterval s # 1000)) s))).
  { unfold s1, step, start. now rewrite Hu, Hi. }
  assert (H2 : s2 = emit BackupAlreadyRunning s1).
  { unfold s2, step. rewrite H1. simpl. now rewrite Hu. }
  split.
  { apply newlyEmitted_app. rewrite H2, H1. simpl. now rewrite <- app_assoc. }
  split; [rewrite H2, H1; simpl; now rewrite Ht|].
  split; [now rewrite H2, H1|].
  split; [now rewrite H1|].
  split; [now rewrite H1|].
  split; [now rewrite H1|].
  split; [exact H2|].
  intros x Hx. unfold start. unfold isRunning in Hx.
  destruct (intervalId x); [reflexivity|discriminate].
Qed.

Lemma start_twice_arms_one_timer_witness :
  uncaught fresh = None /\ intervalId fresh = None /\ timers fresh = []
  /\ emitted (run fresh [CallStart; CallStart])
     = [BackupStarted (30000 # 1000); BackupAlreadyRunning]
  /\ timers (run fresh [CallStart; CallStart]) = [0%nat]
  /\ operations (run fresh [CallStart]) = [(0%nat, AwaitAccess)].
Proof.
  destruct (start_twice_arms_one_timer fresh eq_refl eq_refl eq_refl)
    as (He & Ht & _ & Ho & _).
  split; [reflexivity|]. split; [reflexivity|]. split; [reflexivity|].
  split; [exact He|]. split; [exact Ht|exact Ho].
Defined.

(** C10: when a resumption of a snapshot operation ends in its [catch]
    clause with [error], the manager emits [backup:failed] with the error
    and the file name (or [null] before the name is computed) and, from the
    [.catch] attached where the operation was launched, [backup:error] with
    the same error; the operation is over and the flags are reset. *)
Theorem failed_operation_emits_failed_then_error : forall s id k r w error fileName,
  uncaught s = None ->
  findOperation id (operations s) = Some k ->
  resumeBody k r w = Raises error fileName ->
  let s' := step s (Settles id r w) in
  newlyEmitted s s' = [BackupFailed error fileName; BackupError error]
  /\ fileName = match k with
                | AwaitWrite backupFileName _ _ => Some backupFileName
                | _ => None
                end
  /\ findOperation id (operations s') = None
  /\ isBackupInProgress s' = false /\ pendingIntervalsCount s' = 0.
Proof.
  intros s id k r w error fileName Hu Hf Hb s'.
  assert (Hs : s' = emit (BackupError error)
                      (setOperations (removeOperation id (operations s)) (nextOperation s)
                         (finallyClause
                            (emit (BackupFailed error fileName)
                               (setDisk (leftOnDisk k w (disk s)) s))))).
  { unfold s', step, settle, continuePerformBackup. now rewrite Hu, Hf, Hb. }
  split.
  { apply newlyEmitted_app. rewrite Hs. simpl. now rewrite <- app_assoc. }
  split.
  { destruct k, r; simpl in Hb; unfold afterEnsureBackupDirectory in Hb;
      repeat match type of Hb with
             | context [match ?x with _ => _ end] => destruct x
             end; try discriminate; now inversion Hb. }
  split; [rewrite Hs; simpl; apply findOperation_removed|].
  split; now rewrite Hs.
Qed.

Lemma failed_operation_emits_failed_then_error_witness :
  uncaught writing = None
  /\ findOperation 0 (operations writing)
     = Some (AwaitWrite "backup-2025-01-02-03-04-05.backup.json"
               "/srv/backups/backup-2025-01-02-03-04-05.backup.json"
               (Json.stringify (Json.JArray [Json.JObject [("id", Json.JString "1")]])))
  /\ newlyEmitted writing
       (step writing (Settles 0 (Throw (SystemError "ENOSPC")) exampleWorld))
     = [BackupFailed (SystemError "ENOSPC") (Some "backup-2025-01-02-03-04-05.backup.json");
        BackupError (SystemError "ENOSPC")].
Proof.
  split; [reflexivity|]. split; [reflexivity|].
  destruct (failed_operation_emits_failed_then_error writing 0%nat
              (AwaitWrite "backup-2025-01-02-03-04-05.backup.json"
                 "/srv/backups/backup-2025-01-02-03-04-05.backup.json"
                 (Json.stringify (Json.JArray [Json.JObject [("id", Json.JString "1")]])))
              (Throw (SystemError "ENOSPC")) exampleWorld
              (SystemError "ENOSPC") (Some "backup-2025-01-02-03-04-05.backup.json")
              eq_refl eq_refl eq_refl) as (He & _).
  exact He.
Defined.

End ManagerFacts.

(** ** The reporter *)

Module ReporterFacts.

Import JsString JsDate Json Scenario ReportSpec.
Import BackupReporter.

(** *** The object [studentIdCounts] *)

Lemma ownProperty_assign : forall key v o k,
  ownProperty k (assign key v o)
  = if String.eqb key k then Some v else ownProperty k o.
Proof.
  intros key v o k. induction o as [|[k0 v0] o IH]; cbn [assign ownProperty].
  - destruct (String.eqb key k); reflexivity.
  - destruct (String.eqb k0 key) eqn:E0; cbn [ownProperty].
    + apply String.eqb_eq in E0. subst k0. destruct (String.eqb key k); reflexivity.
    + rewrite IH. destruct (String.eqb k0 k) eqn:E1; [|reflexivity].
      apply String.eqb_eq in E1. subst k0. now rewrite String.eqb_sym, E0.
Qed.

Lemma keys_assign : forall key v o,
  map fst (assign key v o)
  = if existsb (String.eqb key) (map fst o) then map fst o
    else (map fst o ++ [key])%list.
Proof.
  intros key v o. induction o as [|[k0 v0] o IH]; [reflexivity|].
  cbn [assign map fst existsb]. rewrite (String.eqb_sym key k0).
  destruct (String.eqb k0 key) eqn:E0; cbn [map fst orb].
  - apply String.eqb_eq in E0. now subst.
  - rewrite IH. now destruct (existsb (String.eqb key) (map fst o)).
Qed.

Lemma NoDup_assign : forall key v o,
  NoDup (map fst o) -> NoDup (map fst (assign key v o)).
Proof.
  intros key v o H. rewrite keys_assign.
  destruct (existsb (String.eqb key) (map fst o)) eqn:E; [exact H|].
  apply NoDup_app; [exact H|repeat constructor; intros []|].
  intros k Hk [Heq|[]]. subst k.
  assert (existsb (String.eqb key) (map fst o) = true); [|congruence].
  apply existsb_exists. exists key. split; [exact Hk|apply String.eqb_refl].
Qed.

Lemma NoDup_countRecord : forall env o record,
  NoDup (map fst o) -> NoDup (map fst (countRecord env o record)).
Proof.
  intros env o record H. unfold countRecord. destruct (keyOf env record); [|exact H].
  unfold setProperty. destruct (String.eqb s "__proto__"); [exact H|].
  now apply NoDup_assign.
Qed.

Lemma NoDup_counts : forall env records o,
  NoDup (map fst o) -> NoDup (map fst (fold_left (countRecord env) records o)).
Proof.
  intros env. induction records as [|r records IH]; intros o H; [exact H|].
  cbn [fold_left]. apply IH. now apply NoDup_countRecord.
Qed.

Lemma ownProperty_In : forall o k v,
  NoDup (map fst o) -> (In (k, v) o <-> ownProperty k o = Some v).
Proof.
  induction o as [|[k0 v0] o IH]; intros k v H; cbn [ownProperty].
  - split; [intros []|discriminate].
  - cbn [map fst] in H. inversion H as [|? ? Hnot Hrest]; subst.
    destruct (String.eqb k0 k) eqn:E.
    + apply String.eqb_eq in E. subst k0. split.
      * intros [Heq|Hin]; [now inversion Heq|].
        exfalso. apply Hnot. apply in_map_iff. now exists (k, v).
      * intros Heq. inversion Heq. now left.
    + apply String.eqb_neq in E. rewrite <- (IH k v Hrest). split.
      * intros [Heq|Hin]; [inversion Heq; congruence|exact Hin].
      * intros Hin. now right.
Qed.

Lemma occurrences_nonneg : forall env key records, 0 <= occurrences env key records.
Proof. intros. unfold occurrences. lia. Qed.

Lemma occurrences_cons : forall env key r records,
  occurrences env key (r :: records)
  = (match keyOf env r with
     | Some k => if String.eqb k key then 1 else 0
     | None => 0
     end) + occurrences env key records.
Proof.
  intros env key r records. unfold occurrences. cbn [filter].
  destruct (keyOf env r) as [k|]; [|lia].
  destruct (String.eqb k key); cbn [List.length]; lia.
Qed.

Lemma occurrences_app : forall env key records more,
  occurrences env key (records ++ more)
  = occurrences env key records + occurrences env key more.
Proof.
  intros env key records more. unfold occurrences. rewrite filter_app, length_app. lia.
Qed.

Lemma inherited_proto : isInherited "__proto__" = true.
Proof. reflexivity. Qed.

(** Every key that is not a name of [Object.prototype] holds the number of
    records counted under it. *)
Lemma counts_are_occurrences : forall env records o (c : string -> Z),
  (forall key, 0 <= c key) ->
  (forall key, isInherited key = false -> ownProperty key o = counted (c key)) ->
  forall key, isInherited key = false ->
  ownProperty key (fold_left (countRecord env) records o)
  = counted (c key + occurrences env key records).
Proof.
  intros env. induction records as [|r records IH]; intros o c Hc Ho key Hkey.
  - cbn [fold_left]. rewrite Ho by exact Hkey. f_equal. unfold occurrences. cbn. lia.
  - cbn [fold_left]. rewrite occurrences_cons.
    set (c' := fun k => c k + match keyOf env r with
                              | Some k0 => if String.eqb k0 k then 1 else 0
                              | None => 0
                              end).
    rewrite Z.add_assoc.
    change (ownProperty key (fold_left (countRecord env) records (countRecord env o r))
            = counted (c' key + occurrences env key records)).
    apply IH; [| |exact Hkey].
    + intros k. unfold c'. specialize (Hc k).
      destruct (keyOf env r) as [k0|]; [destruct (String.eqb k0 k)|]; lia.
    + intros k Hk. unfold c', countRecord.
      destruct (keyOf env r) as [k0|]; [|rewrite Z.add_0_r; now apply Ho].
      unfold setProperty. destruct (String.eqb k0 "__proto__") eqn:Ep.
      * apply String.eqb_eq in Ep. subst k0.
        replace (String.eqb "__proto__" k) with false.
        -- rewrite Z.add_0_r. now apply Ho.
        -- symmetry. apply String.eqb_neq. intros <-. now rewrite inherited_proto in Hk.
      * rewrite ownProperty_assign. destruct (String.eqb k0 k) eqn:E.
        -- apply String.eqb_eq in E. subst k0. unfold incremented.
           rewrite (Ho k Hk). unfold counted. specialize (Hc k).
           destruct (c k =? 0) eqn:Ez.
           ++ apply Z.eqb_eq in Ez. rewrite Ez. rewrite Ep.
              unfold isInherited in Hk. rewrite Ep in Hk. cbn [orb] in Hk. rewrite Hk.
              reflexivity.
           ++ apply Z.eqb_neq in Ez.
              replace (c k + 1 =? 0) with false by (symmetry; apply Z.eqb_neq; lia).
              reflexivity.
        -- rewrite Z.add_0_r. now apply Ho.
Qed.

(** *** The loop over the files *)

(** [forEach] counts the records it comes to and stops at the first one
    whose id cannot be turned into a property key. *)
Lemma forEach_visited : forall env students o,
  fst (forEachStudent env students o) = fold_left (countRecord env) (visited env students) o
  /\ (snd (forEachStudent env students o) = None <-> readThrough env students = true).
Proof.
  intros env. induction students as [|r students IH]; intros o.
  - split; [reflexivity|]. now split.
  - cbn [forEachStudent visited readThrough forallb].
    unfold countStudent, throwsAt.
    destruct (countedKey env r) as [[key|]|error] eqn:Ek; cbn [negb andb fold_left fst snd].
    + replace (countRecord env o r) with (setProperty key (incremented key o) o)
        by (unfold countRecord, keyOf; now rewrite Ek).
      apply IH.
    + replace (countRecord env o r) with o by (unfold countRecord, keyOf; now rewrite Ek).
      apply IH.
    + split; [reflexivity|]. split; discriminate.
Qed.

(** What a file that loads as an array adds. *)
Lemma countFile_fields : forall env acc filePath students,
  let acc' := countFile env acc filePath students in
  let fileDate := parseTimestampFromFilename env filePath in
  latestFile acc'
  = (if isLater fileDate (latestDate acc)
     then Some (Path.basename filePath EmptyString) else latestFile acc)
  /\ latestDate acc'
     = (if isLater fileDate (latestDate acc) then Some fileDate else latestDate acc)
  /\ studentIdCounts acc'
     = fold_left (countRecord env) (visited env students) (studentIdCounts acc)
  /\ totalStudents acc'
     = totalStudents acc
       + (if readThrough env students then Z.of_nat (List.length students) else 0)
  /\ totalFilesWithStudents acc'
     = totalFilesWithStudents acc
       + (if readThrough env students && (0 <? Z.of_nat (List.length students))
          then 1 else 0).
Proof.
  intros env acc filePath students acc' fileDate. unfold acc', countFile. fold fileDate.
  destruct (forEach_visited env students (studentIdCounts acc)) as [Hc Ht].
  destruct (forEachStudent env students (studentIdCounts acc)) as [counts thrown].
  cbn [fst snd] in Hc, Ht.
  cbn [latestFile latestDate studentIdCounts totalStudents totalFilesWithStudents].
  split; [reflexivity|]. split; [reflexivity|]. split; [exact Hc|].
  destruct thrown as [error|].
  - destruct (readThrough env students).
    + destruct Ht as [_ Ht]. specialize (Ht eq_refl). discriminate.
    + cbn [andb]. split; lia.
  - destruct Ht as [Ht _]. rewrite (Ht eq_refl). cbn [andb]. split; [reflexivity|].
    destruct (0 <? Z.of_nat (List.length students)); lia.
Qed.

Lemma visitFile_loaded : forall env acc filePath,
  visitFile env acc filePath
  = match loadedArray env filePath with
    | Some students => countFile env acc filePath students
    | None => acc
    end.
Proof.
  intros env acc filePath. unfold visitFile, loadedArray.
  now destruct (FileUtils.loadJSONIn (engine env) (cwd env) (readFile env) filePath).
Qed.

Lemma populated_cons : forall {A : Type} (snapshot : list A) snapshots,
  populated (snapshot :: snapshots)
  = (if 0 <? Z.of_nat (List.length snapshot) then 1 else 0) + populated snapshots.
Proof.
  intros. unfold populated. cbn [filter].
  destruct (0 <? Z.of_nat (List.length snapshot)); cbn [List.length]; lia.
Qed.

(** The loop skips the files that do not load as an array, counts the
    records it comes to in the others, and adds to the totals the files
    it reads to the end. *)
Lemma aggregate_totals : forall env backupFiles acc,
  let result := fold_left (visitFile env) backupFiles acc in
  studentIdCounts result
  = fold_left (countRecord env) (countedRecords env backupFiles) (studentIdCounts acc)
  /\ totalStudents result
     = totalStudents acc + Z.of_nat (List.length (survivingRecords env backupFiles))
  /\ totalFilesWithStudents result
     = totalFilesWithStudents acc + populated (survivingSnapshots env backupFiles).
Proof.
  intros env backupFiles. unfold survivingRecords.
  induction backupFiles as [|filePath rest IH]; intros acc; cbn zeta.
  - cbn. unfold populated. cbn. repeat split; lia.
  - cbn [fold_left survivingSnapshots countedRecords flat_map].
    fold (survivingSnapshots env rest). fold (countedRecords env rest).
    destruct (IH (visitFile env acc filePath)) as (Hc & Ht & Hf).
    cbn zeta in Hc, Ht, Hf. rewrite Hc, Ht, Hf. clear IH Hc Ht Hf.
    rewrite visitFile_loaded.
    destruct (loadedArray env filePath) as [students|];
      [|cbn [app]; repeat split; reflexivity].
    destruct (countFile_fields env acc filePath students) as (_ & _ & Hc & Ht & Hf).
    cbn zeta in Hc, Ht, Hf. rewrite Hc, Ht, Hf, fold_left_app.
    split; [reflexivity|].
    destruct (readThrough env students); cbn [andb app List.concat].
    + rewrite length_app, populated_cons.
      split; [lia|]. destruct (0 <? Z.of_nat (List.length students)); lia.
    + split; lia.
Qed.

(** When every id can be turned into a property key, the records the loop
    comes to are those of the surviving snapshots. *)
Lemma counted_are_surviving : forall env backupFiles,
  (forall filePath students,
     In filePath backupFiles -> loadedArray env filePath = Some students ->
     readThrough env students = true) ->
  countedRecords env backupFiles = survivingRecords env backupFiles.
Proof.
  intros env backupFiles. unfold survivingRecords.
  induction backupFiles as [|filePath rest IH]; intros H; [reflexivity|].
  cbn [countedRecords survivingSnapshots flat_map].
  fold (survivingSnapshots env rest). fold (countedRecords env rest).
  rewrite IH by (intros f l Hin; apply H; now right).
  destruct (loadedArray env filePath) as [students|] eqn:El; [|reflexivity].
  rewrite (H filePath students (or_introl eq_refl) El). cbn [app List.concat].
  f_equal. clear -H El.
  assert (Hall : readThrough env students = true) by (apply (H filePath); [now left|exact El]).
  clear H El. induction students as [|r students IH]; [reflexivity|].
  cbn [readThrough forallb] in Hall. apply andb_true_iff in Hall as [Hr Hall].
  cbn [visited]. apply negb_true_iff in Hr. rewrite Hr. f_equal. now apply IH.
Qed.

Lemma latest_stays_invalid : forall env backupFiles acc,
  latestDate acc = Some None ->
  latestDate (fold_left (visitFile env) backupFiles acc) = Some None.
Proof.
  intros env backupFiles. induction backupFiles as [|filePath rest IH]; intros acc H.
  - exact H.
  - cbn [fold_left]. apply IH. rewrite visitFile_loaded.
    destruct (loadedArray env filePath) as [students|]; [|exact H].
    destruct (countFile_fields env acc filePath students) as (_ & Hd & _).
    cbn zeta in Hd. rewrite Hd, H. cbn [isLater].
    now destruct (parseTimestampFromFilename env filePath).
Qed.

Lemma latest_stays_valid : forall env backupFiles acc t,
  latestDate acc = Some (Some t) ->
  exists t', latestDate (fold_left (visitFile env) backupFiles acc) = Some (Some t').
Proof.
  intros env backupFiles. induction backupFiles as [|filePath rest IH]; intros acc t H.
  - now exists t.
  - cbn [fold_left]. rewrite visitFile_loaded.
    destruct (loadedArray env filePath) as [students|]; [|now apply (IH acc t)].
    destruct (countFile_fields env acc filePath students) as (_ & Hd & _).
    cbn zeta in Hd.
    destruct (isLater (parseTimestampFromFilename env filePath) (latestDate acc)) eqn:E.
    + rewrite H in E. cbn [isLater] in E.
      destruct (parseTimestampFromFilename env filePath) as [a|] eqn:Ep; [|discriminate].
      now apply (IH _ a).
    + apply (IH _ t). now rewrite Hd.
Qed.

(** The date of the report is the invalid date exactly when the first
    surviving file has no valid derived date: a later file never replaces
    an invalid date. *)
Lemma latest_of_first_survivor : forall env backupFiles,
  match firstSurvivor env backupFiles with
  | None => latestDate (aggregate env backupFiles) = None
  | Some filePath =>
      match parseTimestampFromFilename env filePath with
      | None => latestDate (aggregate env backupFiles) = Some None
      | Some _ => exists t, latestDate (aggregate env backupFiles) = Some (Some t)
      end
  end.
Proof.
  intros env backupFiles. unfold aggregate.
  assert (H : latestDate initialAccumulator = None) by reflexivity.
  revert H. generalize initialAccumulator.
  induction backupFiles as [|filePath rest IH]; intros acc H.
  - exact H.
  - cbn [fold_left firstSurvivor]. rewrite visitFile_loaded.
    destruct (loadedArray env filePath) as [students|]; [|now apply IH].
    destruct (countFile_fields env acc filePath students) as (_ & Hd & _).
    cbn zeta in Hd. rewrite H in Hd. cbn [isLater] in Hd.
    destruct (parseTimestampFromFilename env filePath) as [t|] eqn:Ep.
    + now apply (latest_stays_valid env rest _ t).
    + now apply latest_stays_invalid.
Qed.

(** *** Sorting *)

Section SortFacts.

Context {A : Type}.
Variable compare : A -> A -> comparison.

Lemma insertSorted_perm : forall x l, Permutation (insertSorted compare x l) (x :: l).
Proof.
  intros x l. induction l as [|y l IH]; cbn [insertSorted]; [reflexivity|].
  destruct (compare x y); try reflexivity.
  - rewrite IH. apply perm_swap.
  - rewrite IH. apply perm_swap.
Qed.

Lemma sortBy_perm : forall l, Permutation (sortBy compare l) l.
Proof.
  intros l. unfold sortBy.
  assert (H : forall acc, Permutation (fold_left (fun sorted x => insertSorted compare x sorted) l acc)
                                      (acc ++ l)).
  { induction l as [|x l IH]; intros acc; cbn [fold_left].
    - now rewrite app_nil_r.
    - rewrite IH, insertSorted_perm. apply Permutation_middle. }
  apply (H []).
Qed.

Hypothesis antisymmetric : forall a b, compare b a = CompOpp (compare a b).

Lemma insertSorted_head : forall x y l,
  compare y x <> Gt -> HdRel (fun a b => compare a b <> Gt) y l ->
  HdRel (fun a b => compare a b <> Gt) y (insertSorted compare x l).
Proof.
  intros x y l Hyx Hl. destruct l as [|z l]; cbn [insertSorted].
  - now constructor.
  - inversion Hl; subst. destruct (compare x z); now constructor.
Qed.

Lemma insertSorted_sorted : forall x l,
  Sorted (fun a b => compare a b <> Gt) l ->
  Sorted (fun a b => compare a b <> Gt) (insertSorted compare x l).
Proof.
  intros x l H. induction H as [|y l Hs IH Hh]; cbn [insertSorted].
  - repeat constructor.
  - destruct (compare x y) eqn:E.
    + constructor; [exact IH|]. apply insertSorted_head; [|exact Hh].
      rewrite antisymmetric, E. discriminate.
    + constructor; [now constructor|]. constructor. rewrite E. discriminate.
    + constructor; [exact IH|]. apply insertSorted_head; [|exact Hh].
      rewrite antisymmetric, E. discriminate.
Qed.

Lemma sortBy_sorted : forall l, Sorted (fun a b => compare a b <> Gt) (sortBy compare l).
Proof.
  intros l. unfold sortBy.
  assert (H : forall acc, Sorted (fun a b => compare a b <> Gt) acc ->
                Sorted (fun a b => compare a b <> Gt)
                  (fold_left (fun sorted x => insertSorted compare x sorted) l acc)).
  { induction l as [|x l IH]; intros acc Hacc; cbn [fold_left]; [exact Hacc|].
    apply IH. now apply insertSorted_sorted. }
  apply H. constructor.
Qed.

End SortFacts.

Lemma partition_perm : forall {A : Type} (p q : A -> bool) (l : list A),
  (forall x, q x = negb (p x)) ->
  Permutation (filter p l ++ filter q l) l.
Proof.
  intros A p q l Hq. induction l as [|x l IH]; [reflexivity|].
  cbn [filter]. rewrite Hq. destruct (p x); cbn [negb app].
  - now constructor.
  - rewrite <- Permutation_middle. now constructor.
Qed.

Lemma objectEntries_perm : forall o, Permutation (objectEntries o) o.
Proof.
  intros o. unfold objectEntries. rewrite sortBy_perm.
  apply partition_perm. intros x. now destruct (arrayIndex (fst x)).
Qed.

Lemma sortedEntries_perm : forall env o, Permutation (sortedEntries env o) o.
Proof.
  intros env o. unfold sortedEntries. rewrite sortBy_perm. apply objectEntries_perm.
Qed.

(** *** The report *)

Lemma report_of_listing : forall env backupFiles,
  getBackupFiles env = Ok backupFiles -> backupFiles <> [] ->
  generateReport env
  = let acc := aggregate env backupFiles in
    let finish (datetime : option string) :=
      Ok (Summary
            {| amountOfBackupFiles := Z.of_nat (List.length backupFiles);
               latestBackupFile := latestFile acc;
               latestBackupDatetime := datetime;
               studentsGroupedById := sortedEntries env (studentIdCounts acc);
               averageAmountOfStudents :=
                 (if 0 <? totalFilesWithStudents acc
                  then toFixed2 (totalStudents acc) (totalFilesWithStudents acc)
                  else 0) # 100 |}) in
    match latestDate acc with
    | None => finish None
    | Some (Some t) => finish (Some (toISOString t))
    | Some None => Throw (RangeError "Invalid time value")
    end.
Proof.
  intros env backupFiles Hfiles Hne. unfold generateReport. rewrite Hfiles.
  replace (Z.of_nat (List.length backupFiles) =? 0) with false; [reflexivity|].
  symmetry. apply Z.eqb_neq. destruct backupFiles; [now contradiction Hne|].
  cbn [List.length]. lia.
Qed.

(** C8: when the backup directory does not exist, or holds no name that
    ends in [.backup.json], [generateReport()] returns the object with
    [amountOfBackupFiles] 0 and the message, and nothing else. *)
Theorem no_backup_files_gives_the_empty_report : forall env,
  (exists error,
      readdir env (FileUtils.resolve (cwd env) backupDirectory) = Throw error
      /\ isENOENT error = true)
  \/ (exists files,
        readdir env (FileUtils.resolve (cwd env) backupDirectory) = Ok files
        /\ filter (fun file => endsWith file ".backup.json") files = []) ->
  generateReport env = Ok (NoBackupFiles 0 "No backup files found.").
Proof.
  intros env [(error & Hdir & Hcode)|(files & Hdir & Hnone)];
    unfold generateReport, getBackupFiles; rewrite Hdir.
  - now rewrite Hcode.
  - now rewrite Hnone.
Qed.

Lemma no_backup_files_gives_the_empty_report_witness :
  readdir missingDirectoryEnv (FileUtils.resolve (cwd missingDirectoryEnv) backupDirectory)
  = Throw (SystemError "ENOENT")
  /\ generateReport missingDirectoryEnv = Ok (NoBackupFiles 0 "No backup files found.")
  /\ generateReport (reporterEnv ["notes.txt"; "students.json"] FileUtils.emptyDisk)
     = Ok (NoBackupFiles 0 "No backup files found.").
Proof.
  split; [reflexivity|]. split.
  - apply no_backup_files_gives_the_empty_report. left.
    exists (SystemError "ENOENT"). split; reflexivity.
  - apply no_backup_files_gives_the_empty_report. right.
    exists ["notes.txt"; "students.json"]. split; reflexivity.
Defined.

(** C4, as the code has it.  A record is counted under the string of its
    [id] when the record and the id are truthy.  When an id cannot be
    turned into a string, [forEach] ends there: the records before it stay
    counted, the rest of the file is not counted, and the file adds
    nothing to the two totals.  Whenever the date derived for the first
    surviving file is valid, the report is returned; for every key that
    is not a name of [Object.prototype] it lists the number of records
    (not files) counted under the key, once, when that number is positive;
    the list ascends in the collation of [localeCompare]; and the average
    is [toFixed(2)] of the double quotient of the number of records of the
    files read to the end by the number of those files that hold a
    record: 3.50 for 7 records in 2 files, and 1.02 for 41 records in 40
    files, whose quotient as a double lies below 1.025. *)
Theorem report_counts_records_per_truthy_id : forall env backupFiles,
  (forall a b, localeCompare env b a = CompOpp (localeCompare env a b)) ->
  getBackupFiles env = Ok backupFiles -> backupFiles <> [] ->
  (forall filePath, firstSurvivor env backupFiles = Some filePath ->
                    parseTimestampFromFilename env filePath <> None) ->
  exists report,
    generateReport env = Ok (Summary report)
    /\ (forall key v, isInherited key = false ->
          (In (key, v) (studentsGroupedById report) <->
           0 < occurrences env key (countedRecords env backupFiles)
           /\ v = CountNumber (occurrences env key (countedRecords env backupFiles))))
    /\ NoDup (map fst (studentsGroupedById report))
    /\ ascending (localeCompare env) (studentsGroupedById report)
    /\ averageAmountOfStudents report
       = (if 0 <? populated (survivingSnapshots env backupFiles)
          then toFixed2 (Z.of_nat (List.length (survivingRecords env backupFiles)))
                        (populated (survivingSnapshots env backupFiles))
          else 0) # 100
    /\ ((forall filePath students,
           In filePath backupFiles -> loadedArray env filePath = Some students ->
           readThrough env students = true) ->
        countedRecords env backupFiles = survivingRecords env backupFiles)
    /\ (forall key record,
          keyOf env record = Some key <->
          JsValue.truthy (engine env) record = true
          /\ exists id,
               JsValue.property (engine env) record "id" = Some id
               /\ JsValue.truthy (engine env) id = true
               /\ JsValue.toString (engine env) id = Ok key)
    /\ toFixed2 7 2 = 350 /\ toFixed2 41 40 = 102.
Proof.
  intros env backupFiles Hanti Hfiles Hne Hvalid.
  rewrite (report_of_listing env backupFiles Hfiles Hne). cbn zeta.
  destruct (aggregate_totals env backupFiles initialAccumulator) as (Hc & Ht & Hf).
  cbn zeta in Hc, Ht, Hf. fold (aggregate env backupFiles) in Hc, Ht, Hf.
  cbn [studentIdCounts totalStudents totalFilesWithStudents initialAccumulator] in Hc, Ht, Hf.
  rewrite Z.add_0_l in Ht, Hf.
  assert (Hnodup : NoDup (map fst (studentIdCounts (aggregate env backupFiles)))).
  { rewrite Hc. apply NoDup_counts. constructor. }
  assert (Hkey : forall key record,
            keyOf env record = Some key <->
            JsValue.truthy (engine env) record = true
            /\ exists id,
                 JsValue.property (engine env) record "id" = Some id
                 /\ JsValue.truthy (engine env) id = true
                 /\ JsValue.toString (engine env) id = Ok key).
  { intros key record. unfold keyOf, countedKey.
    destruct (JsValue.truthy (engine env) record);
      [|split; [discriminate|intros [H _]; discriminate]].
    destruct (JsValue.property (engine env) record "id") as [id|];
      [|split; [discriminate|intros (_ & id & H & _); discriminate]].
    destruct (JsValue.truthy (engine env) id) eqn:Et.
    - destruct (JsValue.toString (engine env) id) as [k|e] eqn:Es.
      + split.
        * intros H. inversion H. subst k. split; [reflexivity|]. now exists id.
        * intros (_ & id' & Hid & _ & Hs). inversion Hid. subst id'. congruence.
      + split; [discriminate|].
        intros (_ & id' & Hid & _ & Hs). inversion Hid. subst id'. congruence.
    - split; [discriminate|].
      intros (_ & id' & Hid & Ht' & _). inversion Hid. subst id'. congruence. }
  assert (Hfacts : forall datetime,
    let report :=
      {| amountOfBackupFiles := Z.of_nat (List.length backupFiles);
         latestBackupFile := latestFile (aggregate env backupFiles);
         latestBackupDatetime := datetime;
         studentsGroupedById := sortedEntries env (studentIdCounts (aggregate env backupFiles));
         averageAmountOfStudents :=
           (if 0 <? totalFilesWithStudents (aggregate env backupFiles)
            then toFixed2 (totalStudents (aggregate env backupFiles))
                          (totalFilesWithStudents (aggregate env backupFiles))
            else 0) # 100 |} in
    (forall key v, isInherited key = false ->
          (In (key, v) (studentsGroupedById report) <->
           0 < occurrences env key (countedRecords env backupFiles)
           /\ v = CountNumber (occurrences env key (countedRecords env backupFiles))))
    /\ NoDup (map fst (studentsGroupedById report))
    /\ ascending (localeCompare env) (studentsGroupedById report)
    /\ averageAmountOfStudents report
       = (if 0 <? populated (survivingSnapshots env backupFiles)
          then toFixed2 (Z.of_nat (List.length (survivingRecords env backupFiles)))
                        (populated (survivingSnapshots env backupFiles))
          else 0) # 100
    /\ ((forall filePath students,
           In filePath backupFiles -> loadedArray env filePath = Some students ->
           readThrough env students = true) ->
        countedRecords env backupFiles = survivingRecords env backupFiles)
    /\ (forall key record,
          keyOf env record = Some key <->
          JsValue.truthy (engine env) record = true
          /\ exists id,
               JsValue.property (engine env) record "id" = Some id
               /\ JsValue.truthy (engine env) id = true
               /\ JsValue.toString (engine env) id = Ok key)
    /\ toFixed2 7 2 = 350 /\ toFixed2 41 40 = 102).
  { intros datetime report. unfold report. cbn [studentsGroupedById averageAmountOfStudents].
    split; [|split; [|split; [|split; [|split; [|split]]]]].
    - intros key v Hk.
      rewrite (Permutation_in' (eq_refl (key, v)) (sortedEntries_perm env _)).
      rewrite (ownProperty_In _ key v Hnodup). rewrite Hc.
      rewrite (counts_are_occurrences env _ [] (fun _ => 0)); [|lia|reflexivity|exact Hk].
      rewrite Z.add_0_l. unfold counted.
      pose proof (occurrences_nonneg env key (countedRecords env backupFiles)) as Hpos.
      destruct (occurrences env key (countedRecords env backupFiles) =? 0) eqn:Ez.
      + apply Z.eqb_eq in Ez. split; [discriminate|]. intros [Hlt _]. lia.
      + apply Z.eqb_neq in Ez. split.
        * intros Heq. inversion Heq. split; [lia|reflexivity].
        * intros [_ ->]. reflexivity.
    - eapply Permutation_NoDup; [|exact Hnodup].
      apply Permutation_map. symmetry. apply sortedEntries_perm.
    - unfold ascending, sortedEntries.
      apply (sortBy_sorted (fun a b => localeCompare env (fst a) (fst b))).
      intros a b. apply Hanti.
    - now rewrite Ht, Hf.
    - apply counted_are_surviving.
    - exact Hkey.
    - split; vm_compute; reflexivity. }
  pose proof (latest_of_first_survivor env backupFiles) as Hlatest.
  destruct (firstSurvivor env backupFiles) as [filePath|] eqn:Efirst.
  - specialize (Hvalid filePath eq_refl).
    destruct (parseTimestampFromFilename env filePath); [|now contradiction Hvalid].
    destruct Hlatest as [t ->]. eexists. split; [reflexivity|apply Hfacts].
  - rewrite Hlatest. eexists. split; [reflexivity|apply Hfacts].
Qed.

Lemma report_counts_records_per_truthy_id_witness :
  (forall a b, localeCompare twoSnapshotsEnv b a = CompOpp (localeCompare twoSnapshotsEnv a b))
  /\ getBackupFiles twoSnapshotsEnv
     = Ok ["/srv/backups/backup-2025-01-02T03:04:05.backup.json";
           "/srv/backups/backup-2025-01-02T03:04:35.backup.json"]
  /\ survivingSnapshots twoSnapshotsEnv
       ["/srv/backups/backup-2025-01-02T03:04:05.backup.json";
        "/srv/backups/backup-2025-01-02T03:04:35.backup.json"]
     = [map (fun i => JObject [("id", JNumber i)]) [1; 2; 2; 3];
        map (fun i => JObject [("id", JNumber i)]) [2; 3; 3]]
  /\ (exists report,
        generateReport twoSnapshotsEnv = Ok (Summary report)
        /\ studentsGroupedById report
           = [("1", CountNumber 1); ("2", CountNumber 3); ("3", CountNumber 3)]
        /\ averageAmountOfStudents report = 350 # 100
        /\ (In ("2", CountNumber 3) (studentsGroupedById report) <->
            0 < 3 /\ CountNumber 3 = CountNumber 3)).
Proof.
  assert (Hanti : forall a b,
            localeCompare twoSnapshotsEnv b a = CompOpp (localeCompare twoSnapshotsEnv a b))
    by (intros a b; apply String.compare_antisym).
  assert (Hfiles : getBackupFiles twoSnapshotsEnv
                   = Ok ["/srv/backups/backup-2025-01-02T03:04:05.backup.json";
                         "/srv/backups/backup-2025-01-02T03:04:35.backup.json"])
    by (vm_compute; reflexivity).
  split; [exact Hanti|]. split; [exact Hfiles|]. split; [vm_compute; reflexivity|].
  destruct (report_counts_records_per_truthy_id twoSnapshotsEnv _ Hanti Hfiles)
    as (report & Hreport & Hcount & _).
  - discriminate.
  - intros filePath Hfirst. vm_compute in Hfirst. inversion Hfirst. subst filePath.
    vm_compute. discriminate.
  - exists report. split; [exact Hreport|].
    assert (Hvalue : generateReport twoSnapshotsEnv
              = Ok (Summary
                      {| amountOfBackupFiles := 2;
                         latestBackupFile := Some "backup-2025-01-02T03:04:35.backup.json";
                         latestBackupDatetime := Some "2025-01-02T02:04:35.000Z";
                         studentsGroupedById :=
                           [("1", CountNumber 1); ("2", CountNumber 3); ("3", CountNumber 3)];
                         averageAmountOfStudents := 350 # 100 |}))
      by (vm_compute; reflexivity).
    rewrite Hvalue in Hreport. inversion Hreport. subst report.
    split; [reflexivity|]. split; [reflexivity|].
    exact (Hcount "2" (CountNumber 3) eq_refl).
Defined.

(** C4, as stated, fails: of the ids 0, 10 and 2 of one snapshot the
    report lists 10 and 2 only (a record whose id is falsy is not
    counted), and 10 comes before 2 (the order is that of the strings). *)
Lemma falsy_id_is_not_counted_and_order_is_of_strings :
  survivingRecords zeroAndTenEnv ["/srv/backups/backup-2025-01-02T03:04:05.backup.json"]
  = [JObject [("id", JNumber 0)]; JObject [("id", JNumber 10)]; JObject [("id", JNumber 2)]]
  /\ generateReport zeroAndTenEnv
     = Ok (Summary
             {| amountOfBackupFiles := 1;
                latestBackupFile := Some "backup-2025-01-02T03:04:05.backup.json";
                latestBackupDatetime := Some "2025-01-02T02:04:05.000Z";
                studentsGroupedById := [("10", CountNumber 1); ("2", CountNumber 1)];
                averageAmountOfStudents := 300 # 100 |})
  /\ In (JNumber 0)
        (idsSeen zeroAndTenEnv
           (survivingRecords zeroAndTenEnv
              ["/srv/backups/backup-2025-01-02T03:04:05.backup.json"]))
  /\ ~ In "0" (map fst [("10", CountNumber 1); ("2", CountNumber 1)]).
Proof.
  split; [vm_compute; reflexivity|]. split; [vm_compute; reflexivity|].
  split; [vm_compute; now left|].
  intros [H|[H|[]]]; discriminate.
Qed.

(** C6 fails on the code.  The loop does skip what does not load as an
    array, but when the first surviving file carries a name the manager
    generated and the engine has no reading of its stamp (see C1), the
    date kept for the report is the invalid date, [toISOString()] throws
    and [generateReport()] is rejected with a [RangeError]. *)
Theorem report_aborts_on_generated_names : forall env backupFiles dir t,
  0 <= year (utcFields t) <= 9999 ->
  getBackupFiles env = Ok backupFiles ->
  firstSurvivor env backupFiles
  = Some (Path.join dir (BackupManager.generateBackupFileName t)) ->
  legacyDateParse env (NamePattern.stampOf (utcFields t)) = None ->
  generateReport env = Throw (RangeError "Invalid time value")
  /\ totalStudents (aggregate env backupFiles)
     = Z.of_nat (List.length (survivingRecords env backupFiles))
  /\ totalFilesWithStudents (aggregate env backupFiles)
     = populated (survivingSnapshots env backupFiles).
Proof.
  intros env backupFiles dir t Hy Hfiles Hfirst Hengine.
  assert (Hne : backupFiles <> []) by (intros ->; discriminate).
  split.
  - rewrite (report_of_listing env backupFiles Hfiles Hne). cbn zeta.
    pose proof (latest_of_first_survivor env backupFiles) as Hlatest.
    rewrite Hfirst in Hlatest.
    rewrite NameFacts.generated_name_is_canonical in Hlatest by exact Hy.
    rewrite NameFacts.timestamp_of_canonical_name, Hengine in Hlatest.
    now rewrite Hlatest.
  - destruct (aggregate_totals env backupFiles initialAccumulator) as (_ & Ht & Hf).
    cbn zeta in Ht, Hf. fold (aggregate env backupFiles) in Ht, Hf.
    cbn [totalStudents totalFilesWithStudents initialAccumulator] in Ht, Hf.
    rewrite Z.add_0_l in Ht, Hf. now split.
Qed.

Lemma report_aborts_on_generated_names_witness :
  0 <= year (utcFields 1735787045678) <= 9999
  /\ getBackupFiles oneCorruptEnv
     = Ok ["/srv/backups/backup-2025-01-02-03-04-05.backup.json";
           "/srv/backups/backup-2025-01-02-03-04-35.backup.json"]
  /\ FileUtils.loadJSON (cwd oneCorruptEnv) (readFile oneCorruptEnv)
       "/srv/backups/backup-2025-01-02-03-04-35.backup.json"
     = Throw SyntaxError
  /\ survivingSnapshots oneCorruptEnv
       ["/srv/backups/backup-2025-01-02-03-04-05.backup.json";
        "/srv/backups/backup-2025-01-02-03-04-35.backup.json"]
     = [[JObject [("id", JNumber 1)]; JObject [("id", JNumber 2)]]]
  /\ generateReport oneCorruptEnv = Throw (RangeError "Invalid time value")
  /\ totalStudents
       (aggregate oneCorruptEnv
          ["/srv/backups/backup-2025-01-02-03-04-05.backup.json";
           "/srv/backups/backup-2025-01-02-03-04-35.backup.json"]) = 2
  /\ totalFilesWithStudents
       (aggregate oneCorruptEnv
          ["/srv/backups/backup-2025-01-02-03-04-05.backup.json";
           "/srv/backups/backup-2025-01-02-03-04-35.backup.json"]) = 1.
Proof.
  assert (Hy : 0 <= year (utcFields 1735787045678) <= 9999)
    by (vm_compute; split; discriminate).
  assert (Hfiles : getBackupFiles oneCorruptEnv
                   = Ok ["/srv/backups/backup-2025-01-02-03-04-05.backup.json";
                         "/srv/backups/backup-2025-01-02-03-04-35.backup.json"])
    by (vm_compute; reflexivity).
  destruct (report_aborts_on_generated_names oneCorruptEnv _ "/srv/backups" 1735787045678
              Hy Hfiles) as (Hthrow & Htotal & Hpopulated).
  - vm_compute. reflexivity.
  - reflexivity.
  - split; [exact Hy|]. split; [exact Hfiles|]. split; [vm_compute; reflexivity|].
    split; [vm_compute; reflexivity|]. split; [exact Hthrow|].
    split; [rewrite Htotal|rewrite Hpopulated]; vm_compute; reflexivity.
Defined.

End ReporterFacts.

(** ** JSON: what is written is read back *)

Module JsonFacts.

Import JsString Json JsonMeasure NameFacts.

#[local] Arguments digitChar : simpl never.

(** *** Numbers *)

Lemma digitValue_digitChar : forall d, digitValue (digitChar d) = d mod 10.
Proof.
  intros d. unfold digitValue, digitChar.
  pose proof (Z.mod_pos_bound d 10 eq_refl) as H.
  rewrite nat_ascii_embedding by lia. lia.
Qed.

Lemma digits_append : forall fuel n acc rest,
  (digitsOfPositive fuel n acc ++ rest)%string = digitsOfPositive fuel n (acc ++ rest).
Proof.
  induction fuel as [|fuel IH]; intros n acc rest; cbn [digitsOfPositive]; [reflexivity|].
  destruct (n <? 10); [reflexivity|]. now rewrite IH.
Qed.

Lemma half_bound : forall n fuel,
  0 <= n < 2 ^ Z.of_nat (S fuel) -> 0 <= n / 10 < 2 ^ Z.of_nat fuel.
Proof.
  intros n fuel [H0 H1]. rewrite Nat2Z.inj_succ, Z.pow_succ_r in H1 by lia.
  split; [apply Z.div_pos; lia|].
  apply Z.div_lt_upper_bound; lia.
Qed.

Lemma readNat_digits : forall fuel n,
  0 <= n < 2 ^ Z.of_nat fuel ->
  exists k, forall a acc,
    readNat a (digitsOfPositive fuel n acc) = readNat (a * k + n) acc.
Proof.
  induction fuel as [|fuel IH]; intros n Hn.
  - exists 1. intros a acc. cbn [digitsOfPositive]. f_equal. cbn in Hn. lia.
  - cbn [digitsOfPositive]. destruct (n <? 10) eqn:E.
    + apply Z.ltb_lt in E. exists 10. intros a acc. cbn [readNat].
      rewrite isDigit_digitChar, digitValue_digitChar.
      f_equal. rewrite Z.mod_small; lia.
    + destruct (IH (n / 10) (half_bound n fuel Hn)) as [k Hk].
      exists (10 * k). intros a acc. rewrite Hk. cbn [readNat].
      rewrite isDigit_digitChar, digitValue_digitChar. f_equal.
      pose proof (Z.div_mod n 10). lia.
Qed.

Lemma digitChar_nonzero : forall n, 0 < n < 10 -> Ascii.eqb (digitChar n) "0" = false.
Proof.
  intros n Hn. unfold digitChar. rewrite Z.mod_small by lia.
  assert (H : (0 < Z.to_nat n < 10)%nat) by lia.
  destruct (Z.to_nat n) as [|k]; [lia|].
  do 9 (destruct k as [|k]; [reflexivity|]). lia.
Qed.

Lemma digits_head : forall fuel n acc,
  0 < n < 2 ^ Z.of_nat fuel ->
  exists c s, digitsOfPositive fuel n acc = String c s
              /\ isDigit c = true /\ Ascii.eqb c "0" = false.
Proof.
  induction fuel as [|fuel IH]; intros n acc Hn.
  - cbn in Hn. lia.
  - cbn [digitsOfPositive]. destruct (n <? 10) eqn:E.
    + apply Z.ltb_lt in E. exists (digitChar n), acc.
      split; [reflexivity|]. split; [apply isDigit_digitChar|].
      apply digitChar_nonzero. lia.
    + apply Z.ltb_ge in E. apply IH.
      destruct (half_bound n fuel) as [_ H]; [lia|].
      split; [|exact H]. apply Z.div_str_pos. lia.
Qed.

Lemma log2_bound : forall n, 0 <= n -> 0 <= n < 2 ^ Z.of_nat (S (Z.to_nat (Z.log2 n))).
Proof.
  intros n Hn. split; [exact Hn|].
  rewrite Nat2Z.inj_succ, Z2Nat.id by apply Z.log2_nonneg.
  destruct (Z.eq_dec n 0) as [->|Hz]; [reflexivity|].
  apply Z.log2_spec. lia.
Qed.

Lemma readNat_stops : forall n rest, endsNumber rest = true -> readNat n rest = (n, rest).
Proof.
  intros n [|c rest] H; [reflexivity|]. cbn [readNat]. cbn [endsNumber] in H.
  destruct (isDigit c); [discriminate|reflexivity].
Qed.

Lemma endsNumber_tail : forall (rest : string) (sign n : Z),
  endsNumber rest = true ->
  match rest with
  | EmptyString => Some (sign * n, rest)
  | String c2 _ =>
      if isDigit c2 || Ascii.eqb c2 "." || Ascii.eqb c2 "e" || Ascii.eqb c2 "E"
      then None else Some (sign * n, rest)
  end = Some (sign * n, rest).
Proof.
  intros [|c rest] sign n H; [reflexivity|]. cbn [endsNumber] in H.
  now destruct (isDigit c || Ascii.eqb c "." || Ascii.eqb c "e" || Ascii.eqb c "E").
Qed.

(** The digits of a natural number are read back as that number. *)
Lemma parse_digits : forall (sign n : Z) rest,
  0 <= n -> endsNumber rest = true ->
  match digitsOfPositive (S (Z.to_nat (Z.log2 n))) n EmptyString ++ rest with
  | String c r =>
      if isDigit c then
        let '(m, rest') :=
          if Ascii.eqb c "0" then (0, r)
          else readNat 0 (digitsOfPositive (S (Z.to_nat (Z.log2 n))) n EmptyString ++ rest) in
        match rest' with
        | String c2 _ =>
            if isDigit c2 || Ascii.eqb c2 "." || Ascii.eqb c2 "e" || Ascii.eqb c2 "E"
            then None else Some (sign * m, rest')
        | EmptyString => Some (sign * m, rest')
        end
      else None
  | EmptyString => None
  end = Some (sign * n, rest).
Proof.
  intros sign n rest Hn Hrest.
  destruct (Z.eq_dec n 0) as [->|Hz].
  - cbn. now apply endsNumber_tail.
  - destruct (digits_head (S (Z.to_nat (Z.log2 n))) n EmptyString) as (c & s & Hd & Hc & H0).
    { pose proof (log2_bound n Hn). lia. }
    destruct (readNat_digits _ n (log2_bound n Hn)) as [k Hk].
    rewrite digits_append in *. cbn [append] in *.
    destruct (digits_head (S (Z.to_nat (Z.log2 n))) n rest) as (c' & s' & Hd' & Hc' & H0').
    { pose proof (log2_bound n Hn). lia. }
    rewrite Hd' at 1. rewrite Hc', H0'. rewrite Hk. cbn [Z.mul Z.add].
    rewrite readNat_stops by exact Hrest. now apply endsNumber_tail.
Qed.

Lemma digits_not_minus : forall fuel n acc,
  exists c s, digitsOfPositive (S fuel) n acc = String c s /\ isDigit c = true.
Proof.
  induction fuel as [|fuel IH]; intros n acc.
  - cbn [digitsOfPositive]. exists (digitChar n), acc.
    destruct (n <? 10); split; try reflexivity; apply isDigit_digitChar.
  - cbn [digitsOfPositive]. destruct (n <? 10).
    + exists (digitChar n), acc. split; [reflexivity|apply isDigit_digitChar].
    + apply IH.
Qed.

Lemma parseNumber_numberToString : forall n rest,
  endsNumber rest = true -> parseNumber (numberToString n ++ rest) = Some (n, rest).
Proof.
  intros n rest Hrest. unfold parseNumber, numberToString.
  destruct (n <? 0) eqn:E.
  - apply Z.ltb_lt in E. cbn [append dropPrefix]. change (Ascii.eqb "-" "-") with true.
    cbn iota. rewrite (parse_digits (-1) (- n) rest) by (lia || assumption).
    f_equal. f_equal. lia.
  - apply Z.ltb_ge in E.
    destruct (digits_not_minus (Z.to_nat (Z.log2 n)) n EmptyString) as (c & s & Hd & Hc).
    replace (dropPrefix "-" (digitsOfPositive (S (Z.to_nat (Z.log2 n))) n EmptyString ++ rest))
      with (@None string).
    + rewrite (parse_digits 1 n rest) by assumption. f_equal. f_equal. lia.
    + rewrite Hd. cbn [append dropPrefix].
      destruct (digit_differs c "-" Hc eq_refl) as [_ ->]. reflexivity.
Qed.

(** *** Strings *)

Lemma parseChars_escapeChar : forall c tail,
  parseChars (escapeChar c ++ tail)
  = match parseChars tail with
    | Some (t, rest) => Some (String c t, rest)
    | None => None
    end.
Proof.
  intros c tail.
  destruct c as [[] [] [] [] [] [] [] []]; reflexivity.
Qed.

Lemma parseChars_escapeChars : forall s rest,
  parseChars (escapeChars s ++ String quoteChar rest) = Some (s, rest).
Proof.
  induction s as [|c s IH]; intros rest.
  - reflexivity.
  - cbn [escapeChars]. rewrite append_assoc, parseChars_escapeChar. now rewrite IH.
Qed.

Lemma quote_append : forall s rest,
  (quote s ++ rest)%string = String quoteChar (escapeChars s ++ String quoteChar rest).
Proof.
  intros s rest. unfold quote. cbn [append]. now rewrite append_assoc.
Qed.

(** *** White space and first characters *)

Lemma skipSpaces_spaces : forall w s, allSpaces w = true -> skipSpaces (w ++ s) = skipSpaces s.
Proof.
  induction w as [|c w IH]; intros s H; [reflexivity|].
  cbn [allSpaces] in H. apply andb_prop in H as [Hc Hw].
  cbn [append skipSpaces]. rewrite Hc. now apply IH.
Qed.

Lemma allSpaces_append : forall a b, allSpaces (a ++ b) = allSpaces a && allSpaces b.
Proof.
  induction a as [|c a IH]; intros b; cbn [append allSpaces]; [reflexivity|].
  now rewrite IH, andb_assoc.
Qed.

Lemma allSpaces_inner : forall indent,
  allSpaces indent = true -> allSpaces (indent ++ "  ") = true.
Proof. intros indent H. now rewrite allSpaces_append, H. Qed.

Lemma startsValue_facts : forall c,
  startsValue c = true ->
  isJsonSpace c = false /\ Ascii.eqb "]" c = false /\ Ascii.eqb "}" c = false.
Proof.
  intros c. destruct c as [[] [] [] [] [] [] [] []]; cbn; intros H;
    try discriminate; repeat split.
Qed.

Lemma digit_starts_value : forall c, isDigit c = true -> startsValue c = true.
Proof. intros c H. unfold startsValue. now rewrite H. Qed.

Lemma serialize_head : forall indent v,
  exists c s, serialize indent v = String c s /\ startsValue c = true.
Proof.
  intros indent v. destruct v as [|[]|n|s|[|item items]|[|[key item] members]];
    try (eexists; eexists; split; [reflexivity|reflexivity]).
  cbn [serialize]. unfold numberToString. destruct (n <? 0).
  - eexists; eexists; split; reflexivity.
  - destruct (digits_not_minus (Z.to_nat (Z.log2 n)) n EmptyString) as (c & s & Hd & Hc).
    exists c, s. split; [exact Hd|now apply digit_starts_value].
Qed.

Lemma skipSpaces_value : forall indent v rest,
  skipSpaces (serialize indent v ++ rest) = (serialize indent v ++ rest)%string.
Proof.
  intros indent v rest. destruct (serialize_head indent v) as (c & s & -> & Hc).
  cbn [append skipSpaces]. destruct (startsValue_facts c Hc) as [-> _]. reflexivity.
Qed.

Lemma not_closing : forall indent v more,
  dropPrefix "]" (skipSpaces (serialize indent v ++ more)) = None.
Proof.
  intros indent v more. rewrite skipSpaces_value.
  destruct (serialize_head indent v) as (c & s & -> & Hc).
  cbn [append dropPrefix]. destruct (startsValue_facts c Hc) as (_ & -> & _). reflexivity.
Qed.

Lemma parseValue_skipsSpaces : forall fuel, skipsSpaces (parseValue fuel).
Proof.
  intros fuel w s H. destruct fuel; [reflexivity|].
  cbn [parseValue]. now rewrite skipSpaces_spaces.
Qed.

(** *** Arrays and objects *)

Lemma value_nested_ind : forall P : value -> Prop,
  P JNull -> (forall b, P (JBool b)) -> (forall n, P (JNumber n)) ->
  (forall s, P (JString s)) ->
  (forall items, Forall P items -> P (JArray items)) ->
  (forall members, Forall (fun member => P (snd member)) members -> P (JObject members)) ->
  forall v, P v.
Proof.
  intros P Hnull Hbool Hnumber Hstring Harray Hobject.
  fix IH 1. intros [ |b|n|s|items|members].
  - exact Hnull.
  - apply Hbool.
  - apply Hnumber.
  - apply Hstring.
  - apply Harray. induction items as [|x items IHitems]; constructor;
      [apply IH|exact IHitems].
  - apply Hobject. induction members as [|[k x] members IHmembers]; constructor;
      [apply IH|exact IHmembers].
Qed.

Lemma joinWith_cons : forall sep p l,
  joinWith sep (p :: l)
  = (p ++ match l with
          | [] => EmptyString
          | _ :: _ => sep ++ joinWith sep l
          end)%string.
Proof.
  intros sep p [|q l]; cbn [joinWith]; [now rewrite append_empty_r|reflexivity].
Qed.

Lemma joinWith_two : forall sep p q l,
  joinWith sep (p :: q :: l) = (p ++ sep ++ joinWith sep (q :: l))%string.
Proof. reflexivity. Qed.

Section LoopFacts.

Variable parseItem : string -> option (value * string).
Hypothesis parseItem_skips : skipsSpaces parseItem.

Variables inner indent rest : string.
Hypothesis inner_spaces : allSpaces inner = true.
Hypothesis indent_spaces : allSpaces indent = true.

Lemma parseElements_skip : forall n w s,
  allSpaces w = true -> parseElements parseItem n (w ++ s) = parseElements parseItem n s.
Proof.
  intros n w s H. destruct n; [reflexivity|]. cbn [parseElements].
  now rewrite parseItem_skips.
Qed.

Lemma parseMembers_skip : forall n w s,
  allSpaces w = true -> parseMembers parseItem n (w ++ s) = parseMembers parseItem n s.
Proof.
  intros n w s H. destruct n; [reflexivity|]. cbn [parseMembers].
  now rewrite skipSpaces_spaces.
Qed.

Lemma closing_after_spaces : forall c,
  isJsonSpace c = false ->
  skipSpaces (newline ++ indent ++ String c rest) = String c rest.
Proof.
  intros c Hc. rewrite skipSpaces_spaces by reflexivity.
  rewrite skipSpaces_spaces by exact indent_spaces.
  cbn [skipSpaces]. now rewrite Hc.
Qed.

Lemma skip_comma : forall x,
  skipSpaces (("," ++ newline ++ inner) ++ x) = String "," (newline ++ inner ++ x).
Proof. intros x. now rewrite !append_assoc. Qed.

Lemma parseElements_serialized : forall items n,
  (forall x tail, In x items -> endsNumber tail = true ->
                  parseItem (serialize inner x ++ tail) = Some (x, tail)) ->
  items <> [] -> (List.length items <= n)%nat ->
  parseElements parseItem n
    (joinWith ("," ++ newline ++ inner) (map (serialize inner) items)
     ++ newline ++ indent ++ String "]" rest)
  = Some (items, rest).
Proof.
  induction items as [|x items IH]; intros n Hitems Hne Hn; [now contradiction Hne|].
  destruct n as [|n]; [cbn in Hn; lia|].
  destruct items as [|y items].
  - cbn [map joinWith parseElements]. rewrite Hitems by (now left || reflexivity).
    rewrite closing_after_spaces by reflexivity. reflexivity.
  - cbn [map]. rewrite joinWith_two.
    rewrite (append_assoc (serialize inner x)), (append_assoc ("," ++ newline ++ inner)).
    cbn [parseElements]. rewrite Hitems by (now left || reflexivity).
    rewrite skip_comma. change (Ascii.eqb "," ",") with true. cbn iota.
    rewrite (parseElements_skip n newline) by reflexivity.
    rewrite parseElements_skip by exact inner_spaces.
    change (serialize inner y :: map (serialize inner) items)
      with (map (serialize inner) (y :: items)).
    rewrite IH; [reflexivity| |discriminate|cbn [List.length] in *; lia].
    intros x' tail Hin. apply Hitems. now right.
Qed.

Lemma member_text : forall k x tail,
  ((quote k ++ ": " ++ serialize inner x) ++ tail)%string
  = String quoteChar (escapeChars k ++ String quoteChar (": " ++ serialize inner x ++ tail)).
Proof.
  intros k x tail. rewrite !append_assoc. now rewrite quote_append.
Qed.

Lemma parseMember_one : forall n k x tail,
  endsNumber tail = true ->
  parseItem (serialize inner x ++ tail) = Some (x, tail) ->
  parseMembers parseItem (S n) ((quote k ++ ": " ++ serialize inner x) ++ tail)
  = match skipSpaces tail with
    | String c r4 =>
        if Ascii.eqb c "," then
          match parseMembers parseItem n r4 with
          | Some (ms, r5) => Some ((k, x) :: ms, r5)
          | None => None
          end
        else if Ascii.eqb c "}" then Some ([(k, x)], r4)
        else None
    | EmptyString => None
    end.
Proof.
  intros n k x tail Htail Hitem. rewrite member_text. cbn [parseMembers].
  cbn [skipSpaces]. change (isJsonSpace quoteChar) with false. cbn iota.
  cbn [dropPrefix]. change (Ascii.eqb quoteChar quoteChar) with true. cbn iota.
  rewrite parseChars_escapeChars.
  change (skipSpaces (": " ++ serialize inner x ++ tail))
    with (String ":" (" " ++ serialize inner x ++ tail)).
  cbn [dropPrefix]. change (Ascii.eqb ":" ":") with true. cbn iota.
  rewrite (parseItem_skips " ") by reflexivity.
  now rewrite Hitem.
Qed.

Lemma parseMembers_serialized : forall members n,
  (forall k x tail, In (k, x) members -> endsNumber tail = true ->
                    parseItem (serialize inner x ++ tail) = Some (x, tail)) ->
  members <> [] -> (List.length members <= n)%nat ->
  parseMembers parseItem n
    (joinWith ("," ++ newline ++ inner)
       (map (fun member : string * value =>
               let (key, item) := member in
               quote key ++ ": " ++ serialize inner item) members)
     ++ newline ++ indent ++ String "}" rest)
  = Some (members, rest).
Proof.
  induction members as [|[k x] members IH]; intros n Hitems Hne Hn; [now contradiction Hne|].
  destruct n as [|n]; [cbn in Hn; lia|].
  destruct members as [|[k' y] members].
  - cbn [map joinWith]. rewrite parseMember_one;
      [|reflexivity|apply (Hitems k); [now left|reflexivity]].
    rewrite closing_after_spaces by reflexivity. reflexivity.
  - cbn [map]. rewrite joinWith_two.
    rewrite (append_assoc (quote k ++ ": " ++ serialize inner x)),
            (append_assoc ("," ++ newline ++ inner)).
    rewrite parseMember_one;
      [|rewrite !append_assoc; reflexivity
       |apply (Hitems k); [now left|rewrite !append_assoc; reflexivity]].
    rewrite skip_comma. change (Ascii.eqb "," ",") with true. cbn iota.
    rewrite (parseMembers_skip n newline) by reflexivity.
    rewrite parseMembers_skip by exact inner_spaces.
    change ((quote k' ++ ": " ++ serialize inner y)
            :: map (fun member : string * value =>
                      let (key, item) := member in
                      quote key ++ ": " ++ serialize inner item) members)%string
      with (map (fun member : string * value =>
                   let (key, item) := member in
                   quote key ++ ": " ++ serialize inner item) ((k', y) :: members)).
    rewrite IH; [reflexivity| |discriminate|cbn [List.length] in *; lia].
    intros k0 x0 tail Hin. apply (Hitems k0). now right.
Qed.

End LoopFacts.

(** *** The whole value *)

Lemma number_head : forall n,
  exists c s, numberToString n = String c s
              /\ isJsonSpace c = false
              /\ Ascii.eqb c "n" = false /\ Ascii.eqb c "t" = false
              /\ Ascii.eqb c "f" = false /\ Ascii.eqb c quoteChar = false
              /\ Ascii.eqb c "[" = false /\ Ascii.eqb c "{" = false.
Proof.
  intros n. unfold numberToString. destruct (n <? 0).
  - eexists; eexists; split; [reflexivity|]. repeat split.
  - destruct (digits_not_minus (Z.to_nat (Z.log2 n)) n EmptyString) as (c & s & Hd & Hc).
    exists c, s. split; [exact Hd|]. clear Hd.
    destruct c as [[] [] [] [] [] [] [] []]; try discriminate; repeat split.
Qed.

Lemma size_positive : forall v, (1 <= size v)%nat.
Proof. intros v. destruct v; cbn [size]; lia. Qed.

Lemma list_sum_bounds : forall (A : Type) (f : A -> nat) (l : list A),
  (forall x, (1 <= f x)%nat) ->
  (List.length l <= list_sum (map f l))%nat
  /\ forall x, In x l -> (f x <= list_sum (map f l))%nat.
Proof.
  intros A f l Hf. induction l as [|y l [IHlen IHin]]; simpl.
  - split; [lia|intros x []].
  - split; [specialize (Hf y); lia|].
    intros x [->|Hin]; [lia|]. specialize (IHin x Hin). lia.
Qed.

(** Parsing the text of a value gives the value back and leaves what
    follows the text. *)
Lemma parseValue_serialize : forall v indent fuel rest,
  allSpaces indent = true -> (size v <= fuel)%nat -> endsNumber rest = true ->
  parseValue fuel (serialize indent v ++ rest) = Some (v, rest).
Proof.
  induction v as [ |b|n|s|items IH|members IH] using value_nested_ind;
    intros indent fuel rest Hindent Hfuel Hrest;
    (destruct fuel as [|fuel];
     [match type of Hfuel with (size ?x <= 0)%nat => pose proof (size_positive x) end; lia|]).
  - reflexivity.
  - destruct b; reflexivity.
  - cbn [serialize parseValue].
    destruct (number_head n) as (c & s & Hn & Hspace & H1 & H2 & H3 & H4 & H5 & H6).
    pose proof (parseNumber_numberToString n rest Hrest) as Hparse.
    rewrite Hn in *. cbn [append skipSpaces] in *.
    rewrite Hspace, H1, H2, H3, H4, H5, H6. now rewrite Hparse.
  - cbn [serialize parseValue]. rewrite quote_append.
    cbn [skipSpaces]. change (isJsonSpace quoteChar) with false. cbn iota.
    change (Ascii.eqb quoteChar "n") with false.
    change (Ascii.eqb quoteChar "t") with false.
    change (Ascii.eqb quoteChar "f") with false.
    change (Ascii.eqb quoteChar quoteChar) with true. cbn iota.
    now rewrite parseChars_escapeChars.
  - destruct items as [|x items]; [reflexivity|].
    assert (Hinner : allSpaces (indent ++ "  ") = true) by now apply allSpaces_inner.
    destruct (list_sum_bounds value size (x :: items) size_positive) as [Hlen Hsize].
    cbn [size] in Hfuel.
    assert (Hloop :
      parseElements (parseValue fuel) fuel
        (joinWith ("," ++ newline ++ indent ++ "  ")
           (map (serialize (indent ++ "  ")) (x :: items))
         ++ newline ++ indent ++ String "]" rest)
      = Some (x :: items, rest)).
    { apply parseElements_serialized;
        [apply parseValue_skipsSpaces|exact Hinner|exact Hindent| |discriminate|lia].
      intros y tail Hin Htail. rewrite Forall_forall in IH.
      apply (IH y Hin); [exact Hinner| |exact Htail].
      specialize (Hsize y Hin). lia. }
    change (serialize indent (JArray (x :: items)))
      with ("[" ++ newline ++ (indent ++ "  ")
            ++ joinWith ("," ++ newline ++ indent ++ "  ")
                 (map (serialize (indent ++ "  ")) (x :: items))
            ++ newline ++ indent ++ "]")%string.
    rewrite !append_assoc.
    change ("[" ++ ?t)%string with (String "[" t).
    change ("]" ++ rest)%string with (String "]" rest).
    cbn [parseValue skipSpaces]. change (isJsonSpace "[") with false. cbn iota.
    change (Ascii.eqb "[" "n") with false. change (Ascii.eqb "[" "t") with false.
    change (Ascii.eqb "[" "f") with false. change (Ascii.eqb "[" quoteChar) with false.
    change (Ascii.eqb "[" "[") with true. cbn iota.
    rewrite (skipSpaces_spaces newline) by reflexivity.
    rewrite <- (append_assoc indent "  "), (skipSpaces_spaces (indent ++ "  ")) by exact Hinner.
    rewrite (parseElements_skip (parseValue fuel) (parseValue_skipsSpaces fuel) fuel newline)
      by reflexivity.
    rewrite (parseElements_skip (parseValue fuel) (parseValue_skipsSpaces fuel) fuel
               (indent ++ "  ")) by exact Hinner.
    rewrite Hloop. cbn [map]. rewrite joinWith_cons, append_assoc.
    now rewrite not_closing.
  - destruct members as [|[k x] members]; [reflexivity|].
    assert (Hinner : allSpaces (indent ++ "  ") = true) by now apply allSpaces_inner.
    destruct (list_sum_bounds (string * value) (fun member => size (snd member))
                ((k, x) :: members) (fun member => size_positive (snd member)))
      as [Hlen Hsize].
    cbn [size] in Hfuel.
    assert (Hloop :
      parseMembers (parseValue fuel) fuel
        (joinWith ("," ++ newline ++ indent ++ "  ")
           (map (fun member : string * value =>
                   let (key, item) := member in
                   quote key ++ ": " ++ serialize (indent ++ "  ") item) ((k, x) :: members))
         ++ newline ++ indent ++ String "}" rest)
      = Some ((k, x) :: members, rest)).
    { apply parseMembers_serialized;
        [apply parseValue_skipsSpaces|exact Hinner|exact Hindent| |discriminate|lia].
      intros k0 y tail Hin Htail. rewrite Forall_forall in IH.
      apply (IH (k0, y) Hin); [exact Hinner| |exact Htail].
      specialize (Hsize (k0, y) Hin). cbn [snd] in *. lia. }
    change (serialize indent (JObject ((k, x) :: members)))
      with ("{" ++ newline ++ (indent ++ "  ")
            ++ joinWith ("," ++ newline ++ indent ++ "  ")
                 (map (fun member : string * value =>
                         let (key, item) := member in
                         quote key ++ ": " ++ serialize (indent ++ "  ") item)
                      ((k, x) :: members))
            ++ newline ++ indent ++ "}")%string.
    rewrite !append_assoc.
    change ("{" ++ ?t)%string with (String "{" t).
    change ("}" ++ rest)%string with (String "}" rest).
    cbn [parseValue skipSpaces]. change (isJsonSpace "{") with false. cbn iota.
    change (Ascii.eqb "{" "n") with false. change (Ascii.eqb "{" "t") with false.
    change (Ascii.eqb "{" "f") with false. change (Ascii.eqb "{" quoteChar) with false.
    change (Ascii.eqb "{" "[") with false. change (Ascii.eqb "{" "{") with true. cbn iota.
    rewrite (skipSpaces_spaces newline) by reflexivity.
    rewrite <- (append_assoc indent "  "), (skipSpaces_spaces (indent ++ "  ")) by exact Hinner.
    rewrite (parseMembers_skip (parseValue fuel) fuel newline) by reflexivity.
    rewrite (parseMembers_skip (parseValue fuel) fuel (indent ++ "  ")) by exact Hinner.
    rewrite Hloop. cbn [map]. rewrite joinWith_cons, !append_assoc, quote_append.
    reflexivity.
Qed.

(** [JSON.parse(JSON.stringify(v, null, 2))] is [v]. *)
Lemma parse_stringify : forall v, parse (stringify v) = Ok v.
Proof.
  intros v. unfold parse, stringify.
  assert (Hlen : (size v <= S (String.length (serialize EmptyString v)))%nat).
  { clear. generalize EmptyString.
    induction v as [ |b|n|s|items IH|members IH] using value_nested_ind; intros indent;
      try (cbn [size]; lia).
    - destruct items as [|x items]; [cbn; lia|].
      change (serialize indent (JArray (x :: items)))
        with ("[" ++ newline ++ (indent ++ "  ")
              ++ joinWith ("," ++ newline ++ indent ++ "  ")
                   (map (serialize (indent ++ "  ")) (x :: items))
              ++ newline ++ indent ++ "]")%string.
      cbn [size]. rewrite !length_append.
      assert (Hsum : (list_sum (map size (x :: items))
                      <= String.length
                           (joinWith ("," ++ newline ++ indent ++ "  ")
                              (map (serialize (indent ++ "  ")) (x :: items)))
                         + 1)%nat).
      { clear - IH. induction IH as [|y l Hy Hl IHl]; [cbn; lia|].
        cbn [map]. rewrite joinWith_cons, length_append. simpl list_sum.
        specialize (Hy (indent ++ "  ")%string).
        destruct l as [|z l]; [cbn in *; lia|].
        cbn [map] in *. rewrite !length_append. cbn [String.length] in *. lia. }
      cbn [String.length]. lia.
    - destruct members as [|[k x] members]; [cbn; lia|].
      change (serialize indent (JObject ((k, x) :: members)))
        with ("{" ++ newline ++ (indent ++ "  ")
              ++ joinWith ("," ++ newline ++ indent ++ "  ")
                   (map (fun member : string * value =>
                           let (key, item) := member in
                           quote key ++ ": " ++ serialize (indent ++ "  ") item)
                        ((k, x) :: members))
              ++ newline ++ indent ++ "}")%string.
      cbn [size]. rewrite !length_append.
      assert (Hsum : (list_sum (map (fun member => size (snd member)) ((k, x) :: members))
                      <= String.length
                           (joinWith ("," ++ newline ++ indent ++ "  ")
                              (map (fun member : string * value =>
                                      let (key, item) := member in
                                      quote key ++ ": " ++ serialize (indent ++ "  ") item)
                                   ((k, x) :: members)))
                         + 1)%nat).
      { clear - IH. induction IH as [|[k0 y] l Hy Hl IHl]; [cbn; lia|].
        cbn [map]. rewrite joinWith_cons, !length_append. simpl list_sum.
        cbn [snd] in Hy. specialize (Hy (indent ++ "  ")%string).
        destruct l as [|z l]; [cbn in *; lia|].
        cbn [map] in *. rewrite !length_append. cbn [String.length] in *. lia. }
      cbn [String.length]. lia. }
  pose proof (parseValue_serialize v EmptyString _ EmptyString eq_refl Hlen eq_refl) as H.
  rewrite append_empty_r in H. rewrite H. reflexivity.
Qed.

End JsonFacts.

(** ** C9: the snapshot file *)

Module SnapshotFacts.

Import Json FileUtils BackupManager Scenario ManagerFacts.

Lemma findOperation_updated : forall id k ops k0,
  findOperation id ops = Some k0 -> findOperation id (updateOperation id k ops) = Some k.
Proof.
  intros id k ops k0. induction ops as [|[i k1] ops IH]; [discriminate|].
  cbn [findOperation updateOperation map fst]. destruct (Nat.eqb i id) eqn:E.
  - intros _. cbn [findOperation]. now rewrite Nat.eqb_refl.
  - intros H. cbn [findOperation]. rewrite E. now apply IH.
Qed.

(** C9: [loadJSON] returns the very collection [saveToJSON] wrote, so the
    sequence has the same length and the same records; the file holds the
    text of the array and nothing around it.  Through the manager: when
    the directory check and the write of an operation succeed and the
    accessor returned an array, [backup:completed] carries the generated
    name and the file under that name in the backup directory loads as
    that array. *)
Theorem snapshot_round_trips :
  (forall cwd disk students filePath,
     let saved := saveToJSON cwd (JArray students) filePath in
     snd saved = stringify (JArray students)
     /\ loadJSON cwd (readFile (writeFile disk (fst saved) (snd saved))) filePath
        = Ok (JArray students))
  /\ (forall s id suspended w w' students,
        uncaught s = None ->
        findOperation id (operations s) = Some suspended ->
        suspended = AwaitAccess \/ suspended = AwaitMkdir ->
        getStudentsCallback w = Ok (JArray students) ->
        let s1 := step s (Settles id (Ok tt) w) in
        let s2 := step s1 (Settles id (Ok tt) w') in
        let backupFileName := generateBackupFileName (now w) in
        newlyEmitted s s2 = [BackupCompleted backupFileName]
        /\ exists loaded,
             loadJSON (cwd w) (readFile (disk s2)) (Path.join backupDirectory backupFileName)
             = Ok (JArray loaded)
             /\ loaded = students
             /\ List.length loaded = List.length students).
Proof.
  split.
  - intros cwd disk students filePath saved. unfold saved, saveToJSON, loadJSON.
    cbn [fst snd]. split; [reflexivity|].
    unfold readFile, writeFile. rewrite String.eqb_refl.
    apply JsonFacts.parse_stringify.
  - intros s id suspended w w' students Hu Hf Hk Hcb s1 s2 backupFileName.
    set (path := resolve (cwd w) (Path.join backupDirectory backupFileName)).
    set (json := stringify (JArray students)).
    assert (H1 : s1 = setOperations
                        (updateOperation id (AwaitWrite backupFileName path json) (operations s))
                        (nextOperation s) s).
    { unfold s1, step, settle, continuePerformBackup. rewrite Hu, Hf.
      replace (resumeBody suspended (Ok tt) w)
        with (Suspend (AwaitWrite backupFileName path json)); [reflexivity|].
      destruct Hk as [-> | ->]; cbn [resumeBody]; unfold afterEnsureBackupDirectory;
        now rewrite Hcb. }
    assert (H2 : s2 = setOperations (removeOperation id (operations s1)) (nextOperation s1)
                        (finallyClause
                           (emit (BackupCompleted backupFileName)
                              (setDisk (writeFile (disk s1) path json) s1)))).
    { unfold s2, step, settle, continuePerformBackup.
      replace (uncaught s1) with (@None JsError) by (now rewrite H1).
      replace (findOperation id (operations s1))
        with (Some (AwaitWrite backupFileName path json)); [reflexivity|].
      rewrite H1. cbn [operations setOperations]. symmetry.
      now apply (findOperation_updated id _ _ suspended). }
    split.
    + apply newlyEmitted_app. rewrite H2, H1. reflexivity.
    + exists students. split; [|split; reflexivity].
      rewrite H2. cbn [disk setOperations finallyClause setProgress emit setDisk].
      unfold loadJSON, readFile, writeFile. fold path. rewrite String.eqb_refl.
      apply JsonFacts.parse_stringify.
Qed.

Lemma snapshot_round_trips_witness :
  uncaught started = None
  /\ findOperation 0 (operations started) = Some AwaitAccess
  /\ getStudentsCallback fiveWorld = Ok (JArray fiveStudents)
  /\ newlyEmitted started
       (step (step started (Settles 0 (Ok tt) fiveWorld)) (Settles 0 (Ok tt) fiveWorld))
     = [BackupCompleted "backup-2025-01-02-03-04-05.backup.json"]
  /\ exists loaded,
       loadJSON "/srv"
         (readFile
            (disk (step (step started (Settles 0 (Ok tt) fiveWorld))
                        (Settles 0 (Ok tt) fiveWorld))))
         "backups/backup-2025-01-02-03-04-05.backup.json"
       = Ok (JArray loaded)
       /\ loaded = fiveStudents /\ List.length loaded = 5%nat.
Proof.
  destruct snapshot_round_trips as [_ Hmanager].
  destruct (Hmanager started 0%nat AwaitAccess fiveWorld fiveWorld fiveStudents
              eq_refl eq_refl (or_introl eq_refl) eq_refl)
    as (Hemitted & loaded & Hload & Hsame & Hlength).
  split; [reflexivity|]. split; [reflexivity|]. split; [reflexivity|].
  split; [exact Hemitted|].
  exists loaded. split; [exact Hload|]. split; [exact Hsame|].
  rewrite Hlength. reflexivity.
Defined.

End SnapshotFacts.

(** ** Further properties of the scheduler *)

Module ScheduleFacts.

Import BackupManager Scenario ManagerFacts ManagerShape.

(** X1: in every state a manager can reach, [stop()] emits
    [backup:stopped] when the manager runs and [backup:not-running]
    otherwise, and leaves no live timer; it touches neither the suspended
    operations nor the two progress fields nor the disk.  After it no tick
    does anything, and a second [stop()] only emits [backup:not-running]. *)
Theorem stop_disarms_and_spares_operations : forall intervalMs d events,
  let s := run (create intervalMs d) events in
  let s' := stop s in
  newlyEmitted s s' = [if isRunning s then BackupStopped else BackupNotRunning]
  /\ isRunning s' = false /\ timers s' = []
  /\ operations s' = operations s
  /\ isBackupInProgress s' = isBackupInProgress s
  /\ pendingIntervalsCount s' = pendingIntervalsCount s
  /\ disk s' = disk s
  /\ (forall h, step s' (TimerFires h) = s')
  /\ stop s' = emit BackupNotRunning s'.
Proof.
  intros intervalMs d events s s'.
  assert (Hc : coherent s) by (apply reachable_coherent; now exists intervalMs, d, events).
  unfold coherent in Hc. unfold s', stop, isRunning.
  destruct (intervalId s) as [h|] eqn:Ei.
  - assert (Ht : timers (emit BackupStopped (clearInterval s)) = []).
    { cbn [timers emit clearInterval]. rewrite Ei, Hc. cbn [filter].
      now rewrite Nat.eqb_refl. }
    split; [apply newlyEmitted_app; reflexivity|].
    split; [reflexivity|]. split; [exact Ht|].
    do 4 (split; [reflexivity|]).
    split; [|reflexivity].
    intros h'. now apply tick_without_timer.
  - assert (Ht : timers (emit BackupNotRunning s) = []) by (cbn [timers emit]; exact Hc).
    split; [apply newlyEmitted_app; reflexivity|].
    split; [cbn [intervalId emit]; now rewrite Ei|]. split; [exact Ht|].
    do 4 (split; [reflexivity|]).
    split; [|cbn [intervalId emit]; now rewrite Ei].
    intros h'. now apply tick_without_timer.
Qed.

(** X2: whatever the calls and events, at most one timer is armed;
    [isRunning()] is true exactly when one is, the armed timer is the one
    [#intervalId] holds, and the callback of any other handle (a cleared
    timer) does nothing. *)
Theorem at_most_one_timer_is_armed : forall intervalMs d events,
  let s := run (create intervalMs d) events in
  (List.length (timers s) <= 1)%nat
  /\ (isRunning s = true <-> timers s <> [])
  /\ (forall h, In h (timers s) -> intervalId s = Some h)
  /\ (forall h, ~ In h (timers s) -> step s (TimerFires h) = s).
Proof.
  intros intervalMs d events s.
  assert (Hc : coherent s) by (apply reachable_coherent; now exists intervalMs, d, events).
  unfold coherent in Hc. unfold isRunning. rewrite Hc.
  destruct (intervalId s) as [h|] eqn:Ei; cbn [List.length In].
  - split; [lia|]. split; [split; [discriminate|reflexivity]|].
    split; [intros h' [->|[]]; reflexivity|].
    intros h' Hn. unfold step. destruct (uncaught s); [reflexivity|].
    rewrite Hc. cbn [existsb]. destruct (Nat.eqb h' h) eqn:E; [|reflexivity].
    apply Nat.eqb_eq in E. subst h'. exfalso. apply Hn. now left.
  - split; [lia|]. split; [split; [discriminate|intros H; now contradiction H]|].
    split; [intros h' []|].
    intros h' _. now apply tick_without_timer.
Qed.

Lemma step_counter : forall s e,
  coherent s -> counterInBounds s -> counterInBounds (step s e).
Proof.
  intros s e Hc Hall. pose proof Hall as (Hb & H3 & Hop).
  unfold step. destruct (uncaught s); [exact Hall|].
  unfold coherent in Hc. unfold counterInBounds.
  destruct e as [ | | h | id r w | ].
  - unfold start. destruct (intervalId s) eqn:Ei.
    + cbn [pendingIntervalsCount intervalId isBackupInProgress operations emit].
      rewrite Ei. split; [exact Hb|]. split; [|exact Hop].
      intros H. destruct (H3 H) as [Hn _]. discriminate.
    + cbn. split; [lia|]. split; [lia|]. intros _ H. now apply app_eq_nil in H as [_ H].
  - unfold stop. destruct (intervalId s) eqn:Ei.
    + cbn [pendingIntervalsCount intervalId isBackupInProgress operations emit clearInterval].
      split; [exact Hb|]. split; [|exact Hop].
      intros H. destruct (H3 H) as [Hn _]. discriminate.
    + cbn [pendingIntervalsCount intervalId isBackupInProgress operations emit].
      rewrite Ei. exact (conj Hb (conj H3 Hop)).
  - destruct (existsb (Nat.eqb h) (timers s)) eqn:Ex; [|exact Hall].
    assert (Hrun : pendingIntervalsCount s <> 3).
    { intros H. destruct (H3 H) as [Hn _]. rewrite Hn in Hc. now rewrite Hc in Ex. }
    unfold intervalCallback. destruct (isBackupInProgress s) eqn:Ep.
    + cbn [pendingIntervalsCount setProgress].
      destruct (3 <=? pendingIntervalsCount s + 1) eqn:E3.
      * cbn. apply Z.leb_le in E3. split; [lia|]. split; [now split|discriminate].
      * cbn. apply Z.leb_gt in E3. split; [lia|]. split; [lia|].
        intros _. now apply Hop.
    + cbn. split; [lia|]. split; [lia|]. intros _ H. now apply app_eq_nil in H as [_ H].
  - unfold settle. destruct (findOperation id (operations s)) as [k|] eqn:Ef;
      [|exact Hall].
    unfold continuePerformBackup. destruct (resumeBody k r w); cbn.
    + split; [exact Hb|]. split; [exact H3|].
      intros Hp H. apply Hop; [exact Hp|]. unfold updateOperation in H.
      now apply map_eq_nil in H.
    + split; [lia|]. split; [lia|discriminate].
    + split; [lia|]. split; [lia|discriminate].
  - unfold runImmediate. destruct (immediates s); exact Hall.
Qed.

(** X3: whatever the calls and events, the overlap counter stays between
    0 and 3; it is at most 2 while the manager runs and while an operation
    is marked as in progress, and when an operation is marked as in
    progress some call of [#performBackup] is indeed suspended. *)
Theorem overlap_counter_stays_in_bounds : forall intervalMs d events,
  let s := run (create intervalMs d) events in
  0 <= pendingIntervalsCount s <= 3
  /\ (isRunning s = true -> pendingIntervalsCount s <= 2)
  /\ (isBackupInProgress s = true -> pendingIntervalsCount s <= 2 /\ operations s <> []).
Proof.
  intros intervalMs d events s.
  assert (H : counterInBounds s).
  { unfold s. induction events as [|e events IH] using rev_ind.
    - unfold counterInBounds. cbn. split; [lia|]. split; [lia|discriminate].
    - rewrite run_snoc. apply step_counter; [|exact IH].
      apply reachable_coherent. now exists intervalMs, d, events. }
  destruct H as (Hb & H3 & Hop). split; [exact Hb|]. split.
  - intros Hr. destruct (Z.eq_dec (pendingIntervalsCount s) 3) as [E|E]; [|lia].
    destruct (H3 E) as [Hn _]. unfold isRunning in Hr. now rewrite Hn in Hr.
  - intros Hp. split; [|now apply Hop].
    destruct (Z.eq_dec (pendingIntervalsCount s) 3) as [E|E]; [|lia].
    destruct (H3 E) as [_ Hn]. congruence.
Qed.


Lemma settle_raises : forall s id k r w error fileName,
  uncaught s = None ->
  findOperation id (operations s) = Some k ->
  resumeBody k r w = Raises error fileName ->
  step s (Settles id r w)
  = emit (BackupError error)
      (setOperations (removeOperation id (operations s)) (nextOperation s)
         (finallyClause
            (emit (BackupFailed error fileName) (setDisk (leftOnDisk k w (disk s)) s)))).
Proof.
  intros s id k r w error fileName Hu Hf Hb.
  unfold step, settle, continuePerformBackup. now rewrite Hu, Hf, Hb.
Qed.

Lemma settle_suspends : forall s id k r w k',
  uncaught s = None ->
  findOperation id (operations s) = Some k ->
  resumeBody k r w = Suspend k' ->
  step s (Settles id r w)
  = setOperations (updateOperation id k' (operations s)) (nextOperation s) s.
Proof.
  intros s id k r w k' Hu Hf Hb.
  unfold step, settle, continuePerformBackup. now rewrite Hu, Hf, Hb.
Qed.

Lemma settle_completes : forall s id r w backupFileName path json,
  uncaught s = None ->
  findOperation id (operations s) = Some (AwaitWrite backupFileName path json) ->
  step s (Settles id (Ok r) w)
  = setOperations (removeOperation id (operations s)) (nextOperation s)
      (finallyClause
         (emit (BackupCompleted backupFileName)
            (setDisk (FileUtils.writeFile (disk s) path json) s))).
Proof.
  intros s id r w backupFileName path json Hu Hf.
  unfold step, settle, continuePerformBackup. now rewrite Hu, Hf.
Qed.

(** X4 ([#ensureBackupDirectory]): when [fs.access] fails with the code
    [ENOENT] the operation goes on to [fs.mkdir] without a notification; a
    failure of [fs.mkdir] then fails the operation with a [null] file name,
    and its success leads to the snapshot, named after the clock of that
    moment.  Any other failure of [fs.access] fails the operation at once,
    with a [null] file name and nothing written. *)
Theorem only_a_missing_directory_is_created : forall s id w error,
  uncaught s = None ->
  findOperation id (operations s) = Some AwaitAccess ->
  let s' := step s (Settles id (Throw error) w) in
  (isENOENT error = true ->
     findOperation id (operations s') = Some AwaitMkdir
     /\ emitted s' = emitted s /\ disk s' = disk s
     /\ isBackupInProgress s' = isBackupInProgress s
     /\ (forall e w1,
           newlyEmitted s' (step s' (Settles id (Throw e) w1))
           = [BackupFailed e None; BackupError e])
     /\ (forall w1 w2 students,
           getStudentsCallback w1 = Ok (Json.JArray students) ->
           newlyEmitted s' (run s' [Settles id (Ok tt) w1; Settles id (Ok tt) w2])
           = [BackupCompleted (generateBackupFileName (now w1))]))
  /\ (isENOENT error = false ->
        newlyEmitted s s' = [BackupFailed error None; BackupError error]
        /\ findOperation id (operations s') = None
        /\ disk s' = disk s).
Proof.
  intros s id w error Hu Hf s'. split.
  - intros He.
    assert (Hs : s' = setOperations (updateOperation id AwaitMkdir (operations s))
                        (nextOperation s) s).
    { apply (settle_suspends s id AwaitAccess); [exact Hu|exact Hf|].
      cbn [resumeBody]. now rewrite He. }
    assert (Hf' : findOperation id (operations s') = Some AwaitMkdir).
    { rewrite Hs. cbn [operations setOperations].
      now apply (SnapshotFacts.findOperation_updated id _ _ AwaitAccess). }
    assert (Hu' : uncaught s' = None) by (now rewrite Hs).
    split; [exact Hf'|]. split; [now rewrite Hs|]. split; [now rewrite Hs|].
    split; [now rewrite Hs|]. split.
    + intros e w1. apply newlyEmitted_app.
      rewrite (settle_raises s' id AwaitMkdir (Throw e) w1 e None Hu' Hf' eq_refl).
      cbn. now rewrite <- app_assoc.
    + intros w1 w2 students Hcb.
      set (name := generateBackupFileName (now w1)).
      set (path := FileUtils.resolve (cwd w1) (Path.join backupDirectory name)).
      set (json := Json.stringify (Json.JArray students)).
      assert (H1 : step s' (Settles id (Ok tt) w1)
                   = setOperations (updateOperation id (AwaitWrite name path json) (operations s'))
                       (nextOperation s') s').
      { apply (settle_suspends s' id AwaitMkdir); [exact Hu'|exact Hf'|].
        cbn [resumeBody]. unfold afterEnsureBackupDirectory. now rewrite Hcb. }
      cbn [run fold_left]. rewrite H1.
      erewrite settle_completes;
        [|exact Hu'|cbn [operations setOperations];
                    now apply (SnapshotFacts.findOperation_updated id _ _ AwaitMkdir)].
      now apply newlyEmitted_app.
  - intros He.
    assert (Hs : s' = emit (BackupError error)
                        (setOperations (removeOperation id (operations s)) (nextOperation s)
                           (finallyClause
                              (emit (BackupFailed error None)
                                 (setDisk (leftOnDisk AwaitAccess w (disk s)) s))))).
    { apply (settle_raises s id AwaitAccess); [exact Hu|exact Hf|].
      cbn [resumeBody]. now rewrite He. }
    split; [apply newlyEmitted_app; rewrite Hs; cbn; now rewrite <- app_assoc|].
    split; [rewrite Hs; cbn; apply findOperation_removed|now rewrite Hs].
Qed.

Lemma only_a_missing_directory_is_created_witness :
  uncaught started = None
  /\ findOperation 0 (operations started) = Some AwaitAccess
  /\ findOperation 0
       (operations (step started (Settles 0 (Throw (SystemError "ENOENT")) exampleWorld)))
     = Some AwaitMkdir
  /\ newlyEmitted started
       (step started (Settles 0 (Throw (SystemError "EACCES")) exampleWorld))
     = [BackupFailed (SystemError "EACCES") None; BackupError (SystemError "EACCES")].
Proof.
  split; [reflexivity|]. split; [reflexivity|].
  destruct (only_a_missing_directory_is_created started 0%nat exampleWorld
              (SystemError "ENOENT") eq_refl eq_refl) as [Hmissing _].
  destruct (only_a_missing_directory_is_created started 0%nat exampleWorld
              (SystemError "EACCES") eq_refl eq_refl) as [_ Hother].
  destruct (Hmissing eq_refl) as (Hk & _). destruct (Hother eq_refl) as (He & _).
  split; [exact Hk|exact He].
Defined.

(** X5: when the accessor returns something that is not an array, or
    throws, the operation fails right after the directory check, with the
    error [Students data is not an array] or the error thrown, and with a
    [null] file name; nothing is written. *)
Theorem collection_that_is_no_array_is_not_written : forall s id k w,
  uncaught s = None ->
  findOperation id (operations s) = Some k ->
  k = AwaitAccess \/ k = AwaitMkdir ->
  let s' := step s (Settles id (Ok tt) w) in
  let notArray := PlainError "Students data is not an array" in
  (forall v, getStudentsCallback w = Ok v -> Json.isArray v = false ->
     newlyEmitted s s' = [BackupFailed notArray None; BackupError notArray]
     /\ disk s' = disk s /\ findOperation id (operations s') = None)
  /\ (forall e, getStudentsCallback w = Throw e ->
        newlyEmitted s s' = [BackupFailed e None; BackupError e]
        /\ disk s' = disk s /\ findOperation id (operations s') = None).
Proof.
  intros s id k w Hu Hf Hk s' notArray.
  assert (Hfail : forall e, resumeBody k (Ok tt) w = Raises e None ->
            newlyEmitted s s' = [BackupFailed e None; BackupError e]
            /\ disk s' = disk s /\ findOperation id (operations s') = None).
  { intros e Hb. unfold s'. rewrite (settle_raises s id k _ w e None Hu Hf Hb).
    split; [apply newlyEmitted_app; cbn; now rewrite <- app_assoc|].
    split; [now destruct Hk as [-> | ->]|]. cbn. apply findOperation_removed. }
  split.
  - intros v Hcb Harr. apply Hfail.
    destruct Hk as [-> | ->]; cbn [resumeBody]; unfold afterEnsureBackupDirectory;
      now rewrite Hcb, Harr.
  - intros e Hcb. apply Hfail.
    destruct Hk as [-> | ->]; cbn [resumeBody]; unfold afterEnsureBackupDirectory;
      now rewrite Hcb.
Qed.

Lemma collection_that_is_no_array_is_not_written_witness :
  uncaught started = None
  /\ findOperation 0 (operations started) = Some AwaitAccess
  /\ Json.isArray (Json.JObject [("students", Json.JArray [])]) = false
  /\ newlyEmitted started (step started (Settles 0 (Ok tt) Examples.objectWorld))
     = [BackupFailed (PlainError "Students data is not an array") None;
        BackupError (PlainError "Students data is not an array")]
  /\ disk (step started (Settles 0 (Ok tt) Examples.objectWorld)) = disk started.
Proof.
  split; [reflexivity|]. split; [reflexivity|]. split; [reflexivity|].
  destruct (collection_that_is_no_array_is_not_written started 0%nat AwaitAccess
              Examples.objectWorld eq_refl eq_refl (or_introl eq_refl)) as [Hobject _].
  destruct (Hobject (Json.JObject [("students", Json.JArray [])]) eq_refl eq_refl)
    as (Hemitted & Hdisk & _).
  split; [exact Hemitted|exact Hdisk].
Defined.

Lemma single_operation_writes_alone : forall s,
  (List.length (operations s) <= 1)%nat -> oneWriterPerFile s.
Proof.
  intros s Hlen id id' name name' path json json' Hin Hin'.
  destruct (operations s) as [|o [|o' rest]]; [contradiction| |cbn in Hlen; lia].
  destruct Hin as [Ho|[]]. destruct Hin' as [Ho'|[]]. rewrite Ho in Ho'. now inversion Ho'.
Qed.

(** A trace of three events along which at most one operation is ever
    suspended. *)
Lemma three_events_write_in_turn : forall s e1 e2 e3,
  (List.length (operations s) <= 1)%nat ->
  (List.length (operations (run s [e1])) <= 1)%nat ->
  (List.length (operations (run s [e1; e2])) <= 1)%nat ->
  (List.length (operations (run s [e1; e2; e3])) <= 1)%nat ->
  writesInTurn s [e1; e2; e3].
Proof.
  intros s e1 e2 e3 H0 H1 H2 H3 n. apply single_operation_writes_alone.
  destruct n as [|[|[|[|n]]]]; cbn [firstn]; assumption.
Qed.

(** X6: a failed operation leaves the timer armed and queues nothing to be
    thrown.  It leaves the disk as it was, with one exception: a write
    that failed after it had opened its file, and that was the only one
    under way to that file, leaves there the part of the text it wrote,
    which is nothing when it failed right after the file was created or
    truncated.  The next tick of the timer starts a new operation, without
    a notification. *)
Theorem failed_operation_is_retried_at_the_next_tick : forall s id k r w error fileName h,
  uncaught s = None ->
  findOperation id (operations s) = Some k ->
  resumeBody k r w = Raises error fileName ->
  In h (timers s) ->
  oneWriterPerFile s ->
  let s' := step s (Settles id r w) in
  let s'' := step s' (TimerFires h) in
  intervalId s' = intervalId s /\ timers s' = timers s
  /\ (forall path,
        disk s' path = disk s path
        \/ exists backupFileName json n,
             k = AwaitWrite backupFileName path json
             /\ writtenBeforeFailure w = Some n
             /\ disk s' path = Some (substring 0 n json))
  /\ (writtenBeforeFailure w = None -> disk s' = disk s)
  /\ uncaught s' = None /\ immediates s' = immediates s
  /\ operations s''
     = (removeOperation id (operations s) ++ [(nextOperation s, AwaitAccess)])%list
  /\ isBackupInProgress s'' = true /\ pendingIntervalsCount s'' = 0
  /\ newlyEmitted s' s'' = [].
Proof.
  intros s id k r w error fileName h Hu Hf Hb Hin _ s' s''.
  assert (Hs : s' = emit (BackupError error)
                      (setOperations (removeOperation id (operations s)) (nextOperation s)
                         (finallyClause
                            (emit (BackupFailed error fileName)
                               (setDisk (leftOnDisk k w (disk s)) s)))))
    by (now apply (settle_raises s id k)).
  assert (Hs' : s'' = performBackup s').
  { unfold s''. rewrite live_timer_fires.
    - unfold intervalCallback. now rewrite Hs.
    - now rewrite Hs.
    - now rewrite Hs. }
  assert (Hd : disk s' = leftOnDisk k w (disk s)) by (now rewrite Hs).
  split; [now rewrite Hs|]. split; [now rewrite Hs|].
  split.
  { intros path. rewrite Hd. destruct k as [| |name p json]; cbn [leftOnDisk]; try now left.
    destruct (writtenBeforeFailure w) as [n|]; cbn [FileUtils.interruptWrite]; [|now left].
    unfold FileUtils.writeFile. destruct (String.eqb path p) eqn:Ep; [|now left].
    apply String.eqb_eq in Ep. subst p. right. now exists name, json, n. }
  split.
  { intros Hnone. rewrite Hd. destruct k; cbn [leftOnDisk]; try reflexivity.
    now rewrite Hnone. }
  split; [now rewrite Hs|]. split; [now rewrite Hs|].
  split; [now rewrite Hs', Hs|]. split; [now rewrite Hs'|]. split; [now rewrite Hs'|].
  apply newlyEmitted_app. rewrite Hs'. cbn. now rewrite app_nil_r.
Qed.

Lemma failed_operation_is_retried_at_the_next_tick_witness :
  uncaught writing = None
  /\ In 0%nat (timers writing)
  /\ oneWriterPerFile writing
  /\ operations
       (run writing [Settles 0 (Throw (SystemError "ENOSPC")) fullDiskWorld; TimerFires 0])
     = [(1%nat, AwaitAccess)]
  /\ disk (step writing (Settles 0 (Throw (SystemError "ENOSPC")) fullDiskWorld))
          "/srv/backups/backup-2025-01-02-03-04-05.backup.json"
     = Some (substring 0 10
               (Json.stringify (Json.JArray [Json.JObject [("id", Json.JString "1")]]))).
Proof.
  assert (Hone : oneWriterPerFile writing).
  { apply single_operation_writes_alone. vm_compute. lia. }
  split; [reflexivity|]. split; [left; reflexivity|]. split; [exact Hone|].
  destruct (failed_operation_is_retried_at_the_next_tick writing 0%nat
              (AwaitWrite "backup-2025-01-02-03-04-05.backup.json"
                 "/srv/backups/backup-2025-01-02-03-04-05.backup.json"
                 (Json.stringify (Json.JArray [Json.JObject [("id", Json.JString "1")]])))
              (Throw (SystemError "ENOSPC")) fullDiskWorld
              (SystemError "ENOSPC") (Some "backup-2025-01-02-03-04-05.backup.json")
              0%nat eq_refl eq_refl eq_refl (or_introl eq_refl) Hone)
    as (_ & _ & Hdisk & _ & _ & _ & Hops & _).
  split; [exact Hops|].
  destruct (Hdisk "/srv/backups/backup-2025-01-02-03-04-05.backup.json")
    as [H|(name & json & n & Hk & Hn & H)].
  - vm_compute in H. discriminate.
  - inversion Hk. inversion Hn. subst. exact H.
Defined.


Lemma findOperation_In : forall id ops k,
  findOperation id ops = Some k -> In (id, k) ops.
Proof.
  intros id ops k. induction ops as [|[i k1] ops IH]; [discriminate|].
  cbn [findOperation]. destruct (Nat.eqb i id) eqn:E.
  - intros H. inversion H. apply Nat.eqb_eq in E. subst. now left.
  - intros H. right. now apply IH.
Qed.

Lemma worldsOf_snoc : forall events e,
  worldsOf (events ++ [e])
  = (worldsOf events ++ match e with Settles _ _ w => [w] | _ => [] end)%list.
Proof.
  intros events e. unfold worldsOf. rewrite flat_map_app. cbn [flat_map].
  now rewrite app_nil_r.
Qed.

Lemma substring_whole : forall s, substring 0 (String.length s) s = s.
Proof. induction s as [|c s IH]; [reflexivity|]. cbn. now rewrite IH. Qed.

Lemma whole_is_initialPart : forall text, initialPart text text.
Proof. intros text. exists (String.length text). symmetry. apply substring_whole. Qed.

Lemma snapshots_grow : forall worlds more d s,
  keepsSnapshots worlds d s -> keepsSnapshots (worlds ++ more) d s.
Proof.
  intros worlds more d s (Hw & Hd). split.
  - intros id name path json Hin. destruct (Hw id name path json Hin) as (w & Hin' & Hs).
    exists w. split; [apply in_or_app; now left|exact Hs].
  - intros path. destruct (Hd path) as [H|(w & name & json & part & Hin & Hrest)]; [now left|].
    right. exists w, name, json, part. split; [apply in_or_app; now left|exact Hrest].
Qed.



Lemma resumed_write_is_snapshot : forall k r w backupFileName path json,
  resumeBody k r w = Suspend (AwaitWrite backupFileName path json) ->
  snapshotOf w backupFileName path json.
Proof.
  intros k r w name path json Eb.
  destruct k as [| |name0 path0 json0], r as [u|e0]; cbn [resumeBody] in Eb;
    try discriminate;
    try (destruct (isENOENT e0); discriminate);
    unfold afterEnsureBackupDirectory in Eb;
    destruct (getStudentsCallback w) as [students|e1] eqn:Ecb; try discriminate;
    destruct students as [| | | |items|]; try discriminate;
    cbn in Eb; inversion Eb; exists items; now repeat split.
Qed.

Lemma completes_only_a_write : forall k r w backupFileName path json,
  resumeBody k r w = Completes backupFileName path json ->
  k = AwaitWrite backupFileName path json.
Proof.
  intros k r w name path json Eb.
  destruct k as [| |name0 path0 json0], r as [u|e0]; cbn [resumeBody] in Eb;
    try discriminate;
    try (destruct (isENOENT e0); discriminate);
    try (unfold afterEnsureBackupDirectory in Eb;
         destruct (getStudentsCallback w) as [students|e1]; try discriminate;
         destruct (negb (Json.isArray students)); discriminate).
  now inversion Eb.
Qed.

Lemma step_snapshots : forall worlds d s e,
  keepsSnapshots worlds d s ->
  keepsSnapshots (worlds ++ match e with Settles _ _ w => [w] | _ => [] end) d (step s e).
Proof.
  intros worlds d s e H.
  set (worlds' := (worlds ++ match e with Settles _ _ w => [w] | _ => [] end)%list).
  pose proof (snapshots_grow worlds (match e with Settles _ _ w => [w] | _ => [] end) d s H)
    as (Hw & Hd).
  fold worlds' in Hw, Hd.
  assert (Hkeep : forall x : State,
            (forall id name path json,
                In (id, AwaitWrite name path json) (operations x) ->
                In (id, AwaitWrite name path json) (operations s)) ->
            disk x = disk s ->
            keepsSnapshots worlds' d x).
  { intros x Hops Hdisk. split.
    - intros id name path json Hin. apply (Hw id name), Hops, Hin.
    - intros path. rewrite Hdisk. apply Hd. }
  assert (Hadd : forall id name path json,
            In (id, AwaitWrite name path json)
               (operations s ++ [(nextOperation s, AwaitAccess)]) ->
            In (id, AwaitWrite name path json) (operations s)).
  { intros id name path json Hin.
    apply in_app_or in Hin as [Hin|[Hin|[]]]; [exact Hin|discriminate]. }
  assert (Hless : forall id i name path json,
            In (i, AwaitWrite name path json) (removeOperation id (operations s)) ->
            In (i, AwaitWrite name path json) (operations s)).
  { intros id i name path json Hin. unfold removeOperation in Hin.
    now apply filter_In in Hin as [Hin _]. }
  unfold step. destruct (uncaught s).
  { apply (Hkeep s); trivial. }
  destruct e as [ | | h | id r w | ].
  - unfold start. destruct (intervalId s); apply Hkeep; trivial.
  - unfold stop. destruct (intervalId s); apply Hkeep; trivial.
  - destruct (existsb (Nat.eqb h) (timers s)); [|apply (Hkeep s); trivial].
    unfold intervalCallback. destruct (isBackupInProgress s); [|apply Hkeep; trivial].
    cbn [pendingIntervalsCount setProgress].
    destruct (3 <=? pendingIntervalsCount s + 1); apply Hkeep; trivial.
  - unfold settle. destruct (findOperation id (operations s)) as [k|] eqn:Ef;
      [|apply (Hkeep s); trivial].
    unfold continuePerformBackup.
    destruct (resumeBody k r w) as [k'|name path json|error name] eqn:Eb.
    + cbn [catchHandler]. split.
      * intros i name path json Hin. cbn [operations setOperations] in Hin.
        unfold updateOperation in Hin. apply in_map_iff in Hin as ([i0 k0] & Heq & Hin).
        cbn [fst] in Heq. destruct (Nat.eqb i0 id).
        -- inversion Heq. subst i k'. exists w. split.
           ++ unfold worlds'. apply in_or_app. right. now left.
           ++ now apply (resumed_write_is_snapshot k r).
        -- inversion Heq. subst i0 k0. now apply (Hw i name).
      * intros path. apply Hd.
    + cbn [catchHandler]. apply completes_only_a_write in Eb. subst k.
      apply findOperation_In in Ef.
      destruct (Hw id name path json Ef) as (w0 & Hin0 & Hshape).
      split.
      * intros i name' path' json' Hin. apply (Hw i name'). now apply (Hless id).
      * intros p. cbn [disk setOperations finallyClause setProgress emit setDisk].
        unfold FileUtils.writeFile. destruct (String.eqb p path) eqn:Ep; [|apply Hd].
        apply String.eqb_eq in Ep. subst p. right. exists w0, name, json, json.
        split; [exact Hin0|]. split; [exact Hshape|].
        split; [apply whole_is_initialPart|reflexivity].
    + cbn [catchHandler]. split.
      * intros i name' path' json' Hin. apply (Hw i name'). now apply (Hless id).
      * intros p. cbn [disk setOperations finallyClause setProgress emit setDisk].
        destruct k as [| |name0 path0 json0]; cbn [leftOnDisk]; try apply Hd.
        destruct (writtenBeforeFailure w) as [n|]; cbn [FileUtils.interruptWrite];
          [|apply Hd].
        unfold FileUtils.writeFile. destruct (String.eqb p path0) eqn:Ep; [|apply Hd].
        apply String.eqb_eq in Ep. subst p. apply findOperation_In in Ef.
        destruct (Hw id name0 path0 json0 Ef) as (w0 & Hin0 & Hshape).
        right. exists w0, name0, json0, (substring 0 n json0).
        split; [exact Hin0|]. split; [exact Hshape|]. split; [now exists n|reflexivity].
  - unfold runImmediate. destruct (immediates s); apply Hkeep; trivial.
Qed.

Lemma reachable_snapshots : forall intervalMs d events,
  keepsSnapshots (worldsOf events) d (run (create intervalMs d) events).
Proof.
  intros intervalMs d events. induction events as [|e events IH] using rev_ind.
  - split; [intros id name p json []|intros p; now left].
  - rewrite run_snoc, worldsOf_snoc. now apply step_snapshots.
Qed.



(** X7: whatever the calls and events, as long as no two writes to one
    file are under way at once, a manager touches no file but its
    snapshots.  What one finds at a path either is what the disk held when
    the manager was created, or lies at [backups/<generated name>] under
    the working directory of a world in which an operation resumed and is
    an initial part of the text of the array the accessor returned there:
    the whole text, or what a write that failed or is still under way has
    written so far. *)
Theorem manager_writes_only_snapshots : forall intervalMs d events path content,
  let s := run (create intervalMs d) events in
  writesInTurn (create intervalMs d) events ->
  mayHold s path content ->
  content = d path
  \/ exists w students part,
       In w (worldsOf events)
       /\ getStudentsCallback w = Ok (Json.JArray students)
       /\ path = FileUtils.resolve (cwd w)
                   (Path.join backupDirectory (generateBackupFileName (now w)))
       /\ initialPart (Json.stringify (Json.JArray students)) part
       /\ content = Some part.
Proof.
  intros intervalMs d events path content s _ Hmay.
  destruct (reachable_snapshots intervalMs d events) as (Hw & Hd). fold s in Hw, Hd.
  assert (Hshape : forall w name json part,
            In w (worldsOf events) -> snapshotOf w name path json ->
            initialPart json part ->
            exists w students part0,
              In w (worldsOf events)
              /\ getStudentsCallback w = Ok (Json.JArray students)
              /\ path = FileUtils.resolve (cwd w)
                          (Path.join backupDirectory (generateBackupFileName (now w)))
              /\ initialPart (Json.stringify (Json.JArray students)) part0
              /\ Some part = Some part0).
  { intros w name json part Hin (students & Hcb & Hname & Hpath & Hjson) Hpart.
    exists w, students, part. subst json name. now repeat split. }
  destruct Hmay as [->|(id & name & json & part & Hin & Hpart & ->)].
  - destruct (Hd path) as [Hp|(w & name & json & part & Hin & Hsnap & Hpart & Hp)];
      [now left|].
    right. rewrite Hp. now apply (Hshape w name json).
  - right. destruct (Hw id name path json Hin) as (w & Hin' & Hsnap).
    now apply (Hshape w name json).
Qed.

Lemma manager_writes_only_snapshots_witness :
  writesInTurn (create defaultIntervalMs FileUtils.emptyDisk)
    [CallStart; Settles 0 (Ok tt) exampleWorld;
     Settles 0 (Throw (SystemError "ENOSPC")) fullDiskWorld]
  /\ mayHold
    (run (create defaultIntervalMs FileUtils.emptyDisk)
       [CallStart; Settles 0 (Ok tt) exampleWorld;
        Settles 0 (Throw (SystemError "ENOSPC")) fullDiskWorld])
    "/srv/backups/backup-2025-01-02-03-04-05.backup.json"
    (Some (substring 0 10
             (Json.stringify (Json.JArray [Json.JObject [("id", Json.JString "1")]]))))
  /\ (Some (substring 0 10
              (Json.stringify (Json.JArray [Json.JObject [("id", Json.JString "1")]])))
      = FileUtils.emptyDisk "/srv/backups/backup-2025-01-02-03-04-05.backup.json"
      \/ exists w students part,
           In w (worldsOf [CallStart; Settles 0 (Ok tt) exampleWorld;
                           Settles 0 (Throw (SystemError "ENOSPC")) fullDiskWorld])
           /\ getStudentsCallback w = Ok (Json.JArray students)
           /\ "/srv/backups/backup-2025-01-02-03-04-05.backup.json"
              = FileUtils.resolve (cwd w)
                  (Path.join backupDirectory (generateBackupFileName (now w)))
           /\ initialPart (Json.stringify (Json.JArray students)) part
           /\ Some (substring 0 10
                      (Json.stringify
                         (Json.JArray [Json.JObject [("id", Json.JString "1")]])))
              = Some part).
Proof.
  assert (Hmay : mayHold
                   (run (create defaultIntervalMs FileUtils.emptyDisk)
                      [CallStart; Settles 0 (Ok tt) exampleWorld;
                       Settles 0 (Throw (SystemError "ENOSPC")) fullDiskWorld])
                   "/srv/backups/backup-2025-01-02-03-04-05.backup.json"
                   (Some (substring 0 10
                            (Json.stringify
                               (Json.JArray [Json.JObject [("id", Json.JString "1")]])))))
    by (left; vm_compute; reflexivity).
  assert (Hturn : writesInTurn (create defaultIntervalMs FileUtils.emptyDisk)
                    [CallStart; Settles 0 (Ok tt) exampleWorld;
                     Settles 0 (Throw (SystemError "ENOSPC")) fullDiskWorld])
    by (apply three_events_write_in_turn; vm_compute; lia).
  split; [exact Hturn|]. split; [exact Hmay|].
  exact (manager_writes_only_snapshots defaultIntervalMs FileUtils.emptyDisk
           [CallStart; Settles 0 (Ok tt) exampleWorld;
            Settles 0 (Throw (SystemError "ENOSPC")) fullDiskWorld]
           "/srv/backups/backup-2025-01-02-03-04-05.backup.json" _ Hturn Hmay).
Defined.



(** *** The books of a manager *)

Lemma count_snoc : forall p s s' more,
  emitted s' = (emitted s ++ more)%list ->
  emittedCount p s' = (emittedCount p s + List.length (filter p more))%nat.
Proof.
  intros p s s' more H. unfold emittedCount. now rewrite H, filter_app, length_app.
Qed.

Lemma removed_one : forall id ops k,
  NoDup (map fst ops) -> findOperation id ops = Some k ->
  S (List.length (removeOperation id ops)) = List.length ops.
Proof.
  intros id ops k. induction ops as [|[i k0] ops IH]; intros Hnodup Hf; [discriminate|].
  cbn [map fst] in Hnodup. inversion Hnodup as [|? ? Hnot Hrest]; subst.
  cbn [findOperation] in Hf. unfold removeOperation in *. cbn [filter fst].
  destruct (Nat.eqb i id) eqn:E; cbn [negb List.length].
  - apply Nat.eqb_eq in E. subst i. f_equal.
    assert (Hall : forall o, In o ops -> negb (Nat.eqb (fst o) id) = true).
    { intros o Ho. apply negb_true_iff, Nat.eqb_neq. intros Heq. apply Hnot.
      rewrite <- Heq. now apply in_map. }
    clear -Hall. induction ops as [|o ops IH]; [reflexivity|].
    cbn [filter]. rewrite (Hall o) by now left. cbn [List.length]. f_equal.
    apply IH. intros o' Ho'. apply Hall. now right.
  - f_equal. now apply IH.
Qed.

Lemma removed_ids : forall id ops i,
  In i (map fst (removeOperation id ops)) -> In i (map fst ops).
Proof.
  intros id ops i H. apply in_map_iff in H as (o & Ho & Hin).
  unfold removeOperation in Hin. apply filter_In in Hin as [Hin _].
  apply in_map_iff. now exists o.
Qed.

Lemma removed_NoDup : forall id ops,
  NoDup (map fst ops) -> NoDup (map fst (removeOperation id ops)).
Proof.
  intros id ops. induction ops as [|[i k] ops IH]; intros H; [constructor|].
  cbn [map fst] in H. inversion H as [|? ? Hnot Hrest]; subst.
  unfold removeOperation in *. cbn [filter fst].
  destruct (negb (Nat.eqb i id)); [|now apply IH].
  cbn [map fst]. constructor; [|now apply IH].
  intros Hin. apply Hnot. now apply (removed_ids id).
Qed.

Lemma updated_ids : forall id k ops,
  findOperation id ops <> None ->
  map fst (updateOperation id k ops) = map fst ops.
Proof.
  intros id k ops _. unfold updateOperation. rewrite map_map. apply map_ext_in.
  intros [i k0] _. cbn [fst]. destruct (Nat.eqb i id) eqn:E; [|reflexivity].
  apply Nat.eqb_eq in E. now subst.
Qed.

Ltac count_notifications s more :=
  match goal with
  | |- context [emittedCount isStarted ?x] =>
      rewrite (count_snoc isStarted s x more eq_refl),
              (count_snoc isHalted s x more eq_refl)
  end.

Ltac count_reports s more :=
  match goal with
  | |- context [emittedCount isCompleted ?x] =>
      rewrite (count_snoc isCompleted s x more eq_refl),
              (count_snoc isFailed s x more eq_refl),
              (count_snoc isError s x more eq_refl)
  end.

Lemma step_accounts : forall s e,
  coherent s -> accountsBalance s -> accountsBalance (step s e).
Proof.
  intros s e Hc Hall. pose proof Hall as (Hrun & Hops & Herr & Hnodup & Hfresh).
  unfold step. destruct (uncaught s); [exact Hall|].
  assert (Hlaunch : forall x more,
            operations x = (operations s ++ [(nextOperation s, AwaitAccess)])%list ->
            nextOperation x = S (nextOperation s) ->
            emitted x = (emitted s ++ more)%list ->
            List.length (filter isCompleted more) = O ->
            List.length (filter isFailed more) = O ->
            List.length (filter isError more) = O ->
            emittedCount isStarted x
            = (emittedCount isHalted x + if isRunning x then 1 else 0)%nat ->
            accountsBalance x).
  { intros x more Ho Hn He Hc0 Hf0 He0 Hr. split; [exact Hr|].
    rewrite (count_snoc isCompleted s x more He), (count_snoc isFailed s x more He),
            (count_snoc isError s x more He), Hc0, Hf0, He0, Ho, Hn.
    rewrite length_app, map_app. cbn [List.length map fst].
    split; [lia|]. split; [lia|]. split.
    - apply NoDup_app; [exact Hnodup|repeat constructor; intros []|].
      intros i Hi [<-|[]]. specialize (Hfresh _ Hi). lia.
    - intros i Hi. apply in_app_or in Hi as [Hi|[<-|[]]]; [|lia].
      specialize (Hfresh _ Hi). lia. }
  assert (Hquiet : forall x more,
            operations x = operations s -> nextOperation x = nextOperation s ->
            emitted x = (emitted s ++ more)%list ->
            List.length (filter isCompleted more) = O ->
            List.length (filter isFailed more) = O ->
            List.length (filter isError more) = O ->
            emittedCount isStarted x
            = (emittedCount isHalted x + if isRunning x then 1 else 0)%nat ->
            accountsBalance x).
  { intros x more Ho Hn He Hc0 Hf0 He0 Hr. split; [exact Hr|].
    rewrite (count_snoc isCompleted s x more He), (count_snoc isFailed s x more He),
            (count_snoc isError s x more He), Hc0, Hf0, He0, Ho, Hn.
    split; [lia|]. split; [lia|]. now split. }
  unfold isRunning, coherent in *.
  destruct e as [ | | h | id r w | ].
  - unfold start. destruct (intervalId s) eqn:Ei.
    + apply (Hquiet _ [BackupAlreadyRunning]); try reflexivity.
      count_notifications s [BackupAlreadyRunning].
      unfold emittedCount, isRunning in *. cbn [intervalId emit]. rewrite Ei. cbn. lia.
    + apply (Hlaunch _ [BackupStarted (backupInterval s # 1000)]); try reflexivity.
      count_notifications s [BackupStarted (backupInterval s # 1000)].
      unfold emittedCount, isRunning in *. cbn. lia.
  - unfold stop. destruct (intervalId s) eqn:Ei.
    + apply (Hquiet _ [BackupStopped]); try reflexivity.
      count_notifications s [BackupStopped].
      unfold emittedCount, isRunning in *. cbn. lia.
    + apply (Hquiet _ [BackupNotRunning]); try reflexivity.
      count_notifications s [BackupNotRunning].
      unfold emittedCount, isRunning in *. cbn [intervalId emit]. rewrite Ei. cbn. lia.
  - destruct (existsb (Nat.eqb h) (timers s)) eqn:Ex; [|exact Hall].
    assert (Hlive : exists h', intervalId s = Some h').
    { destruct (intervalId s) as [h'|]; [now exists h'|]. rewrite Hc in Ex. discriminate. }
    destruct Hlive as [h' Ei].
    unfold intervalCallback. destruct (isBackupInProgress s).
    + cbn [pendingIntervalsCount setProgress].
      destruct (3 <=? pendingIntervalsCount s + 1).
      * apply (Hquiet _ [BackupTimeout timeoutError]); try reflexivity.
        count_notifications s [BackupTimeout timeoutError].
        unfold emittedCount, isRunning in *. cbn. rewrite Ei in Hrun. lia.
      * apply (Hquiet _ []); try reflexivity; [cbn; now rewrite app_nil_r|].
        unfold emittedCount. cbn. exact Hrun.
    + apply (Hlaunch _ []); try reflexivity; [cbn; now rewrite app_nil_r|].
      unfold emittedCount. cbn. exact Hrun.
  - unfold settle. destruct (findOperation id (operations s)) as [k|] eqn:Ef; [|exact Hall].
    unfold continuePerformBackup.
    destruct (resumeBody k r w) as [k'|name path json|error name].
    + cbn [catchHandler]. split; [exact Hrun|].
      cbn [operations nextOperation setOperations]. unfold emittedCount in *.
      cbn [emitted setOperations].
      rewrite updated_ids by (rewrite Ef; discriminate).
      unfold updateOperation. rewrite length_map. now repeat split.
    + cbn [catchHandler].
      pose proof (removed_one id (operations s) k Hnodup Ef) as Hlen.
      split.
      * count_notifications s [BackupCompleted name].
        unfold emittedCount, isRunning in *. cbn. lia.
      * count_reports s [BackupCompleted name].
        cbn [operations nextOperation setOperations finallyClause setProgress emit setDisk
             filter isCompleted isFailed isError List.length].
        split; [lia|]. split; [lia|]. split; [now apply removed_NoDup|].
        intros i Hi. apply Hfresh. now apply (removed_ids id).
    + cbn [catchHandler].
      pose proof (removed_one id (operations s) k Hnodup Ef) as Hlen.
      split.
      * count_notifications (emit (BackupFailed error name) s) [BackupError error].
        count_notifications s [BackupFailed error name].
        unfold emittedCount, isRunning in *. cbn. lia.
      * count_reports (emit (BackupFailed error name) s) [BackupError error].
        count_reports s [BackupFailed error name].
        cbn [operations nextOperation setOperations finallyClause setProgress emit setDisk
             filter isCompleted isFailed isError List.length].
        split; [lia|]. split; [lia|]. split; [now apply removed_NoDup|].
        intros i Hi. apply Hfresh. now apply (removed_ids id).
  - unfold runImmediate. destruct (immediates s); exact Hall.
Qed.

(** X28: whatever the calls and events, the notifications account for
    what the manager did: [backup:started] was emitted once for each
    [backup:stopped] or [backup:timeout], and once more when the manager
    runs; every operation begun is suspended or has emitted exactly one of
    [backup:completed] and [backup:failed]; [backup:error] was emitted as
    often as [backup:failed]; no two suspended operations share a handle. *)
Theorem notifications_account_for_every_operation : forall intervalMs d events,
  let s := run (create intervalMs d) events in
  emittedCount isStarted s
  = (emittedCount isHalted s + if isRunning s then 1 else 0)%nat
  /\ nextOperation s
     = (List.length (operations s) + emittedCount isCompleted s + emittedCount isFailed s)%nat
  /\ emittedCount isError s = emittedCount isFailed s
  /\ NoDup (map fst (operations s)).
Proof.
  intros intervalMs d events s.
  assert (H : accountsBalance s).
  { unfold s. induction events as [|e events IH] using rev_ind.
    - unfold accountsBalance, emittedCount. cbn.
      repeat split; try reflexivity; [constructor|intros id []].
    - rewrite run_snoc. apply step_accounts; [|exact IH].
      apply reachable_coherent. now exists intervalMs, d, events. }
  destruct H as (H1 & H2 & H3 & H4 & _). now repeat split.
Qed.

End ScheduleFacts.

(** ** The calendar and the file names *)

Module CalendarFacts.
Import JsString JsDate NamePattern NameFacts.

Lemma year_of_era_bounds : forall doe, 0 <= doe <= 146096 ->
  0 <= (doe - doe / 1460 + doe / 36524 - doe / 146096) / 365 <= 399.
Proof. intros doe H. Z.div_mod_to_equations. lia. Qed.

Lemma day_of_year_bounds : forall doe, 0 <= doe <= 146096 ->
  let yoe := (doe - doe / 1460 + doe / 36524 - doe / 146096) / 365 in
  0 <= doe - (365 * yoe + yoe / 4 - yoe / 100) <= 365.
Proof. intros doe H yoe. unfold yoe. Z.div_mod_to_equations. lia. Qed.

(** The day number of the date of a day number is that day number, and
    the month and the day of the month are in their ranges. *)
Lemma civil_round_trip : forall z,
  let date := civilFromDays z in
  let y := fst (fst date) in
  let m := snd (fst date) in
  let d := snd date in
  daysFromCivil y m d = z /\ 1 <= m <= 12 /\ 1 <= d <= 31.
Proof.
  intros z. unfold civilFromDays. cbv zeta.
  set (era := (z + 719468) / 146097).
  set (doe := z + 719468 - era * 146097).
  assert (Hdoe : 0 <= doe <= 146096).
  { unfold doe, era. Z.div_mod_to_equations. lia. }
  pose proof (year_of_era_bounds doe Hdoe) as Hyoe.
  pose proof (day_of_year_bounds doe Hdoe) as Hdoy. cbv zeta in Hdoy.
  set (yoe := (doe - doe / 1460 + doe / 36524 - doe / 146096) / 365) in *.
  set (doy := doe - (365 * yoe + yoe / 4 - yoe / 100)) in *.
  set (mp := (5 * doy + 2) / 153).
  assert (Hmp : 0 <= mp <= 11) by (unfold mp; Z.div_mod_to_equations; lia).
  assert (Hd : 1 <= doy - (153 * mp + 2) / 5 + 1 <= 31)
    by (unfold mp; Z.div_mod_to_equations; lia).
  assert (He : (yoe + era * 400) / 400 = era) by (Z.div_mod_to_equations; lia).
  cbn [fst snd]. unfold daysFromCivil. cbv zeta.
  destruct (mp <? 10) eqn:E10.
  - apply Z.ltb_lt in E10.
    replace (mp + 3 <=? 2) with false by (symmetry; apply Z.leb_gt; lia).
    replace (2 <? mp + 3) with true by (symmetry; apply Z.ltb_lt; lia).
    rewrite He. replace (yoe + era * 400 - era * 400) with yoe by lia.
    replace (mp + 3 - 3) with mp by lia.
    split; [unfold doy, doe; lia|]. split; [lia|exact Hd].
  - apply Z.ltb_ge in E10.
    replace (mp - 9 <=? 2) with true by (symmetry; apply Z.leb_le; lia).
    replace (2 <? mp - 9) with false by (symmetry; apply Z.ltb_ge; lia).
    replace (yoe + era * 400 + 1 - 1) with (yoe + era * 400) by lia.
    rewrite He. replace (yoe + era * 400 - era * 400) with yoe by lia.
    replace (mp - 9 + 9) with mp by lia.
    split; [unfold doy, doe; lia|]. split; [lia|exact Hd].
Qed.

Lemma digitChar_injective : forall a b,
  digitChar a = digitChar b -> a mod 10 = b mod 10.
Proof.
  intros a b H. rewrite <- (JsonFacts.digitValue_digitChar a), <- (JsonFacts.digitValue_digitChar b).
  now rewrite H.
Qed.

Lemma two_digits : forall a b, 0 <= a < 100 -> 0 <= b < 100 ->
  (a / 10) mod 10 = (b / 10) mod 10 -> a mod 10 = b mod 10 -> a = b.
Proof. intros a b Ha Hb H1 H0. Z.div_mod_to_equations. lia. Qed.

Lemma four_digits : forall a b, 0 <= a < 10000 -> 0 <= b < 10000 ->
  (a / 1000) mod 10 = (b / 1000) mod 10 -> (a / 100) mod 10 = (b / 100) mod 10 ->
  (a / 10) mod 10 = (b / 10) mod 10 -> a mod 10 = b mod 10 -> a = b.
Proof. intros a b Ha Hb H3 H2 H1 H0. Z.div_mod_to_equations. lia. Qed.

(** The fields of a time value are in their ranges. *)
Lemma utcFields_ranges : forall t,
  let f := utcFields t in
  1 <= month f <= 12 /\ 1 <= day f <= 31
  /\ 0 <= hours f <= 23 /\ 0 <= minutes f <= 59 /\ 0 <= seconds f <= 59
  /\ daysFromCivil (year f) (month f) (day f) = t / msPerDay
  /\ (t mod msPerDay) / 1000 = 3600 * hours f + 60 * minutes f + seconds f.
Proof.
  intros t. unfold utcFields.
  pose proof (civil_round_trip (t / msPerDay)) as H. cbv zeta in H.
  destruct (civilFromDays (t / msPerDay)) as [[y m] d]. cbn [fst snd] in H.
  destruct H as (Hdays & Hm & Hd). cbn [year month day hours minutes seconds].
  split; [exact Hm|]. split; [exact Hd|].
  unfold msPerDay, msPerHour, msPerMinute, msPerSecond in *.
  repeat split; try exact Hdays; Z.div_mod_to_equations; lia.
Qed.

(** A canonical name determines the fields it was made of. *)
Lemma canonical_name_injective : forall f g,
  0 <= year f <= 9999 -> 0 <= year g <= 9999 ->
  0 <= month f < 100 -> 0 <= month g < 100 ->
  0 <= day f < 100 -> 0 <= day g < 100 ->
  0 <= hours f < 100 -> 0 <= hours g < 100 ->
  0 <= minutes f < 100 -> 0 <= minutes g < 100 ->
  0 <= seconds f < 100 -> 0 <= seconds g < 100 ->
  canonicalName f = canonicalName g ->
  year f = year g /\ month f = month g /\ day f = day g
  /\ hours f = hours g /\ minutes f = minutes g /\ seconds f = seconds g.
Proof.
  intros f g Hy Hy' Hm Hm' Hd Hd' Hh Hh' Hmi Hmi' Hs Hs'.
  unfold canonicalName, stampOf, pad4, pad3, pad2. cbn [append]. intros H.
  injection H as Y3 Y2 Y1 Y0 M1 M0 D1 D0 H1 H0 I1 I0 S1 S0.
  apply digitChar_injective in Y3, Y2, Y1, Y0, M1, M0, D1, D0, H1, H0, I1, I0, S1, S0.
  split; [apply four_digits; assumption || lia|].
  repeat split; apply two_digits; assumption.
Qed.

(** Two times of the same second get the same name. *)
Lemma same_second_same_name : forall t1 t2,
  0 <= year (utcFields t1) <= 9999 -> 0 <= year (utcFields t2) <= 9999 ->
  t1 / 1000 = t2 / 1000 ->
  BackupManager.generateBackupFileName t1 = BackupManager.generateBackupFileName t2.
Proof.
  intros t1 t2 Hy1 Hy2 H.
  assert (Ht : truncateToSecond t1 = truncateToSecond t2).
  { unfold truncateToSecond, msPerSecond. Z.div_mod_to_equations. lia. }
  destruct (stamp_ignores_milliseconds t1) as [Hya Hsa].
  destruct (stamp_ignores_milliseconds t2) as [Hyb Hsb].
  rewrite !generated_name_is_canonical by assumption.
  unfold canonicalName. rewrite <- Hsa, <- Hsb. now rewrite Ht.
Qed.

(** X8 ([#generateBackupFileName]): for the years 0 to 9999, two times get
    the same file name exactly when they lie in the same second. *)
Theorem snapshot_names_tell_seconds_apart : forall t1 t2,
  0 <= year (utcFields t1) <= 9999 -> 0 <= year (utcFields t2) <= 9999 ->
  (BackupManager.generateBackupFileName t1 = BackupManager.generateBackupFileName t2
   <-> t1 / 1000 = t2 / 1000).
Proof.
  intros t1 t2 Hy1 Hy2. split; [|now apply same_second_same_name].
  rewrite !generated_name_is_canonical by assumption. intros H.
  pose proof (utcFields_ranges t1) as R1. pose proof (utcFields_ranges t2) as R2.
  cbv zeta in R1, R2.
  destruct R1 as (Rm1 & Rd1 & Rh1 & Ri1 & Rs1 & Days1 & Time1).
  destruct R2 as (Rm2 & Rd2 & Rh2 & Ri2 & Rs2 & Days2 & Time2).
  apply canonical_name_injective in H; try lia.
  destruct H as (Ey & Em & Ed & Eh & Ei & Es).
  rewrite Ey, Em, Ed in Days1. rewrite Eh, Ei, Es in Time1.
  rewrite Days2 in Days1. rewrite <- Time2 in Time1.
  unfold msPerDay in *. Z.div_mod_to_equations. lia.
Qed.

Lemma snapshot_names_tell_seconds_apart_witness :
  0 <= year (utcFields 1735787045678) <= 9999
  /\ 0 <= year (utcFields 1735787045001) <= 9999
  /\ 0 <= year (utcFields 1735787046000) <= 9999
  /\ BackupManager.generateBackupFileName 1735787045678
     = BackupManager.generateBackupFileName 1735787045001
  /\ BackupManager.generateBackupFileName 1735787045678
     <> BackupManager.generateBackupFileName 1735787046000.
Proof.
  assert (H1 : 0 <= year (utcFields 1735787045678) <= 9999)
    by (vm_compute; split; discriminate).
  assert (H2 : 0 <= year (utcFields 1735787045001) <= 9999)
    by (vm_compute; split; discriminate).
  assert (H3 : 0 <= year (utcFields 1735787046000) <= 9999)
    by (vm_compute; split; discriminate).
  destruct (snapshot_names_tell_seconds_apart 1735787045678 1735787045001 H1 H2)
    as [_ Hsame].
  destruct (snapshot_names_tell_seconds_apart 1735787045678 1735787046000 H1 H3)
    as [Hother _].
  split; [exact H1|]. split; [exact H2|]. split; [exact H3|].
  split; [exact (Hsame eq_refl)|].
  intros H. apply Hother in H. vm_compute in H. discriminate.
Defined.

End CalendarFacts.

(** ** Further properties of the reporter *)

Module ReportEdgeFacts.

Import JsString JsDate Json BackupReporter ReportSpec ReportShape ReporterFacts.

Lemma listing_fails : forall env e,
  getBackupFiles env = Throw e <->
  readdir env (FileUtils.resolve (cwd env) backupDirectory) = Throw e /\ isENOENT e = false.
Proof.
  intros env e. unfold getBackupFiles.
  destruct (readdir env (FileUtils.resolve (cwd env) backupDirectory)) as [files|error].
  - split; [discriminate|intros [H _]; discriminate].
  - destruct (isENOENT error) eqn:E.
    + split; [discriminate|]. intros [H He]. inversion H. congruence.
    + split.
      * intros H. inversion H. subst. now split.
      * intros [H _]. exact H.
Qed.

(** X9: [generateReport()] throws in two cases only: [fs.readdir] failed
    with an error other than [ENOENT], which is passed on, or the date
    derived for the first file that loads as an array is invalid, and
    [toISOString] throws its [RangeError].  No failure to read or to parse
    a file makes it throw. *)
Theorem report_throws_only_for_listing_or_date : forall env e,
  generateReport env = Throw e <->
  (readdir env (FileUtils.resolve (cwd env) backupDirectory) = Throw e
   /\ isENOENT e = false)
  \/ (e = RangeError "Invalid time value"
      /\ exists backupFiles filePath,
           getBackupFiles env = Ok backupFiles
           /\ firstSurvivor env backupFiles = Some filePath
           /\ parseTimestampFromFilename env filePath = None).
Proof.
  intros env e. destruct (getBackupFiles env) as [backupFiles|error] eqn:Efiles.
  - destruct backupFiles as [|f rest].
    + unfold generateReport. rewrite Efiles. cbn. split; [discriminate|].
      intros [[Hdir He]|(_ & files & filePath & Hf & Hfirst & _)].
      * exfalso. assert (H : getBackupFiles env = Throw e) by (apply listing_fails; now split).
        congruence.
      * inversion Hf. subst files. discriminate.
    + rewrite (report_of_listing env (f :: rest) Efiles) by discriminate. cbv zeta.
      pose proof (latest_of_first_survivor env (f :: rest)) as Hlatest.
      destruct (firstSurvivor env (f :: rest)) as [filePath|] eqn:Efirst.
      * destruct (parseTimestampFromFilename env filePath) as [t|] eqn:Ep.
        -- destruct Hlatest as [t' ->]. split; [discriminate|].
           intros [[Hdir He]|(_ & files & filePath' & Hf & Hfirst & Hp)].
           ++ assert (H : getBackupFiles env = Throw e) by (apply listing_fails; now split).
              congruence.
           ++ inversion Hf. subst files. rewrite Efirst in Hfirst. inversion Hfirst.
              subst filePath'. congruence.
        -- rewrite Hlatest. split.
           ++ intros H. inversion H. right. split; [reflexivity|].
              now exists (f :: rest), filePath.
           ++ intros [[Hdir He]|(-> & _)]; [|reflexivity].
              assert (H : getBackupFiles env = Throw e) by (apply listing_fails; now split).
              congruence.
      * rewrite Hlatest. split; [discriminate|].
        intros [[Hdir He]|(_ & files & filePath' & Hf & Hfirst & Hp)].
        -- assert (H : getBackupFiles env = Throw e) by (apply listing_fails; now split).
           congruence.
        -- inversion Hf. subst files. congruence.
  - unfold generateReport. rewrite Efiles. split.
    + intros H. inversion H. subst. left. now apply listing_fails.
    + intros [H|(_ & files & filePath & Hf & _)]; [|discriminate].
      apply listing_fails in H. congruence.
Qed.

Lemma survivingFiles_cons : forall env g rest,
  survivingFiles env (g :: rest)
  = match loadedArray env g with
    | Some _ => g :: survivingFiles env rest
    | None => survivingFiles env rest
    end.
Proof.
  intros env g rest. unfold survivingFiles. cbn [filter].
  now destruct (loadedArray env g).
Qed.

Lemma latest_leads : forall env backupFiles acc before f t after,
  latestFile acc = Some (Path.basename f EmptyString) ->
  latestDate acc = Some (Some t) ->
  leads env before f t after ->
  exists before' f' t' after',
    ((before ++ f :: after) ++ survivingFiles env backupFiles = before' ++ f' :: after')%list
    /\ latestFile (fold_left (visitFile env) backupFiles acc)
       = Some (Path.basename f' EmptyString)
    /\ latestDate (fold_left (visitFile env) backupFiles acc) = Some (Some t')
    /\ leads env before' f' t' after'.
Proof.
  intros env backupFiles.
  induction backupFiles as [|g rest IH]; intros acc before f t after Hfile Hdate Hleads.
  - exists before, f, t, after. cbn [survivingFiles filter fold_left].
    rewrite app_nil_r. split; [reflexivity|]. split; [exact Hfile|]. split; [exact Hdate|exact Hleads].
  - cbn [fold_left]. rewrite survivingFiles_cons, visitFile_loaded.
    destruct (loadedArray env g) as [students|]; [|now apply (IH acc before f t after)].
    destruct (countFile_fields env acc g students) as (Hf' & Hd' & _).
    cbn zeta in Hf', Hd'. rewrite Hdate in Hf', Hd'. cbn [isLater] in Hf', Hd'.
    destruct Hleads as (Hf & Hbefore & Hafter).
    destruct (parseTimestampFromFilename env g) as [a|] eqn:Eg.
    + destruct (t <? a) eqn:Elt.
      * apply Z.ltb_lt in Elt.
        destruct (IH (countFile env acc g students) (before ++ f :: after)%list g a []
                     Hf' Hd')
          as (b' & f' & t' & a' & Hsplit & Hfile' & Hdate' & Hleads').
        { split; [exact Eg|]. split; [|intros x tx []].
          intros x tx Hin Hx. apply in_app_or in Hin as [Hin|[<-|Hin]].
          - specialize (Hbefore x tx Hin Hx). lia.
          - rewrite Hf in Hx. inversion Hx. lia.
          - specialize (Hafter x tx Hin Hx). lia. }
        exists b', f', t', a'. split; [|split; [exact Hfile'|split; [exact Hdate'|exact Hleads']]].
        rewrite <- Hsplit. now rewrite <- !app_assoc.
      * apply Z.ltb_ge in Elt. rewrite Hfile in Hf'.
        destruct (IH (countFile env acc g students) before f t (after ++ [g])%list Hf' Hd')
          as (b' & f' & t' & a' & Hsplit & Hfile' & Hdate' & Hleads').
        { split; [exact Hf|]. split; [exact Hbefore|].
          intros x tx Hin Hx. apply in_app_or in Hin as [Hin|[<-|[]]].
          - now apply (Hafter x).
          - rewrite Eg in Hx. inversion Hx. lia. }
        exists b', f', t', a'. split; [|split; [exact Hfile'|split; [exact Hdate'|exact Hleads']]].
        rewrite <- Hsplit. rewrite <- !app_assoc. cbn [app]. now rewrite <- app_assoc.
    + rewrite Hfile in Hf'.
      destruct (IH (countFile env acc g students) before f t (after ++ [g])%list Hf' Hd')
        as (b' & f' & t' & a' & Hsplit & Hfile' & Hdate' & Hleads').
      { split; [exact Hf|]. split; [exact Hbefore|].
        intros x tx Hin Hx. apply in_app_or in Hin as [Hin|[<-|[]]].
        - now apply (Hafter x).
        - congruence. }
      exists b', f', t', a'. split; [|split; [exact Hfile'|split; [exact Hdate'|exact Hleads']]].
      rewrite <- Hsplit. rewrite <- !app_assoc. cbn [app]. now rewrite <- app_assoc.
Qed.

Lemma latest_from_scratch : forall env backupFiles acc f0 t0,
  latestDate acc = None ->
  firstSurvivor env backupFiles = Some f0 ->
  parseTimestampFromFilename env f0 = Some t0 ->
  exists before f t after,
    survivingFiles env backupFiles = (before ++ f :: after)%list
    /\ latestFile (fold_left (visitFile env) backupFiles acc)
       = Some (Path.basename f EmptyString)
    /\ latestDate (fold_left (visitFile env) backupFiles acc) = Some (Some t)
    /\ leads env before f t after.
Proof.
  intros env backupFiles.
  induction backupFiles as [|g rest IH]; intros acc f0 t0 Hnone Hfirst Hvalid; [discriminate|].
  cbn [fold_left firstSurvivor] in *. rewrite survivingFiles_cons, visitFile_loaded.
  destruct (loadedArray env g) as [students|]; [|now apply (IH acc f0 t0)].
  inversion Hfirst. subst g.
  destruct (countFile_fields env acc f0 students) as (Hf' & Hd' & _).
  cbn zeta in Hf', Hd'. rewrite Hnone, Hvalid in Hf', Hd'. cbn [isLater] in Hf', Hd'.
  destruct (latest_leads env rest (countFile env acc f0 students) [] f0 t0 [] Hf' Hd')
    as (b' & f' & t' & a' & Hsplit & Hfile' & Hdate' & Hleads').
  { split; [exact Hvalid|]. split; intros x tx []. }
  exists b', f', t', a'. split; [exact Hsplit|split; [exact Hfile'|split; [exact Hdate'|exact Hleads']]].
Qed.

(** X10: when the date derived for the first surviving file is valid, the
    report is returned and [latestBackupFile] is the base name of the first
    surviving file of the greatest valid date: every dated file before it
    is older, none after it is younger, and files with an invalid date are
    passed over.  [latestBackupDatetime] is that date in ISO format. *)
Theorem latest_is_the_first_file_of_the_greatest_date : forall env backupFiles f0 t0,
  getBackupFiles env = Ok backupFiles ->
  firstSurvivor env backupFiles = Some f0 ->
  parseTimestampFromFilename env f0 = Some t0 ->
  exists report before f t after,
    generateReport env = Ok (Summary report)
    /\ survivingFiles env backupFiles = (before ++ f :: after)%list
    /\ latestBackupFile report = Some (Path.basename f EmptyString)
    /\ latestBackupDatetime report = Some (toISOString t)
    /\ parseTimestampFromFilename env f = Some t
    /\ (forall g tg, In g before -> parseTimestampFromFilename env g = Some tg -> tg < t)
    /\ (forall g tg, In g after -> parseTimestampFromFilename env g = Some tg -> tg <= t).
Proof.
  intros env backupFiles f0 t0 Hfiles Hfirst Hvalid.
  destruct (latest_from_scratch env backupFiles initialAccumulator f0 t0 eq_refl Hfirst Hvalid)
    as (before & f & t & after & Hsplit & Hfile & Hdate & Hf & Hbefore & Hafter).
  fold (aggregate env backupFiles) in Hfile, Hdate.
  assert (Hne : backupFiles <> []) by (intros ->; discriminate).
  rewrite (report_of_listing env backupFiles Hfiles Hne). cbv zeta. rewrite Hdate.
  eexists. exists before, f, t, after.
  split; [reflexivity|]. cbn [latestBackupFile latestBackupDatetime].
  now repeat split.
Qed.

Lemma latest_is_the_first_file_of_the_greatest_date_witness :
  getBackupFiles Scenario.twoSnapshotsEnv
  = Ok ["/srv/backups/backup-2025-01-02T03:04:05.backup.json";
        "/srv/backups/backup-2025-01-02T03:04:35.backup.json"]
  /\ exists report before f t after,
       generateReport Scenario.twoSnapshotsEnv = Ok (Summary report)
       /\ survivingFiles Scenario.twoSnapshotsEnv
            ["/srv/backups/backup-2025-01-02T03:04:05.backup.json";
             "/srv/backups/backup-2025-01-02T03:04:35.backup.json"]
          = (before ++ f :: after)%list
       /\ latestBackupFile report = Some (Path.basename f EmptyString)
       /\ latestBackupDatetime report = Some (toISOString t)
       /\ parseTimestampFromFilename Scenario.twoSnapshotsEnv f = Some t
       /\ (forall g tg, In g before ->
             parseTimestampFromFilename Scenario.twoSnapshotsEnv g = Some tg -> tg < t)
       /\ (forall g tg, In g after ->
             parseTimestampFromFilename Scenario.twoSnapshotsEnv g = Some tg -> tg <= t).
Proof.
  split; [reflexivity|].
  apply (latest_is_the_first_file_of_the_greatest_date Scenario.twoSnapshotsEnv
           ["/srv/backups/backup-2025-01-02T03:04:05.backup.json";
            "/srv/backups/backup-2025-01-02T03:04:35.backup.json"]
           "/srv/backups/backup-2025-01-02T03:04:05.backup.json" 1735783445000);
    vm_compute; reflexivity.
Defined.

Lemma function_name_is_not_proto : forall key,
  existsb (String.eqb key) objectPrototypeFunctions = true ->
  String.eqb key "__proto__" = false.
Proof.
  intros key H. destruct (String.eqb key "__proto__") eqn:E; [|reflexivity].
  apply String.eqb_eq in E. subst key. discriminate.
Qed.

Lemma first_increment : forall key,
  CountString
    ("function " ++ (if String.eqb key "constructor" then "Object" else key)
     ++ "() { [native code] }1")
  = CountString (nativeFunctionText key ++ ones 1).
Proof.
  intros key. unfold nativeFunctionText. f_equal.
  rewrite !NameFacts.append_assoc. reflexivity.
Qed.

Lemma inherited_counts : forall env key records o c,
  existsb (String.eqb key) objectPrototypeFunctions = true ->
  0 <= c ->
  ownProperty key o = inheritedAmount key c ->
  ownProperty key (fold_left (countRecord env) records o)
  = inheritedAmount key (c + occurrences env key records).
Proof.
  intros env key records. induction records as [|r records IH]; intros o c Hkey Hc Ho.
  - cbn [fold_left]. rewrite Ho. f_equal. unfold occurrences. cbn. lia.
  - cbn [fold_left]. rewrite occurrences_cons, Z.add_assoc.
    pose proof (function_name_is_not_proto key Hkey) as Hproto.
    apply IH; [exact Hkey| |].
    + destruct (keyOf env r) as [k0|]; [destruct (String.eqb k0 key)|]; lia.
    + unfold countRecord. destruct (keyOf env r) as [k0|];
        [|rewrite Z.add_0_r; exact Ho].
      unfold setProperty. destruct (String.eqb k0 "__proto__") eqn:Ep.
      * apply String.eqb_eq in Ep. subst k0.
        rewrite String.eqb_sym, Hproto. rewrite Z.add_0_r. exact Ho.
      * rewrite ownProperty_assign. destruct (String.eqb k0 key) eqn:E.
        -- apply String.eqb_eq in E. subst k0. unfold incremented. rewrite Ho.
           unfold inheritedAmount. destruct (c =? 0) eqn:Ez.
           ++ apply Z.eqb_eq in Ez. subst c. rewrite Hproto, Hkey.
              cbn [Z.add Z.eqb]. f_equal. apply first_increment.
           ++ apply Z.eqb_neq in Ez.
              replace (c + 1 =? 0) with false by (symmetry; apply Z.eqb_neq; lia).
              replace (Z.to_nat (c + 1)) with (S (Z.to_nat c)) by lia.
              cbn [ones]. rewrite <- NameFacts.append_assoc.
              unfold nativeFunctionText at 1. cbn [append]. reflexivity.
        -- rewrite Z.add_0_r. exact Ho.
Qed.

Lemma proto_is_never_an_own_property : forall env records o,
  ownProperty "__proto__" (fold_left (countRecord env) records o) = ownProperty "__proto__" o.
Proof.
  intros env. induction records as [|r records IH]; intros o; [reflexivity|].
  cbn [fold_left]. rewrite IH. unfold countRecord.
  destruct (keyOf env r) as [k0|]; [|reflexivity].
  unfold setProperty. destruct (String.eqb k0 "__proto__") eqn:Ep; [reflexivity|].
  rewrite ownProperty_assign. now rewrite Ep.
Qed.

(** What a returned summary is made of. *)
Lemma summary_of_report : forall env report,
  generateReport env = Ok (Summary report) ->
  exists backupFiles,
    getBackupFiles env = Ok backupFiles /\ backupFiles <> []
    /\ amountOfBackupFiles report = Z.of_nat (List.length backupFiles)
    /\ latestBackupFile report = latestFile (aggregate env backupFiles)
    /\ studentsGroupedById report
       = sortedEntries env (studentIdCounts (aggregate env backupFiles)).
Proof.
  intros env report. destruct (getBackupFiles env) as [backupFiles|error] eqn:Efiles.
  - destruct backupFiles as [|f rest].
    + unfold generateReport. rewrite Efiles. discriminate.
    + rewrite (report_of_listing env (f :: rest) Efiles) by discriminate. cbv zeta.
      intros H. exists (f :: rest). split; [reflexivity|]. split; [discriminate|].
      destruct (latestDate (aggregate env (f :: rest))) as [[t|]|];
        try discriminate; inversion H; now repeat split.
  - unfold generateReport. rewrite Efiles. discriminate.
Qed.

Lemma counts_of_report : forall env backupFiles,
  studentIdCounts (aggregate env backupFiles)
  = fold_left (countRecord env) (countedRecords env backupFiles) []
  /\ NoDup (map fst (studentIdCounts (aggregate env backupFiles))).
Proof.
  intros env backupFiles.
  destruct (aggregate_totals env backupFiles initialAccumulator) as (Hc & _).
  cbv zeta in Hc. fold (aggregate env backupFiles) in Hc.
  cbn [studentIdCounts initialAccumulator] in Hc. split; [exact Hc|].
  rewrite Hc. apply NoDup_counts. constructor.
Qed.

(** X11: in a returned report an id that is the name of a function of
    [Object.prototype] ([constructor], [toString], ...) is listed with a
    text, the source text of the function followed by one [1] per record
    counted, and not with a number; the id [__proto__] is never listed;
    every other id is listed with a number.  The records counted are those
    the loop comes to: in a file one of whose ids cannot be turned into a
    string, those before that id. *)
Theorem inherited_names_are_listed_with_text : forall env report,
  generateReport env = Ok (Summary report) ->
  exists backupFiles,
    getBackupFiles env = Ok backupFiles
    /\ (forall key v,
          In key objectPrototypeFunctions ->
          (In (key, v) (studentsGroupedById report)
           <-> inheritedAmount key (occurrences env key (countedRecords env backupFiles))
               = Some v))
    /\ (forall v, ~ In ("__proto__", v) (studentsGroupedById report))
    /\ (forall key v,
          In (key, v) (studentsGroupedById report) ->
          (isInherited key = true <-> exists text, v = CountString text)).
Proof.
  intros env report Hreport.
  destruct (summary_of_report env report Hreport)
    as (backupFiles & Hfiles & _ & _ & _ & Hgroups).
  destruct (counts_of_report env backupFiles) as [Hcounts Hnodup].
  exists backupFiles. split; [exact Hfiles|].
  assert (Hin : forall key v,
            In (key, v) (studentsGroupedById report)
            <-> ownProperty key
                  (fold_left (countRecord env) (countedRecords env backupFiles) [])
                = Some v).
  { intros key v. rewrite Hgroups.
    rewrite (Permutation_in' (eq_refl (key, v)) (sortedEntries_perm env _)).
    rewrite (ownProperty_In _ key v Hnodup). now rewrite Hcounts. }
  assert (Hfunction : forall key,
            In key objectPrototypeFunctions ->
            existsb (String.eqb key) objectPrototypeFunctions = true).
  { intros key Hkey. apply existsb_exists. exists key. split; [exact Hkey|].
    apply String.eqb_refl. }
  split; [|split].
  - intros key v Hkey. rewrite Hin.
    rewrite (inherited_counts env key _ [] 0 (Hfunction key Hkey)); [|lia|reflexivity].
    now rewrite Z.add_0_l.
  - intros v H. apply Hin in H. rewrite proto_is_never_an_own_property in H. discriminate.
  - intros key v H. apply Hin in H.
    destruct (isInherited key) eqn:Einh.
    + split; [intros _|reflexivity].
      unfold isInherited in Einh. apply orb_true_iff in Einh as [Ep|Ef].
      * apply String.eqb_eq in Ep. subst key.
        rewrite proto_is_never_an_own_property in H. discriminate.
      * rewrite (inherited_counts env key _ [] 0 Ef) in H; [|lia|reflexivity].
        unfold inheritedAmount in H.
        destruct (0 + occurrences env key (countedRecords env backupFiles) =? 0);
          [discriminate|]. inversion H. eauto.
    + split; [discriminate|]. intros [text ->].
      rewrite (counts_are_occurrences env _ [] (fun _ => 0)) in H;
        [|lia|reflexivity|exact Einh].
      unfold counted in H.
      destruct (0 + occurrences env key (countedRecords env backupFiles) =? 0); discriminate.
Qed.

Lemma inherited_names_are_listed_with_text_witness :
  exists report,
    generateReport Examples.prototypeIdsEnv = Ok (Summary report)
    /\ In ("constructor", CountString "function Object() { [native code] }11")
          (studentsGroupedById report)
    /\ (forall v, ~ In ("__proto__", v) (studentsGroupedById report)).
Proof.
  destruct (generateReport Examples.prototypeIdsEnv) as [[amount message|report]|e] eqn:E;
    [vm_compute in E; discriminate| |vm_compute in E; discriminate].
  exists report. split; [reflexivity|].
  destruct (inherited_names_are_listed_with_text Examples.prototypeIdsEnv report E)
    as (backupFiles & Hfiles & Hfunctions & Hproto & _).
  split; [|exact Hproto].
  apply (Hfunctions "constructor"); [left; reflexivity|].
  vm_compute in Hfiles. injection Hfiles as <-. vm_compute. reflexivity.
Defined.

Lemma nothing_survives : forall env backupFiles acc,
  survivingFiles env backupFiles = [] ->
  fold_left (visitFile env) backupFiles acc = acc.
Proof.
  intros env backupFiles. induction backupFiles as [|f rest IH]; intros acc H; [reflexivity|].
  cbn [fold_left]. rewrite survivingFiles_cons in H. rewrite visitFile_loaded.
  destruct (loadedArray env f); [discriminate|now apply IH].
Qed.

(** X12: [amountOfBackupFiles] counts every name of the listing that ends
    in [.backup.json], whether the file can be read or not; when none of
    these files loads as an array the report is still returned, with [null]
    for the latest file and its date, an empty list and the average 0. *)
Theorem unreadable_files_are_counted_but_not_read : forall env files,
  readdir env (FileUtils.resolve (cwd env) backupDirectory) = Ok files ->
  let matching := filter (fun file => endsWith file ".backup.json") files in
  let backupFiles :=
    map (fun file => Path.join (FileUtils.resolve (cwd env) backupDirectory) file) matching in
  matching <> [] ->
  (forall report, generateReport env = Ok (Summary report) ->
     amountOfBackupFiles report = Z.of_nat (List.length matching))
  /\ (survivingFiles env backupFiles = [] ->
        generateReport env
        = Ok (Summary {| amountOfBackupFiles := Z.of_nat (List.length matching);
                         latestBackupFile := None;
                         latestBackupDatetime := None;
                         studentsGroupedById := [];
                         averageAmountOfStudents := 0 # 100 |})).
Proof.
  intros env files Hdir matching backupFiles Hne.
  assert (Hfiles : getBackupFiles env = Ok backupFiles).
  { unfold getBackupFiles. now rewrite Hdir. }
  assert (Hne' : backupFiles <> []).
  { unfold backupFiles. destruct matching; [now contradiction Hne|discriminate]. }
  assert (Hlen : List.length backupFiles = List.length matching)
    by (unfold backupFiles; apply length_map).
  split.
  - intros report Hreport.
    destruct (summary_of_report env report Hreport) as (l & Hl & _ & Hamount & _).
    rewrite Hfiles in Hl. inversion Hl. subst l. now rewrite Hamount, Hlen.
  - intros Hnone. rewrite (report_of_listing env backupFiles Hfiles Hne'). cbv zeta.
    unfold aggregate. rewrite (nothing_survives env backupFiles _ Hnone).
    cbn [latestDate latestFile studentIdCounts totalFilesWithStudents initialAccumulator].
    now rewrite Hlen.
Qed.

Lemma unreadable_files_are_counted_but_not_read_witness :
  readdir Examples.unreadableEnv
    (FileUtils.resolve (cwd Examples.unreadableEnv) backupDirectory)
  = Ok ["a.backup.json"; "b.backup.json"; "notes.txt"]
  /\ generateReport Examples.unreadableEnv
     = Ok (Summary {| amountOfBackupFiles := 2;
                      latestBackupFile := None;
                      latestBackupDatetime := None;
                      studentsGroupedById := [];
                      averageAmountOfStudents := 0 # 100 |}).
Proof.
  split; [reflexivity|].
  destruct (unreadable_files_are_counted_but_not_read Examples.unreadableEnv
              ["a.backup.json"; "b.backup.json"; "notes.txt"] eq_refl)
    as [_ Hnone]; [discriminate|].
  exact (Hnone eq_refl).
Defined.



(** *** The order of the listing *)

Lemma filter_length_perm : forall {A : Type} (p : A -> bool) l l',
  Permutation l l' -> List.length (filter p l) = List.length (filter p l').
Proof.
  intros A p l l' H. induction H as [|x l l' H IH|x y l|l l' l'' H1 IH1 H2 IH2].
  - reflexivity.
  - cbn [filter]. destruct (p x); cbn [List.length]; now rewrite IH.
  - cbn [filter]. destruct (p x), (p y); reflexivity.
  - now rewrite IH1.
Qed.

Lemma concat_perm : forall {A : Type} (l l' : list (list A)),
  Permutation l l' -> Permutation (List.concat l) (List.concat l').
Proof.
  intros A l l' H. induction H as [|x l l' H IH|x y l|l l' l'' H1 IH1 H2 IH2].
  - reflexivity.
  - cbn [List.concat]. now apply Permutation_app_head.
  - cbn [List.concat]. rewrite !app_assoc. apply Permutation_app_tail.
    apply Permutation_app_comm.
  - now rewrite IH1.
Qed.

Lemma survivors_perm : forall env backupFiles backupFiles',
  Permutation backupFiles backupFiles' ->
  Permutation (survivingSnapshots env backupFiles) (survivingSnapshots env backupFiles').
Proof. intros env l l' H. unfold survivingSnapshots. now apply Permutation_flat_map. Qed.

Lemma counted_perm : forall env backupFiles backupFiles',
  Permutation backupFiles backupFiles' ->
  Permutation (countedRecords env backupFiles) (countedRecords env backupFiles').
Proof. intros env l l' H. unfold countedRecords. now apply Permutation_flat_map. Qed.

(** The amount under a key depends on the number of records that carry
    it, whatever the key. *)
Lemma amount_of_occurrences : forall env key records records',
  occurrences env key records = occurrences env key records' ->
  ownProperty key (fold_left (countRecord env) records [])
  = ownProperty key (fold_left (countRecord env) records' []).
Proof.
  intros env key records records' H. destruct (isInherited key) eqn:Einh.
  - unfold isInherited in Einh. apply orb_true_iff in Einh as [Ep|Ef].
    + apply String.eqb_eq in Ep. subst key. now rewrite !proto_is_never_an_own_property.
    + rewrite (inherited_counts env key records [] 0 Ef),
              (inherited_counts env key records' [] 0 Ef);
        try lia; try reflexivity. now rewrite H.
  - rewrite (counts_are_occurrences env records [] (fun _ => 0)),
            (counts_are_occurrences env records' [] (fun _ => 0));
      try lia; try reflexivity; try exact Einh. now rewrite H.
Qed.

Lemma same_properties_perm : forall o o' : list (string * CountValue),
  NoDup (map fst o) -> NoDup (map fst o') ->
  (forall key, ownProperty key o = ownProperty key o') ->
  Permutation o o'.
Proof.
  intros o o' Ho Ho' H. apply NoDup_Permutation.
  - now apply NoDup_map_inv in Ho.
  - now apply NoDup_map_inv in Ho'.
  - intros [k v]. rewrite (ownProperty_In o k v Ho), (ownProperty_In o' k v Ho').
    now rewrite H.
Qed.

Lemma sorted_perm_unique : forall (compare : string -> string -> comparison)
    (l l' : list (string * CountValue)),
  collates compare ->
  tellsApart compare (map fst l) ->
  Sorted (fun a b => compare (fst a) (fst b) <> Gt) l ->
  Sorted (fun a b => compare (fst a) (fst b) <> Gt) l' ->
  NoDup (map fst l) -> Permutation l l' -> l = l'.
Proof.
  intros compare l l' (Hopp & Htrans) Hapart Hl Hl'.
  assert (Hle : Relations_1.Transitive (fun a b : string * CountValue =>
                                          compare (fst a) (fst b) <> Gt)).
  { intros a b c. apply Htrans. }
  apply (Sorted_StronglySorted Hle) in Hl, Hl'.
  revert l' Hl' Hapart. induction Hl as [|a t Ht IH Ha]; intros l' Hl' Hapart Hnodup Hperm.
  - apply Permutation_nil in Hperm. now subst.
  - destruct l' as [|a' t']; [apply Permutation_sym, Permutation_nil in Hperm; discriminate|].
    inversion Hl' as [|? ? Ht' Ha']; subst.
    assert (Hsame : a = a').
    { assert (Hin : In a (a' :: t')) by (eapply Permutation_in; [exact Hperm|now left]).
      assert (Hin' : In a' (a :: t))
        by (eapply Permutation_in; [apply Permutation_sym; exact Hperm|now left]).
      destruct Hin as [Hin|Hin]; [now symmetry|].
      destruct Hin' as [Hin'|Hin']; [exact Hin'|].
      rewrite Forall_forall in Ha, Ha'.
      pose proof (Ha a' Hin') as H1. pose proof (Ha' a Hin) as H2.
      rewrite (Hopp (fst a) (fst a')) in H2.
      destruct (compare (fst a) (fst a')) eqn:E; [| |now contradiction H1].
      - apply Hapart in E; [|now left|right; now apply in_map].
        exfalso. cbn [map] in Hnodup. inversion Hnodup as [|? ? Hnot _].
        apply Hnot. rewrite E. now apply in_map.
      - now contradiction H2. }
    subst a'. f_equal. apply IH; [exact Ht'| | |now apply Permutation_cons_inv in Hperm].
    + intros x y Hx Hy. apply Hapart; now right.
    + cbn [map] in Hnodup. now inversion Hnodup.
Qed.

(** X14: under a collation that tells the ids of the report apart, the
    list [studentsGroupedById], the number of records and the number of
    populated snapshots (hence the average) do not depend on the order in
    which [fs.readdir] lists the files. *)
Theorem groups_and_average_ignore_the_listing_order : forall env backupFiles backupFiles',
  collates (localeCompare env) ->
  tellsApart (localeCompare env) (map fst (studentIdCounts (aggregate env backupFiles))) ->
  Permutation backupFiles backupFiles' ->
  sortedEntries env (studentIdCounts (aggregate env backupFiles))
  = sortedEntries env (studentIdCounts (aggregate env backupFiles'))
  /\ totalStudents (aggregate env backupFiles) = totalStudents (aggregate env backupFiles')
  /\ totalFilesWithStudents (aggregate env backupFiles)
     = totalFilesWithStudents (aggregate env backupFiles').
Proof.
  intros env backupFiles backupFiles' Horder Hapart Hperm.
  pose proof (survivors_perm env _ _ Hperm) as Hsnapshots.
  pose proof (concat_perm _ _ Hsnapshots) as Hrecords.
  fold (survivingRecords env backupFiles) in Hrecords.
  fold (survivingRecords env backupFiles') in Hrecords.
  pose proof (counted_perm env _ _ Hperm) as Hcounted.
  destruct (aggregate_totals env backupFiles initialAccumulator) as (_ & Ht & Hf).
  destruct (aggregate_totals env backupFiles' initialAccumulator) as (_ & Ht' & Hf').
  cbv zeta in Ht, Hf, Ht', Hf'.
  fold (aggregate env backupFiles) in Ht, Hf. fold (aggregate env backupFiles') in Ht', Hf'.
  destruct (counts_of_report env backupFiles) as [Hc Hnodup].
  destruct (counts_of_report env backupFiles') as [Hc' Hnodup'].
  split; [|split].
  - assert (Hcounts : Permutation (studentIdCounts (aggregate env backupFiles))
                                  (studentIdCounts (aggregate env backupFiles'))).
    { apply same_properties_perm; [exact Hnodup|exact Hnodup'|].
      intros key. rewrite Hc, Hc'. apply amount_of_occurrences.
      unfold occurrences. f_equal. now apply filter_length_perm. }
    pose proof Horder as (Hopp & _).
    apply (sorted_perm_unique (localeCompare env)); [exact Horder| | | | |].
    + intros a b Ha Hb. apply Hapart.
      * eapply Permutation_in; [|exact Ha]. apply Permutation_map, sortedEntries_perm.
      * eapply Permutation_in; [|exact Hb]. apply Permutation_map, sortedEntries_perm.
    + unfold sortedEntries.
      apply (sortBy_sorted (fun a b => localeCompare env (fst a) (fst b))).
      intros a b. apply Hopp.
    + unfold sortedEntries.
      apply (sortBy_sorted (fun a b => localeCompare env (fst a) (fst b))).
      intros a b. apply Hopp.
    + eapply Permutation_NoDup; [|exact Hnodup].
      apply Permutation_map. symmetry. apply sortedEntries_perm.
    + rewrite !sortedEntries_perm. exact Hcounts.
  - rewrite Ht, Ht'. f_equal. f_equal. now apply Permutation_length.
  - rewrite Hf, Hf'. f_equal. unfold populated. f_equal. now apply filter_length_perm.
Qed.

Lemma ascii_compare_trans : forall a b c,
  Ascii.compare a b = Lt -> Ascii.compare b c = Lt -> Ascii.compare a c = Lt.
Proof.
  intros a b c. unfold Ascii.compare. rewrite !N.compare_lt_iff. apply N.lt_trans.
Qed.

Lemma string_compare_trans : forall a b c,
  String.compare a b = Lt -> String.compare b c = Lt -> String.compare a c = Lt.
Proof.
  induction a as [|x a IH]; intros [|y b] [|z c]; cbn [String.compare];
    try discriminate; try reflexivity.
  destruct (Ascii.compare x y) eqn:Exy; try discriminate;
    destruct (Ascii.compare y z) eqn:Eyz; try discriminate; intros Hab Hbc.
  - apply Ascii.compare_eq_iff in Exy, Eyz. subst y z.
    replace (Ascii.compare x x) with Eq; [now apply (IH b)|].
    symmetry. unfold Ascii.compare. apply N.compare_refl.
  - apply Ascii.compare_eq_iff in Exy. subst y. now rewrite Eyz.
  - apply Ascii.compare_eq_iff in Eyz. subst z. now rewrite Exy.
  - now rewrite (ascii_compare_trans x y z).
Qed.

Lemma string_compare_collates : collates String.compare.
Proof.
  split; [intros a b; apply String.compare_antisym|].
  intros a b c Hab Hbc.
  destruct (String.compare a b) eqn:Eab; [| |now contradiction Hab].
  - apply String.compare_eq_iff in Eab. now subst b.
  - destruct (String.compare b c) eqn:Ebc; [| |now contradiction Hbc].
    + apply String.compare_eq_iff in Ebc. subst c. rewrite Eab. discriminate.
    + rewrite (string_compare_trans _ _ _ Eab Ebc). discriminate.
Qed.

Lemma groups_and_average_ignore_the_listing_order_witness :
  collates (localeCompare Scenario.twoSnapshotsEnv)
  /\ tellsApart (localeCompare Scenario.twoSnapshotsEnv)
       (map fst
          (studentIdCounts
             (aggregate Scenario.twoSnapshotsEnv
                ["/srv/backups/backup-2025-01-02T03:04:05.backup.json";
                 "/srv/backups/backup-2025-01-02T03:04:35.backup.json"])))
  /\ Permutation
       ["/srv/backups/backup-2025-01-02T03:04:05.backup.json";
        "/srv/backups/backup-2025-01-02T03:04:35.backup.json"]
       Examples.twoSnapshotsReversed
  /\ sortedEntries Scenario.twoSnapshotsEnv
       (studentIdCounts
          (aggregate Scenario.twoSnapshotsEnv
             ["/srv/backups/backup-2025-01-02T03:04:05.backup.json";
              "/srv/backups/backup-2025-01-02T03:04:35.backup.json"]))
     = sortedEntries Scenario.twoSnapshotsEnv
         (studentIdCounts (aggregate Scenario.twoSnapshotsEnv Examples.twoSnapshotsReversed)).
Proof.
  assert (Hapart : tellsApart (localeCompare Scenario.twoSnapshotsEnv)
                     (map fst
                        (studentIdCounts
                           (aggregate Scenario.twoSnapshotsEnv
                              ["/srv/backups/backup-2025-01-02T03:04:05.backup.json";
                               "/srv/backups/backup-2025-01-02T03:04:35.backup.json"])))).
  { intros a b _ _. apply String.compare_eq_iff. }
  split; [exact string_compare_collates|]. split; [exact Hapart|].
  split; [apply perm_swap|].
  destruct (groups_and_average_ignore_the_listing_order Scenario.twoSnapshotsEnv
              ["/srv/backups/backup-2025-01-02T03:04:05.backup.json";
               "/srv/backups/backup-2025-01-02T03:04:35.backup.json"]
              Examples.twoSnapshotsReversed string_compare_collates Hapart
              (perm_swap _ _ _))
    as (Hgroups & _).
  exact Hgroups.
Defined.

End ReportEdgeFacts.

(** ** The store of students *)

Module StudentFacts.

Import JsString Json FileUtils Students.

Lemma newStudent_of_json : forall s, newStudent (studentToJson s) = Some s.
Proof.
  intros [i n a g]. destruct i, n, a, g; reflexivity.
Qed.

Lemma newStudents_of_json : forall l, newStudents (map studentToJson l) = Some l.
Proof.
  induction l as [|s l IH]; [reflexivity|].
  cbn [map newStudents]. now rewrite newStudent_of_json, IH.
Qed.

(** X15: [loadStudents()] after a successful [saveStudents()] restores the
    students that were saved, each with its four fields (those that are
    [undefined] too), into any store; [saveStudents()] changes no student
    and no file but [students.json]. *)
Theorem saved_students_load_back : forall cwd st st0,
  let saved := fst (saveStudents cwd Written st) in
  let loaded := loadStudents cwd (readFile (disk saved)) st0 in
  students (fst loaded) = students st
  /\ snd loaded = Returned tt
  /\ students saved = students st
  /\ (forall path, path <> resolve cwd STUDENTS_FILE_PATH -> disk saved path = disk st path).
Proof.
  intros cwd st st0 saved loaded.
  assert (Hload : loadJSON cwd (readFile (disk saved)) STUDENTS_FILE_PATH
                  = Ok (studentsToJson (students st))).
  { unfold saved, saveStudents, saveToJSON, loadJSON. cbn [fst disk emitEvent setStoreDisk].
    unfold readFile, writeFile. rewrite String.eqb_refl.
    apply JsonFacts.parse_stringify. }
  unfold loaded, loadStudents. rewrite Hload. unfold studentsToJson.
  rewrite newStudents_of_json. cbn [fst snd students emitEvent setStudents].
  split; [reflexivity|]. split; [reflexivity|]. split; [reflexivity|].
  intros path Hpath. unfold saved, saveStudents, saveToJSON. cbn [fst disk emitEvent setStoreDisk].
  unfold writeFile. destruct (String.eqb path (resolve cwd STUDENTS_FILE_PATH)) eqn:E;
    [|reflexivity].
  apply String.eqb_eq in E. now contradiction Hpath.
Qed.

Lemma then_saved : forall {A : Type} cwd written st1 event (a : A),
  (let (st2, o) := saveStudents cwd written st1 in
   match o with
   | Returned _ => (emitEvent event st2, Returned a)
   | Raised t => (st2, Raised t)
   end)
  = match written with
    | Written => (emitEvent event (fst (saveStudents cwd Written st1)), Returned a)
    | WriteFailed e progress =>
        (fst (saveStudents cwd (WriteFailed e progress) st1), Raised (OfError e))
    end.
Proof. intros A cwd written st1 event a. now destruct written. Qed.

(** *** [findIndex], [find] and [splice] *)

Lemma findIndex_found : forall {A : Type} (p : A -> bool) l index,
  findIndex p l = Some index ->
  exists before x after,
    l = (before ++ x :: after)%list
    /\ p x = true /\ (forall y, In y before -> p y = false)
    /\ nth_error l index = Some x
    /\ firstn index l = before /\ skipn (S index) l = after
    /\ find p l = Some x.
Proof.
  intros A p l. induction l as [|a l IH]; intros index H; [discriminate|].
  cbn [findIndex] in H. destruct (p a) eqn:Ea.
  - inversion H. subst index. exists [], a, l. cbn [find]. rewrite Ea.
    repeat split; try reflexivity; try assumption. intros y [].
  - destruct (findIndex p l) as [i|] eqn:Ei; [|discriminate].
    inversion H. subst index.
    destruct (IH i eq_refl) as (before & x & after & Hl & Hx & Hb & Hn & Hf & Hs & Hfind).
    exists (a :: before), x, after. cbn [find]. rewrite Ea.
    split; [now rewrite Hl|]. split; [exact Hx|]. split.
    + intros y [<-|Hy]; [exact Ea|now apply Hb].
    + split; [exact Hn|]. split; [cbn [firstn]; now rewrite Hf|]. split; [exact Hs|exact Hfind].
Qed.

Lemma findIndex_missing : forall {A : Type} (p : A -> bool) l,
  findIndex p l = None -> (forall y, In y l -> p y = false) /\ find p l = None.
Proof.
  intros A p l. induction l as [|a l IH]; intros H; [split; [intros y []|reflexivity]|].
  cbn [findIndex] in H. cbn [find]. destruct (p a) eqn:Ea; [discriminate|].
  destruct (findIndex p l); [discriminate|]. destruct (IH eq_refl) as [Hall Hfind].
  split; [|exact Hfind]. intros y [<-|Hy]; [exact Ea|now apply Hall].
Qed.

Lemma updateAt_middle : forall before x after name age group,
  updateAt (List.length before) name age group (before ++ x :: after)
  = (before ++ {| id := id x; name := name; age := age; group := group |} :: after)%list.
Proof.
  induction before as [|b before IH]; intros x after n a g; [reflexivity|].
  cbn [List.length app updateAt]. now rewrite IH.
Qed.

Lemma nth_error_middle : forall {A : Type} (before : list A) x after,
  nth_error (before ++ x :: after) (List.length before) = Some x.
Proof.
  intros A before x after. rewrite nth_error_app2 by lia. now rewrite Nat.sub_diag.
Qed.

(** X16: [removeStudent(id)] takes out the first student whose id is the
    string [id] and keeps the others in their order, also when the save
    fails afterwards and the call rejects; when no student has the id it
    returns [null] and only emits [student:remove:notfound]. *)
Theorem remove_takes_out_the_first_match : forall cwd written id st,
  let result := removeStudent cwd written id st in
  ((forall y, In y (students st) -> hasId id y = false)
   /\ result = (emitEvent (StudentRemoveNotFound id) st, Returned None))
  \/ (exists before x after,
        students st = (before ++ x :: after)%list
        /\ hasId id x = true
        /\ (forall y, In y before -> hasId id y = false)
        /\ students (fst result) = (before ++ after)%list
        /\ snd result = match written with
                        | Written => Returned (Some x)
                        | WriteFailed e _ => Raised (OfError e)
                        end).
Proof.
  intros cwd written id st result. unfold result, removeStudent.
  destruct (findIndex (hasId id) (students st)) as [index|] eqn:Ef.
  - right.
    destruct (findIndex_found _ _ _ Ef)
      as (before & x & after & Hl & Hx & Hb & Hn & Hfirst & Hskip & _).
    exists before, x, after. rewrite Hn, Hfirst, Hskip.
    split; [exact Hl|]. split; [exact Hx|]. split; [exact Hb|].
    rewrite then_saved. now destruct written.
  - left. destruct (findIndex_missing _ _ Ef) as [Hall _]. now split.
Qed.

(** X17: [updateStudent] changes no id and neither the number nor the
    order of the students; it rewrites name, age and group of the first
    student with the id, and returns [null] and changes nothing when there
    is none. *)
Theorem update_changes_one_student_in_place : forall cwd written id name age group st,
  let result := updateStudent cwd written id name age group st in
  map Students.id (students (fst result)) = map Students.id (students st)
  /\ (((forall y, In y (students st) -> hasId id y = false)
       /\ result = (emitEvent (StudentUpdateNotFound id) st, Returned None))
      \/ (exists before x after,
            students st = (before ++ x :: after)%list
            /\ hasId id x = true
            /\ (forall y, In y before -> hasId id y = false)
            /\ let updated :=
                 {| Students.id := Students.id x; Students.name := name;
                    Students.age := age; Students.group := group |} in
               students (fst result) = (before ++ updated :: after)%list
               /\ snd result = match written with
                               | Written => Returned (Some updated)
                               | WriteFailed e _ => Raised (OfError e)
                               end)).
Proof.
  intros cwd written id name age group st result. unfold result, updateStudent.
  destruct (findIndex (hasId id) (students st)) as [index|] eqn:Ef.
  - destruct (findIndex_found _ _ _ Ef)
      as (before & x & after & Hl & Hx & Hb & Hn & Hfirst & Hskip & _).
    assert (Hindex : index = List.length before).
    { rewrite <- Hfirst. rewrite length_firstn.
      assert (index < List.length (students st))%nat
        by (apply nth_error_Some; rewrite Hn; discriminate).
      lia. }
    cbn [students setStudents]. rewrite Hl, Hindex, updateAt_middle, nth_error_middle.
    rewrite then_saved. split.
    + destruct written; cbn [fst students emitEvent setStoreDisk setStudents saveStudents saveToJSON];
        now rewrite !map_app.
    + right. exists before, x, after.
      split; [reflexivity|]. split; [exact Hx|]. split; [exact Hb|].
      cbv zeta. now destruct written.
  - split; [reflexivity|]. left. destruct (findIndex_missing _ _ Ef) as [Hall _]. now split.
Qed.

(** X18: [addStudent], [removeStudent], [updateStudent] and
    [replaceAllStudents] change the array in memory before the file is
    written and do not undo the change when the write fails: memory is as
    after a successful call, and [addStudent] rejects with the error of
    the write.  The file [students.json] is as before when the write
    failed before it opened the file, and else holds the part of the new
    text that was written; no other file changes. *)
Theorem failed_save_keeps_the_change_in_memory : forall cwd e progress st,
  let left (kept : list Student) :=
    interruptWrite (disk st) (resolve cwd STUDENTS_FILE_PATH)
      (Json.stringify (studentsToJson kept)) progress in
  (forall name age group,
     let failed := addStudent cwd (WriteFailed e progress) name age group st in
     students (fst failed)
     = students (fst (addStudent cwd Written name age group st))
     /\ List.length (students (fst failed)) = S (List.length (students st))
     /\ snd failed = Raised (OfError e)
     /\ disk (fst failed) = left (students (fst failed)))
  /\ (forall id,
        let failed := removeStudent cwd (WriteFailed e progress) id st in
        students (fst failed) = students (fst (removeStudent cwd Written id st))
        /\ (disk (fst failed) = disk st
            \/ disk (fst failed) = left (students (fst failed))))
  /\ (forall id name age group,
        let failed := updateStudent cwd (WriteFailed e progress) id name age group st in
        students (fst failed)
        = students (fst (updateStudent cwd Written id name age group st))
        /\ (disk (fst failed) = disk st
            \/ disk (fst failed) = left (students (fst failed))))
  /\ (forall newStudentsValue,
        let failed := replaceAllStudents cwd (WriteFailed e progress) newStudentsValue st in
        students (fst failed)
        = students (fst (replaceAllStudents cwd Written newStudentsValue st))
        /\ (disk (fst failed) = disk st
            \/ disk (fst failed) = left (students (fst failed))))
  /\ (progress = None -> forall kept, left kept = disk st)
  /\ (forall n kept, progress = Some n ->
        left kept (resolve cwd STUDENTS_FILE_PATH)
        = Some (substring 0 n (Json.stringify (studentsToJson kept))))
  /\ (forall kept path, path <> resolve cwd STUDENTS_FILE_PATH ->
        left kept path = disk st path).
Proof.
  intros cwd e progress st left. split; [|split; [|split; [|split; [|split; [|split]]]]].
  - intros name age group failed. unfold failed, addStudent. rewrite !then_saved.
    cbn [fst snd students disk emitEvent setStudents setStoreDisk saveStudents saveToJSON].
    rewrite length_app. cbn [List.length]. repeat split; lia.
  - intros id failed. unfold failed, removeStudent.
    destruct (findIndex (hasId id) (students st)); [|split; [reflexivity|now left]].
    rewrite !then_saved. split; [reflexivity|now right].
  - intros id name age group failed. unfold failed, updateStudent.
    destruct (findIndex (hasId id) (students st)); [|split; [reflexivity|now left]].
    rewrite !then_saved. split; [reflexivity|now right].
  - intros v failed. unfold failed, replaceAllStudents.
    destruct v as [[| | | |items|]|]; try (split; [reflexivity|now left]).
    destruct (validateStudents items); [split; [reflexivity|now left]|].
    destruct (newStudents items); [|split; [reflexivity|now left]].
    rewrite !then_saved. split; [reflexivity|now right].
  - intros -> kept. reflexivity.
  - intros n kept ->. unfold left, interruptWrite, writeFile. now rewrite String.eqb_refl.
  - intros kept path Hpath. unfold left, interruptWrite.
    destruct progress as [n|]; [|reflexivity].
    unfold writeFile. destruct (String.eqb path (resolve cwd STUDENTS_FILE_PATH)) eqn:E;
      [|reflexivity].
    apply String.eqb_eq in E. now contradiction Hpath.
Qed.

(** *** The ids [addStudent] gives *)

Lemma numberToString_injective : forall a b,
  numberToString a = numberToString b -> a = b.
Proof.
  intros a b H.
  pose proof (JsonFacts.parseNumber_numberToString a EmptyString eq_refl) as Ha.
  pose proof (JsonFacts.parseNumber_numberToString b EmptyString eq_refl) as Hb.
  rewrite H in Ha. rewrite Ha in Hb. now inversion Hb.
Qed.

Lemma hasId_of_id : forall x k,
  Students.id x = Some (JString (numberToString k)) ->
  forall j, hasId (numberToString j) x = (j =? k).
Proof.
  intros x k Hx j. unfold hasId. rewrite Hx.
  destruct (j =? k) eqn:E.
  - apply Z.eqb_eq in E. subst j. apply String.eqb_refl.
  - apply String.eqb_neq. intros H. apply numberToString_injective in H.
    apply Z.eqb_neq in E. congruence.
Qed.

Lemma add_appends : forall cwd written name age group st,
  students (fst (addStudent cwd written name age group st))
  = (students st
     ++ [{| id := Some (JString (numberToString (Z.of_nat (List.length (students st)) + 1)));
            name := name; age := age; group := group |}])%list.
Proof.
  intros cwd written name age group st. unfold addStudent. rewrite then_saved.
  now destruct written.
Qed.

Lemma ids_of_addAll : forall cwd entries st,
  map Students.id (students (addAll cwd entries st))
  = (map Students.id (students st)
     ++ map (fun k => Some (JString (numberToString (Z.of_nat k))))
            (seq (S (List.length (students st))) (List.length entries)))%list.
Proof.
  intros cwd entries. induction entries as [|[[name age] group] entries IH]; intros st.
  - cbn. now rewrite app_nil_r.
  - unfold addAll in *. cbn [fold_left]. rewrite IH, add_appends.
    rewrite map_app, length_app, <- app_assoc. cbn [List.length map app seq Students.id].
    replace (Z.of_nat (List.length (students st)) + 1)
      with (Z.of_nat (S (List.length (students st)))) by lia.
    replace (List.length (students st) + 1)%nat with (S (List.length (students st))) by lia.
    reflexivity.
Qed.

Lemma idsUpTo_NoDup : forall n, NoDup (idsUpTo n).
Proof.
  intros n. unfold idsUpTo. generalize (seq_NoDup n 1). generalize (seq 1 n).
  induction l as [|a l IH]; intros H; [constructor|].
  inversion H as [|? ? Hnot Hrest]; subst. cbn [map]. constructor; [|now apply IH].
  intros Hin. apply in_map_iff in Hin as (b & Hb & Hin).
  inversion Hb as [H']. apply numberToString_injective in H'.
  apply Nat2Z.inj in H'. now subst b.
Qed.

Lemma find_by_id : forall l start k,
  map Students.id l
  = map (fun j => Some (JString (numberToString (Z.of_nat j)))) (seq start (List.length l)) ->
  (start <= k < start + List.length l)%nat ->
  find (hasId (numberToString (Z.of_nat k))) l = nth_error l (k - start).
Proof.
  induction l as [|x l IH]; intros start k Hids Hk; [cbn in Hk; lia|].
  cbn [List.length seq map] in Hids. inversion Hids as [[Hx Hrest]].
  cbn [find]. rewrite (hasId_of_id x (Z.of_nat start) Hx).
  destruct (Z.of_nat k =? Z.of_nat start) eqn:E.
  - apply Z.eqb_eq in E. replace (k - start)%nat with O by lia. reflexivity.
  - apply Z.eqb_neq in E. cbn [List.length] in Hk.
    replace (k - start)%nat with (S (k - S start)) by lia. cbn [nth_error].
    apply IH; [exact Hrest|lia].
Qed.

(** X19: when the module is loaded where [students.json] does not exist
    or holds the empty array, then once its own call of [loadStudents()]
    has settled, and as long as nothing is removed and each call of
    [addStudent] is made when the one before has settled, the students
    added get the ids [1], [2], ... in the order of the calls; the ids are
    pairwise different and [getStudentById] finds the k-th student under
    the k-th id. *)
Theorem ids_count_up_while_nothing_is_removed : forall cwd d entries,
  d (resolve cwd STUDENTS_FILE_PATH) = None
  \/ d (resolve cwd STUDENTS_FILE_PATH) = Some (Json.stringify (studentsToJson [])) ->
  let st := addAll cwd entries (loaded cwd d) in
  students (loaded cwd d) = []
  /\ map Students.id (students st) = idsUpTo (List.length entries)
  /\ NoDup (map Students.id (students st))
  /\ List.length (students st) = List.length entries
  /\ (forall k, (1 <= k <= List.length entries)%nat ->
        exists x,
          snd (getStudentById (numberToString (Z.of_nat k)) st) = Some x
          /\ nth_error (students st) (k - 1) = Some x
          /\ Students.id x = Some (JString (numberToString (Z.of_nat k)))).
Proof.
  intros cwd d entries Hfile st.
  assert (Hnone : students (loaded cwd d) = []).
  { unfold loaded, loadStudents, loadJSON, readFile. cbv zeta.
    destruct Hfile as [H|H]; rewrite H; reflexivity. }
  assert (Hids : map Students.id (students st) = idsUpTo (List.length entries)).
  { unfold st. rewrite ids_of_addAll. now rewrite Hnone. }
  assert (Hlen : List.length (students st) = List.length entries).
  { rewrite <- (length_map Students.id), Hids. unfold idsUpTo.
    now rewrite length_map, length_seq. }
  split; [exact Hnone|].
  split; [exact Hids|]. split; [rewrite Hids; apply idsUpTo_NoDup|]. split; [exact Hlen|].
  intros k Hk. unfold getStudentById. cbn [snd].
  rewrite (find_by_id (students st) 1 k); [|now rewrite Hlen|lia].
  destruct (nth_error (students st) (k - 1)) as [x|] eqn:En.
  - exists x. split; [reflexivity|]. split; [reflexivity|].
    pose proof (map_nth_error Students.id _ _ En) as Hm. rewrite Hids in Hm.
    unfold idsUpTo in Hm. rewrite nth_error_map, nth_error_seq in Hm.
    replace (k - 1 <? List.length entries)%nat with true in Hm
      by (symmetry; apply Nat.ltb_lt; lia).
    cbn [option_map] in Hm. inversion Hm as [Hx]. repeat f_equal. lia.
  - apply nth_error_None in En. lia.
Qed.

Lemma ids_count_up_while_nothing_is_removed_witness :
  FileUtils.emptyDisk (resolve "/srv" STUDENTS_FILE_PATH) = None
  /\ map Students.id (students Examples.threeAdded)
     = [Some (JString "1"); Some (JString "2"); Some (JString "3")]
  /\ NoDup (map Students.id (students Examples.threeAdded)).
Proof.
  destruct (ids_count_up_while_nothing_is_removed "/srv" FileUtils.emptyDisk
              [Examples.entry "Ann" 20 1; Examples.entry "Bob" 21 1;
               Examples.entry "Cid" 19 2] (or_introl eq_refl)) as (_ & Hids & Hnodup & _).
  split; [reflexivity|]. split; [exact Hids|exact Hnodup].
Defined.

Lemma find_append : forall {A : Type} (p : A -> bool) l1 l2,
  find p (l1 ++ l2) = match find p l1 with
                      | Some x => Some x
                      | None => find p l2
                      end.
Proof.
  intros A p l1 l2. induction l1 as [|a l1 IH]; [reflexivity|].
  cbn [app find]. now destruct (p a).
Qed.

(** X20: [addStudent] takes the id from the number of students, so when a
    student with the id [length + 1] is in the store, as after the removal
    of an earlier student, the new student gets an id that is taken: two
    students share it and [getStudentById] returns the older one. *)
Theorem id_of_a_removed_slot_is_given_again : forall cwd written name age group st old,
  In old (students st) ->
  hasId (numberToString (Z.of_nat (List.length (students st)) + 1)) old = true ->
  let newId := numberToString (Z.of_nat (List.length (students st)) + 1) in
  let added := addStudent cwd written name age group st in
  exists first,
    In first (students st)
    /\ hasId newId first = true
    /\ snd (getStudentById newId (fst added)) = Some first
    /\ (2 <= List.length (filter (hasId newId) (students (fst added))))%nat.
Proof.
  intros cwd written name age group st old Hin Hold newId added.
  unfold added. unfold getStudentById. cbn [snd]. rewrite add_appends.
  fold newId. rewrite find_append, filter_app, length_app.
  destruct (find (hasId newId) (students st)) as [first|] eqn:Ef.
  - apply find_some in Ef as [Hfirst Hid]. exists first.
    split; [exact Hfirst|]. split; [exact Hid|]. split; [reflexivity|].
    cbn [filter]. unfold hasId at 2. cbn [Students.id]. rewrite String.eqb_refl.
    cbn [List.length].
    assert (In old (filter (hasId newId) (students st))) by (apply filter_In; now split).
    destruct (filter (hasId newId) (students st)); [contradiction|cbn [List.length]; lia].
  - exfalso. pose proof (find_none _ _ Ef old Hin) as H. unfold newId in H. congruence.
Qed.

Lemma id_of_a_removed_slot_is_given_again_witness :
  map Students.id (students Examples.afterRemoval)
  = [Some (JString "2"); Some (JString "3")]
  /\ exists first,
       In first (students Examples.afterRemoval)
       /\ hasId "3" first = true
       /\ snd (getStudentById "3"
                 (fst (addStudent "/srv" Written (Some (JString "Dee")) (Some (JNumber 22))
                         (Some (JNumber 2)) Examples.afterRemoval)))
          = Some first
       /\ (2 <= List.length
                  (filter (hasId "3")
                     (students
                        (fst (addStudent "/srv" Written (Some (JString "Dee"))
                                (Some (JNumber 22)) (Some (JNumber 2))
                                Examples.afterRemoval)))))%nat.
Proof.
  split; [reflexivity|].
  apply (id_of_a_removed_slot_is_given_again "/srv" Written (Some (JString "Dee"))
           (Some (JNumber 22)) (Some (JNumber 2)) Examples.afterRemoval
           {| Students.id := Some (JString "3"); Students.name := Some (JString "Cid");
              Students.age := Some (JNumber 19); Students.group := Some (JNumber 2) |}).
  - right. left. reflexivity.
  - reflexivity.
Defined.

Lemma validated_students : forall items,
  validateStudents items = None ->
  exists l, newStudents items = Some l
            /\ List.length l = List.length items /\ Forall complete l.
Proof.
  induction items as [|s items IH]; intros H.
  - exists []. now repeat split.
  - cbn [validateStudents] in H.
    assert (Hs : exists x, newStudent s = Some x /\ complete x
                           /\ validateStudents items = None).
    { destruct s as [| | | | |]; try discriminate;
        match type of H with
        | (if ?c then _ else _) = None =>
            destruct c eqn:Ec; [discriminate|]
        end;
        apply orb_false_iff in Ec as [Ec Hg]; apply orb_false_iff in Ec as [Ec Ha];
        apply orb_false_iff in Ec as [Hi Hn];
        apply negb_false_iff in Hi, Hn;
        (eexists; split; [reflexivity|]; split; [|exact H]);
        (split; [exact Hi|]; split; [exact Hn|]; cbn [age group]; split; intros Hu;
         [rewrite Hu in Ha|rewrite Hu in Hg]; discriminate). }
    destruct Hs as (x & Hx & Hcomplete & Hrest).
    destruct (IH Hrest) as (l & Hl & Hlen & Hall).
    exists (x :: l). cbn [newStudents]. rewrite Hx, Hl.
    split; [reflexivity|]. split; [cbn [List.length]; now rewrite Hlen|].
    now constructor.
Qed.

(** X21: [replaceAllStudents] either throws and leaves the store as it is
    (the argument is not an array, an element is [null], or an element
    lacks a truthy id or name or has an [undefined] age or group), or
    replaces the students by one student per element, each with a truthy
    id and name and with an age and a group. *)
Theorem replacement_is_checked_before_the_store_changes :
  forall cwd written newStudentsValue st,
  let result := replaceAllStudents cwd written newStudentsValue st in
  (fst result = st
   /\ exists t, snd result = Raised t
                /\ (t = TypeError \/ t = OfError notAnArray \/ t = OfError missingFields))
  \/ (exists items,
        newStudentsValue = Some (JArray items)
        /\ validateStudents items = None
        /\ newStudents items = Some (students (fst result))
        /\ List.length (students (fst result)) = List.length items
        /\ Forall complete (students (fst result))
        /\ snd result = match written with
                        | Written => Returned (students (fst result))
                        | WriteFailed e _ => Raised (OfError e)
                        end).
Proof.
  intros cwd written v st result. unfold result, replaceAllStudents.
  destruct v as [[| | | |items|]|];
    try (left; split; [reflexivity|]; exists (OfError notAnArray);
         split; [reflexivity|]; right; left; reflexivity).
  destruct (validateStudents items) as [t|] eqn:Ev.
  - left. split; [reflexivity|]. exists t. split; [reflexivity|].
    clear -Ev. induction items as [|s items IH]; [discriminate|].
    cbn [validateStudents] in Ev.
    destruct s; try (injection Ev as <-; now left);
      match type of Ev with
      | (if ?c then _ else _) = _ => destruct c; [injection Ev as <-; auto|now apply IH]
      end.
  - right. destruct (validated_students items Ev) as (l & Hl & Hlen & Hall).
    exists items. rewrite Hl, then_saved.
    destruct written; cbn [fst snd students emitEvent setStoreDisk setStudents saveStudents saveToJSON];
      now repeat split.
Qed.

(** X22: [startBackupManager] creates and starts a manager only when the
    module has none.  After [stopBackupManager()] the module still holds
    the stopped manager, so a later [startBackupManager(intervalMs)]
    returns it as it is: nothing is started and the interval is ignored. *)
Theorem stopped_manager_is_not_started_again : forall st first second,
  backupManager st = None ->
  let interval := match first with Some ms => ms | None => 30000 end in
  let st1 := fst (startBackupManager first st) in
  let st2 := stopBackupManager st1 in
  let st3 := fst (startBackupManager second st2) in
  (exists manager,
      backupManager st1 = Some manager
      /\ snd (startBackupManager first st) = manager
      /\ BackupManager.isRunning manager = true
      /\ BackupManager.backupInterval manager = interval
      /\ BackupManager.operations manager = [(0%nat, BackupManager.AwaitAccess)]
      /\ BackupManager.emitted manager = [BackupManager.BackupStarted (interval # 1000)])
  /\ st3 = st2
  /\ (exists manager,
        backupManager st3 = Some manager
        /\ snd (startBackupManager second st2) = manager
        /\ BackupManager.isRunning manager = false
        /\ BackupManager.timers manager = []
        /\ BackupManager.backupInterval manager = interval
        /\ BackupManager.emitted manager
           = [BackupManager.BackupStarted (interval # 1000); BackupManager.BackupStopped])
  /\ (forall store manager intervalMs,
        backupManager store = Some manager ->
        startBackupManager intervalMs store = (store, manager)).
Proof.
  intros st first second Hnone interval st1 st2 st3.
  unfold st3, st2, st1, startBackupManager, stopBackupManager. rewrite Hnone.
  cbn [fst snd backupManager setBackupManager]. fold interval.
  split; [eexists; repeat split|]. split; [reflexivity|].
  split; [eexists; repeat split|].
  intros store manager intervalMs H. unfold startBackupManager. now rewrite H.
Qed.

Lemma stopped_manager_is_not_started_again_witness :
  backupManager (initial emptyDisk) = None
  /\ exists manager,
       backupManager
         (fst (startBackupManager (Some 1000)
                 (stopBackupManager
                    (fst (startBackupManager (Some 5000) (initial emptyDisk))))))
       = Some manager
       /\ BackupManager.isRunning manager = false
       /\ BackupManager.backupInterval manager = 5000.
Proof.
  split; [reflexivity|].
  destruct (stopped_manager_is_not_started_again (initial emptyDisk) (Some 5000) (Some 1000)
              eq_refl) as (_ & _ & (manager & Hm & _ & Hstopped & _ & Hinterval & _) & _).
  exists manager. split; [exact Hm|]. split; [exact Hstopped|exact Hinterval].
Defined.

End StudentFacts.

(** ** The backup routes *)

Module RouteFacts.

Import JsString Json Students BackupRoutes.

(** *** [parseInt] of the decimal text of an integer *)









(** What the handler does, branch by branch. *)
Lemma start_route_cases : forall engine destructured st,
  (exists error, postBackupStart engine destructured st = Some (st, serverError error))
  \/ postBackupStart engine destructured st = Some (st, badInterval)
  \/ postBackupStart engine destructured st = Some (startOrReport 30000 st)
  \/ postBackupStart engine destructured st = None
  \/ exists seconds,
       1 <= seconds <= maxSeconds
       /\ postBackupStart engine destructured st
          = Some (startOrReport (seconds * 1000) st).
Proof.
  intros engine destructured st. unfold postBackupStart.
  destruct destructured as [[interval|]|error]; [| |left; now exists error].
  - destruct (JsValue.truthy engine interval); [|right; right; now left].
    destruct (JsValue.toString engine interval) as [text|error]; [|left; now exists error].
    destruct (parseInt text) as [seconds|]; [|right; now left].
    cbv zeta. destruct (seconds * 1000 <? 1000) eqn:E; [right; now left|].
    apply Z.ltb_ge in E.
    destruct (seconds <=? maxSeconds) eqn:Emax; [|right; right; right; now left].
    apply Z.leb_le in Emax. right. right. right. right. exists seconds. split; [lia|reflexivity].
  - right. right. now left.
Qed.



(** X24: once the module holds a stopped manager, [POST
    /api/backup/start] changes nothing and yet, unless it refuses the
    interval or catches an error, answers [Backup manager started] with
    the status [running], while [GET /api/backup/status] answers
    [stopped] and [POST /api/backup/stop] answers that the manager is not
    running. *)
Theorem start_route_answers_running_for_a_stopped_manager :
  forall engine destructured st manager st' response,
  backupManager st = Some manager ->
  BackupManager.isRunning manager = false ->
  postBackupStart engine destructured st = Some (st', response) ->
  st' = st
  /\ (response = badInterval
      \/ (exists error, response = serverError error)
      \/ (status response = 200
          /\ exists v,
               body response = JsonBody v
               /\ getProperty v "message" = Some (JString "Backup manager started")
               /\ getProperty v "status" = Some (JString "running")))
  /\ getBackupStatus st'
     = {| status := 200;
          body := JsonBody (JObject [("success", JBool true);
                                     ("status", JString "stopped")]) |}
  /\ postBackupStop st'
     = (st, {| status := 200;
               body := JsonBody
                         (JObject [("success", JBool true);
                                   ("message", JString "Backup manager is not running");
                                   ("status", JString "stopped")]) |}).
Proof.
  intros engine destructured st manager st' response Hm Hstopped Hanswer.
  assert (Hrun : managerIsRunning st = false).
  { unfold managerIsRunning, getBackupManager. now rewrite Hm. }
  assert (Hstart : forall intervalMs,
            fst (startOrReport intervalMs st) = st
            /\ status (snd (startOrReport intervalMs st)) = 200
            /\ exists v,
                 body (snd (startOrReport intervalMs st)) = JsonBody v
                 /\ getProperty v "message" = Some (JString "Backup manager started")
                 /\ getProperty v "status" = Some (JString "running")).
  { intros intervalMs. unfold startOrReport. rewrite Hrun. unfold startBackupManager.
    rewrite Hm. cbn [fst snd status body]. split; [reflexivity|]. split; [reflexivity|].
    eexists. split; [reflexivity|]. now split. }
  assert (Hsame : st' = st
            /\ (response = badInterval
                \/ (exists error, response = serverError error)
                \/ (status response = 200
                    /\ exists v,
                         body response = JsonBody v
                         /\ getProperty v "message" = Some (JString "Backup manager started")
                         /\ getProperty v "status" = Some (JString "running")))).
  { destruct (start_route_cases engine destructured st)
      as [[error H]|[H|[H|[H|(seconds & _ & H)]]]];
      rewrite H in Hanswer; try discriminate.
    - inversion Hanswer. split; [reflexivity|]. right. left. now exists error.
    - inversion Hanswer. split; [reflexivity|]. now left.
    - destruct (Hstart 30000) as (H1 & H2 & H3).
      destruct (startOrReport 30000 st) as [x y]. inversion Hanswer. subst x y.
      split; [exact H1|]. right. right. now split.
    - destruct (Hstart (seconds * 1000)) as (H1 & H2 & H3).
      destruct (startOrReport (seconds * 1000) st) as [x y]. inversion Hanswer. subst x y.
      split; [exact H1|]. right. right. now split. }
  destruct Hsame as [-> Hresponse]. split; [reflexivity|]. split; [exact Hresponse|].
  unfold getBackupStatus, postBackupStop. rewrite Hrun. now split.
Qed.

Lemma start_route_answers_running_for_a_stopped_manager_witness :
  backupManager Examples.stoppedStore
  = Some (BackupManager.stop
            (BackupManager.start (BackupManager.create 30000 FileUtils.emptyDisk)))
  /\ postBackupStart Json.engine (Ok (Some (JNumber 5))) Examples.stoppedStore
     = Some (Examples.stoppedStore,
             {| status := 200;
                body := JsonBody
                          (JObject [("success", JBool true);
                                    ("message", JString "Backup manager started");
                                    ("status", JString "running");
                                    ("interval", JNumber 5)]) |})
  /\ getBackupStatus Examples.stoppedStore
     = {| status := 200;
          body := JsonBody (JObject [("success", JBool true);
                                     ("status", JString "stopped")]) |}.
Proof.
  assert (Hanswer : postBackupStart Json.engine (Ok (Some (JNumber 5))) Examples.stoppedStore
                    = Some (Examples.stoppedStore,
                            {| status := 200;
                               body := JsonBody
                                         (JObject [("success", JBool true);
                                                   ("message", JString "Backup manager started");
                                                   ("status", JString "running");
                                                   ("interval", JNumber 5)]) |}))
    by reflexivity.
  split; [reflexivity|]. split; [exact Hanswer|].
  destruct (start_route_answers_running_for_a_stopped_manager Json.engine
              (Ok (Some (JNumber 5))) Examples.stoppedStore
              (BackupManager.stop
                 (BackupManager.start (BackupManager.create 30000 FileUtils.emptyDisk)))
              Examples.stoppedStore _ eq_refl eq_refl Hanswer) as (_ & _ & Hstatus & _).
  exact Hstatus.
Defined.

End RouteFacts.

(** ** The store, the manager and the disk together *)

Module WiringFacts.

Import JsString JsDate Json FileUtils BackupManager Scenario ManagerFacts ScheduleFacts.

Lemma directory_ready_then_written : forall s id k w w' students,
  uncaught s = None ->
  findOperation id (operations s) = Some k ->
  k = AwaitAccess \/ k = AwaitMkdir ->
  getStudentsCallback w = Ok (JArray students) ->
  let backupFileName := generateBackupFileName (now w) in
  let path := resolve (cwd w) (Path.join backupDirectory backupFileName) in
  run s [Settles id (Ok tt) w; Settles id (Ok tt) w']
  = setOperations (removeOperation id (updateOperation id
                     (AwaitWrite backupFileName path (stringify (JArray students)))
                     (operations s)))
      (nextOperation s)
      (finallyClause
         (emit (BackupCompleted backupFileName)
            (setDisk (writeFile (disk s) path (stringify (JArray students))) s))).
Proof.
  intros s id k w w' students Hu Hf Hk Hcb backupFileName path.
  cbn [run fold_left].
  rewrite (settle_suspends s id k (Ok tt) w
             (AwaitWrite backupFileName path (stringify (JArray students))) Hu Hf).
  - erewrite settle_completes; [reflexivity|exact Hu|].
    cbn [operations setOperations]. now apply (SnapshotFacts.findOperation_updated id _ _ k).
  - destruct Hk as [-> | ->]; cbn [resumeBody]; unfold afterEnsureBackupDirectory;
      now rewrite Hcb.
Qed.

(** X25: an operation of the module's manager that resumes while the
    store is [st] and runs to its end writes the very text that
    [saveStudents()] writes to [students.json], and that text loads back
    as the students of [st]. *)
Theorem backup_of_the_store_restores_it : forall manager id k clock cwd st w',
  uncaught manager = None ->
  findOperation id (operations manager) = Some k ->
  k = AwaitAccess \/ k = AwaitMkdir ->
  let finished :=
    run manager [Settles id (Ok tt) (Students.worldOf clock cwd st); Settles id (Ok tt) w'] in
  let backupFileName := generateBackupFileName clock in
  let text := stringify (Students.studentsToJson (Students.students st)) in
  newlyEmitted manager finished = [BackupCompleted backupFileName]
  /\ disk finished (resolve cwd (Path.join backupDirectory backupFileName)) = Some text
  /\ Students.disk (fst (Students.saveStudents cwd FileUtils.Written st))
       (resolve cwd Students.STUDENTS_FILE_PATH) = Some text
  /\ exists items,
       parse text = Ok (JArray items)
       /\ Students.newStudents items = Some (Students.students st).
Proof.
  intros manager id k clock cwd st w' Hu Hf Hk finished backupFileName text.
  unfold finished.
  rewrite (directory_ready_then_written manager id k (Students.worldOf clock cwd st) w'
             (map Students.studentToJson (Students.students st)) Hu Hf Hk eq_refl).
  cbn [BackupManager.now BackupManager.cwd Students.worldOf].
  split; [now apply newlyEmitted_app|]. split.
  - cbn [disk setOperations finallyClause setProgress emit setDisk].
    unfold writeFile. now rewrite String.eqb_refl.
  - split.
    + unfold Students.saveStudents, saveToJSON.
      cbn [fst Students.disk Students.emitEvent Students.setStoreDisk].
      unfold writeFile. now rewrite String.eqb_refl.
    + exists (map Students.studentToJson (Students.students st)).
      split; [apply JsonFacts.parse_stringify|apply StudentFacts.newStudents_of_json].
Qed.

Lemma backup_of_the_store_restores_it_witness :
  uncaught started = None
  /\ findOperation 0 (operations started) = Some AwaitAccess
  /\ newlyEmitted started
       (run started
          [Settles 0 (Ok tt) (Students.worldOf 1735787045678 "/srv" Examples.threeAdded);
           Settles 0 (Ok tt) exampleWorld])
     = [BackupCompleted "backup-2025-01-02-03-04-05.backup.json"]
  /\ exists items,
       parse (stringify (Students.studentsToJson (Students.students Examples.threeAdded)))
       = Ok (JArray items)
       /\ Students.newStudents items = Some (Students.students Examples.threeAdded).
Proof.
  split; [reflexivity|]. split; [reflexivity|].
  destruct (backup_of_the_store_restores_it started 0%nat AwaitAccess 1735787045678 "/srv"
              Examples.threeAdded exampleWorld eq_refl eq_refl (or_introl eq_refl))
    as (Hemitted & _ & _ & Hitems).
  split; [exact Hemitted|exact Hitems].
Defined.

(** X26: the file name resolves one second, so a snapshot completed in
    the second of an earlier one has the earlier one's name and takes its
    place: the file under the earlier name then loads as the later
    collection. *)
Theorem later_snapshot_of_a_second_replaces_the_earlier : forall s id k w w' students earlier,
  uncaught s = None ->
  findOperation id (operations s) = Some k ->
  k = AwaitAccess \/ k = AwaitMkdir ->
  getStudentsCallback w = Ok (JArray students) ->
  0 <= year (utcFields earlier) <= 9999 ->
  0 <= year (utcFields (now w)) <= 9999 ->
  earlier / 1000 = now w / 1000 ->
  let finished := run s [Settles id (Ok tt) w; Settles id (Ok tt) w'] in
  let earlierPath :=
    resolve (cwd w) (Path.join backupDirectory (generateBackupFileName earlier)) in
  newlyEmitted s finished = [BackupCompleted (generateBackupFileName earlier)]
  /\ disk finished earlierPath = Some (stringify (JArray students))
  /\ loadJSON (cwd w) (readFile (disk finished))
       (Path.join backupDirectory (generateBackupFileName earlier))
     = Ok (JArray students).
Proof.
  intros s id k w w' students earlier Hu Hf Hk Hcb Hy1 Hy2 Hsecond finished earlierPath.
  assert (Hname : generateBackupFileName earlier = generateBackupFileName (now w)).
  { now apply CalendarFacts.same_second_same_name. }
  unfold finished, earlierPath. rewrite Hname.
  rewrite (directory_ready_then_written s id k w w' students Hu Hf Hk Hcb).
  split; [now apply newlyEmitted_app|].
  unfold loadJSON, readFile.
  cbn [disk setOperations finallyClause setProgress emit setDisk].
  unfold writeFile. rewrite String.eqb_refl.
  split; [reflexivity|apply JsonFacts.parse_stringify].
Qed.

Lemma later_snapshot_of_a_second_replaces_the_earlier_witness :
  uncaught started = None
  /\ findOperation 0 (operations started) = Some AwaitAccess
  /\ 0 <= year (utcFields 1735787045001) <= 9999
  /\ 1735787045001 / 1000 = now fiveWorld / 1000
  /\ loadJSON "/srv"
       (readFile (disk (run started [Settles 0 (Ok tt) fiveWorld; Settles 0 (Ok tt) fiveWorld])))
       (Path.join backupDirectory (generateBackupFileName 1735787045001))
     = Ok (JArray fiveStudents).
Proof.
  assert (H1 : 0 <= year (utcFields 1735787045001) <= 9999)
    by (vm_compute; split; discriminate).
  assert (H2 : 0 <= year (utcFields (now fiveWorld)) <= 9999)
    by (vm_compute; split; discriminate).
  split; [reflexivity|]. split; [reflexivity|]. split; [exact H1|]. split; [reflexivity|].
  destruct (later_snapshot_of_a_second_replaces_the_earlier started 0%nat AwaitAccess
              fiveWorld fiveWorld fiveStudents 1735787045001
              eq_refl eq_refl (or_introl eq_refl) eq_refl H1 H2 eq_refl)
    as (_ & _ & Hload).
  exact Hload.
Defined.

End WiringFacts.
